(** * RPC load balancer: endpoint selection, failover and bootstrap

    A shallow embedding of [src/service/rpc/generic/LoadBalancer.ts] and of
    the status payload codec of [src/util/util.shared.ts], followed by the
    properties of the load balancer that were checked against it. *)

From Stdlib Require Import ZArith Bool Lia.
From Stdlib Require SpecFloat.
From stdpp Require Import base option list strings.

Local Open Scope Z_scope.

(** ** JavaScript values used by the balancer *)

Module JS.

(** A JavaScript [number].  Block heights, response times and the block
    tolerance are integer valued, so finite numbers are integers; the two
    infinities seed the reduction of [getFastestServer] and [NaN] is what
    arithmetic on [undefined] or an unparsable height produces. *)
Inductive number : Type :=
| NaN
| NegInfinity
| Fin (z : Z)
| Infinity.

(** [a - b], the difference of two integers taken without rounding: what
    binary64 computes as long as the difference is below [2^53] in
    magnitude.  [sub64] below is the rounded subtraction, and
    [sub64_small] relates the two. *)
Definition sub (a b : number) : number :=
  match a, b with
  | NaN, _ | _, NaN => NaN
  | Fin x, Fin y => Fin (x - y)
  | Infinity, Infinity | NegInfinity, NegInfinity => NaN
  | Infinity, _ | _, NegInfinity => Infinity
  | NegInfinity, _ | _, Infinity => NegInfinity
  end.

(** [a > b]; every comparison with [NaN] is false. *)
Definition gt (a b : number) : bool :=
  match a, b with
  | NaN, _ | _, NaN => false
  | Fin x, Fin y => y <? x
  | Infinity, Infinity | NegInfinity, NegInfinity => false
  | Infinity, _ | _, NegInfinity => true
  | NegInfinity, _ | _, Infinity => false
  end.

(** [a < b] *)
Definition lt (a b : number) : bool := gt b a.

(** [a === b] on numbers; [NaN] differs from itself. *)
Definition strict_eq (a b : number) : bool :=
  match a, b with
  | Fin x, Fin y => x =? y
  | Infinity, Infinity | NegInfinity, NegInfinity => true
  | _, _ => false
  end.

Definition is_finite (a : number) : bool :=
  match a with Fin _ => true | _ => false end.

(** The part of a JSON value the balancer looks at. *)
Inductive value : Type :=
| Undefined
| Null
| Boolean (b : bool)
| Num (n : number)
| Str (s : string)
| Obj.

(** Truthiness, as used by [if (v)], [v || d] and [!v]. *)
Definition truthy (v : value) : bool :=
  match v with
  | Undefined | Null => false
  | Boolean b => b
  | Num NaN => false
  | Num (Fin z) => negb (z =? 0)
  | Num _ => true
  | Str s => negb (String.eqb s "")
  | Obj => true
  end.

(** [a || b] *)
Definition or_else (a b : value) : value := if truthy a then a else b.

(** [reduce] of an array: the callback receives the accumulator, the item
    and the item's index. *)
Fixpoint reduce_from {A B : Type} (f : B -> A -> Z -> B) (l : list A)
    (i : Z) (acc : B) : B :=
  match l with
  | [] => acc
  | x :: l' => reduce_from f l' (i + 1) (f acc x i)
  end.

Definition reduce {A B : Type} (f : B -> A -> Z -> B) (l : list A)
    (init : B) : B :=
  reduce_from f l 0 init.

(** [arr[i]] for a numeric index; [None] is [undefined]. *)
Definition at_index {A : Type} (l : list A) (i : Z) : option A :=
  if i <? 0 then None else l !! Z.to_nat i.

(** [s.endsWith(suffix)] *)
Definition endsWith (s suffix : string) : bool :=
  let n := String.length s in
  let m := String.length suffix in
  (m <=? n)%nat && String.eqb (String.substring (n - m) m s) suffix.

End JS.

Import JS.

(** ** The registry *)

Inductive RpcNodeType : Type := NORMAL | ARCHIVE.

#[global] Instance RpcNodeType_eq_dec : EqDecision RpcNodeType.
Proof. solve_decision. Defined.

Definition RpcNodeType_eqb (a b : RpcNodeType) : bool :=
  match a, b with
  | NORMAL, NORMAL | ARCHIVE, ARCHIVE => true
  | _, _ => false
  end.

(** [RpcNode]: one entry of the caller's node list or of a manifest. *)
Record RpcNode : Type := mkRpcNode { rpcNode_url : string; rpcNode_type : RpcNodeType }.

Record Node : Type := mkNode { url : string }.

(** [RpcStatus]: one endpoint record. *)
Record RpcStatus : Type := mkRpcStatus {
  node : Node;
  lastBlock : number;
  lastResponseTime : number;
  failed : bool
}.

(** [UrlIndex]: a set active selection [{ url, index }]. *)
Record UrlIndex : Type := mkUrlIndex { active_url : string; active_index : Z }.

(** An object keyed by [RpcNodeType] ([RpcUrl], [ActiveUrl]). *)
Record ByType (A : Type) : Type := mkByType { normal : A; archive : A }.
Arguments mkByType {A} _ _.
Arguments normal {A} _.
Arguments archive {A} _.

Definition get {A : Type} (o : ByType A) (t : RpcNodeType) : A :=
  match t with NORMAL => normal o | ARCHIVE => archive o end.

Definition set {A : Type} (o : ByType A) (t : RpcNodeType) (v : A) : ByType A :=
  match t with
  | NORMAL => mkByType v (archive o)
  | ARCHIVE => mkByType (normal o) v
  end.

(** The mutable fields of a [LoadBalancer] instance.  [activeUrl[t]] starts
    as the empty object [{}], which is [None] here. *)
Record LoadBalancer : Type := mkLoadBalancer {
  rpcUrls : ByType (list RpcStatus);
  activeUrl : ByType (option UrlIndex)
}.

Definition newLoadBalancer : LoadBalancer :=
  mkLoadBalancer (mkByType [] []) (mkByType None None).

Definition set_rpcUrls (lb : LoadBalancer) (t : RpcNodeType) (l : list RpcStatus)
    : LoadBalancer :=
  mkLoadBalancer (set (rpcUrls lb) t l) (activeUrl lb).

Definition set_activeUrl (lb : LoadBalancer) (t : RpcNodeType) (a : UrlIndex)
    : LoadBalancer :=
  mkLoadBalancer (rpcUrls lb) (set (activeUrl lb) t (Some a)).

Definition set_failed (s : RpcStatus) (b : bool) : RpcStatus :=
  mkRpcStatus (node s) (lastBlock s) (lastResponseTime s) b.

Definition set_lastBlock (s : RpcStatus) (n : number) : RpcStatus :=
  mkRpcStatus (node s) n (lastResponseTime s) (failed s).

Definition set_lastResponseTime (s : RpcStatus) (n : number) : RpcStatus :=
  mkRpcStatus (node s) (lastBlock s) n (failed s).

(** ** Selection policy: [LoadBalancer.getFastestServer] *)

(** The type TypeScript infers for the running winner: the seed of the
    reduction has no [failed] field. *)
Record Server : Type := mkServer {
  server_node : Node;
  server_lastBlock : number;
  server_lastResponseTime : number
}.

Definition as_server (s : RpcStatus) : Server :=
  mkServer (node s) (lastBlock s) (lastResponseTime s).

Record Fastest : Type := mkFastest { fastestServer : Server; index : Z }.

Definition fastest_init : Fastest :=
  mkFastest (mkServer (mkNode "") NegInfinity Infinity) (-1).

Definition fastest_step (allowedBlocksBehind : number) (result : Fastest)
    (item : RpcStatus) (index : Z) : Fastest :=
  let isNotFailed := negb (failed item) in
  let isFasterBlock :=
    gt (sub (lastBlock item) allowedBlocksBehind)
       (server_lastBlock (fastestServer result)) in
  let isSameBlockFasterResponse :=
    strict_eq (lastBlock item) (server_lastBlock (fastestServer result))
    && lt (lastResponseTime item) (server_lastResponseTime (fastestServer result)) in
  if isNotFailed && (isFasterBlock || isSameBlockFasterResponse)
  then mkFastest (as_server item) index
  else result.

Definition getFastestServer (servers : list RpcStatus)
    (allowedBlocksBehind : number) : Fastest :=
  reduce (fastest_step allowedBlocksBehind) servers fastest_init.

(** ** Status payload codec: [Utils.getStatusPayload], [Utils.parseStatusPayload] *)

(** Modelled from the spec: the [Network] enumeration and the predicates
    [isUtxoBasedNetwork], [isEvmBasedNetwork] and [isTronNetwork] are
    declared in [src/dto], which is not among the sources.  The spec makes
    [Network] a closed enumeration whose members are each classified by one
    family, and lists UTXO, EVM and Tron as separate families; [Utils.getRpc]
    agrees, testing [isEvmBasedNetwork] before the Tron predicates. *)
Inductive Family : Type :=
| UtxoFamily | EvmFamily | TronFamily | XrpFamily | SolanaFamily | TezosFamily
| OtherFamily.

(** [network_id] is the string of the enumeration member. *)
Record Network : Type := mkNetwork { network_id : string; family : Family }.

Definition isUtxoBasedNetwork (n : Network) : bool :=
  match family n with UtxoFamily => true | _ => false end.
Definition isEvmBasedNetwork (n : Network) : bool :=
  match family n with EvmFamily => true | _ => false end.
Definition isTronNetwork (n : Network) : bool :=
  match family n with TronFamily => true | _ => false end.

Definition BITCOIN : Network := mkNetwork "bitcoin-mainnet" UtxoFamily.
Definition ETHEREUM : Network := mkNetwork "ethereum-mainnet" EvmFamily.
Definition TRON : Network := mkNetwork "tron-mainnet" TronFamily.
Definition TRON_SHASTA : Network := mkNetwork "tron-testnet" TronFamily.
Definition SOLANA : Network := mkNetwork "solana-mainnet" SolanaFamily.

Record JsonRpcCall : Type := mkJsonRpcCall {
  jsonrpc : string;
  method : string;
  params : list value;
  id : Z
}.

(** Of a [JsonRpcResponse] the balancer reads [result] only. *)
Record JsonRpcResponse : Type := mkJsonRpcResponse { result : value }.

(** What the code throws.  [handleFailedRpcCall] rethrows the transport
    error [e] it was given at two places, each after its own
    [console.error] line; [Rethrown] keeps the place with the error. *)
Definition TransportError : Type := string.

Inductive RethrowSite : Type :=
| NoActiveServer       (* "No active server found for node type ..." *)
| AllNodesUnavailable. (* "All RPC nodes are unavailable." *)

Inductive Error : Type :=
| UnsupportedNetwork (n : Network)  (* `Network ${network} is not supported.` *)
| NoActiveNodeSetManually (* 'No active node found, please set node urls manually.' *)
| NoActiveNode            (* 'No active node found.' *)
| Rethrown (site : RethrowSite) (e : TransportError)
| TypeError.              (* a property of [undefined] was accessed *)

Inductive Result (A : Type) : Type :=
| Ok (a : A)
| Throw (e : Error).
Arguments Ok {A} _.
Arguments Throw {A} _.

Module Utils.

Definition getStatusPayload (network : Network) : Result JsonRpcCall :=
  if isUtxoBasedNetwork network then
    Ok (mkJsonRpcCall "2.0" "getblockcount" [] 1)
  else if isEvmBasedNetwork network || isTronNetwork network then
    Ok (mkJsonRpcCall "2.0" "eth_blockNumber" [] 1)
  else Throw (UnsupportedNetwork network).

Section BigNumber.

(** [new BigNumber(v).toNumber()] of the bignumber.js library. *)
Variable BigNumber_toNumber : value -> number.

Definition parseStatusPayload (network : Network) (response : JsonRpcResponse)
    : Result number :=
  if isUtxoBasedNetwork network || isEvmBasedNetwork network then
    Ok (BigNumber_toNumber (or_else (result response) (Num (Fin (-1)))))
  else Throw (UnsupportedNetwork network).

End BigNumber.

(** [prepareRpcCall(method, params)] with the default [id = 1]. *)
Definition prepareRpcCall (method : string) (params : list value) : JsonRpcCall :=
  mkJsonRpcCall "2.0" method params 1.

End Utils.

(** ** State and exceptions

    A method of the balancer reads and writes the instance and either
    returns or throws; what it wrote before throwing stays written. *)

Definition M (A : Type) : Type := LoadBalancer -> Result A * LoadBalancer.

Definition ret {A : Type} (a : A) : M A := fun lb => (Ok a, lb).

Definition throw {A : Type} (e : Error) : M A := fun lb => (Throw e, lb).

Definition bind {A B : Type} (m : M A) (k : A -> M B) : M B :=
  fun lb =>
    match m lb with
    | (Ok a, lb') => k a lb'
    | (Throw e, lb') => (Throw e, lb')
    end.

(** [try { m } catch (e) { h e }] *)
Definition try_catch {A : Type} (m : M A) (h : Error -> M A) : M A :=
  fun lb =>
    match m lb with
    | (Ok a, lb') => (Ok a, lb')
    | (Throw e, lb') => h e lb'
    end.

Notation "'do' x <- m 'then' k" := (bind m (fun x => k))
  (at level 10, x name, m at level 100, k at level 200).

(** ** Bootstrap: [initRemoteHosts], [initCustomNodes], [initRemoteHostsUrls] *)

(** A sample of [Math.random()], a number of the interval [0, 1): the
    fraction [random_num / (random_num + random_rest + 1)]. *)
Record Random : Type := mkRandom { random_num : nat; random_rest : nat }.

(** [Math.floor(random * n)] *)
Definition floor_times (random : Random) (n : nat) : Z :=
  Z.of_nat ((random_num random * n) / (random_num random + random_rest random + 1))%nat.

(** An optional boolean argument, [None] when the caller leaves it out. *)
Definition flag (b : option bool) : bool :=
  match b with Some true => true | _ => false end.

Record InitRemoteHostsParams : Type := mkInitRemoteHostsParams {
  nodeType : RpcNodeType;
  nodes : list RpcNode;
  noSSRFCheck : option bool
}.

Definition fresh_status (url : string) : RpcStatus :=
  mkRpcStatus (mkNode url) (Fin 0) (Fin 0) false.

Section Bootstrap.

(** [new URL(url).hostname]; [None] when the constructor throws. *)
Variable URL_hostname : string -> option string.

Definition checkSSRF (url : string) : bool :=
  match URL_hostname url with
  | Some hostname => endsWith hostname "rpc.tatum.io"
  | None => false
  end.

Definition initRemoteHosts_filter (p : InitRemoteHostsParams) (node : RpcNode) : bool :=
  let typeMatch := RpcNodeType_eqb (rpcNode_type node) (nodeType p) in
  if flag (noSSRFCheck p) then typeMatch
  else
    let ssrfCheckPassed := checkSSRF (rpcNode_url node) in
    typeMatch && ssrfCheckPassed.

(** [this.rpcUrls[nodeType]] is always an array, so the source's
    [if (!this.rpcUrls[nodeType])] never fires and is left out. *)
Definition initRemoteHosts (p : InitRemoteHostsParams) (random : Random) : M unit :=
  fun lb =>
    let filteredNodes := List.filter (initRemoteHosts_filter p) (nodes p) in
    if (length filteredNodes =? 0)%nat then (Ok tt, lb)
    else
      let lb1 :=
        set_rpcUrls lb (nodeType p)
          (get (rpcUrls lb) (nodeType p)
             ++ List.map (fun s => fresh_status (rpcNode_url s)) filteredNodes) in
      let randomIndex := floor_times random (length (get (rpcUrls lb1) (nodeType p))) in
      match at_index (get (rpcUrls lb1) (nodeType p)) randomIndex with
      | None => (Throw TypeError, lb1)
      | Some s =>
          (Ok tt, set_activeUrl lb1 (nodeType p) (mkUrlIndex (url (node s)) randomIndex))
      end.

Definition push (t : RpcNodeType) (s : RpcStatus) (lb : LoadBalancer) : LoadBalancer :=
  set_rpcUrls lb t (get (rpcUrls lb) t ++ [s]).

(** The [for (const node of nodes)] loop of [initCustomNodes]. *)
Fixpoint initCustomNodes_loop (nodes : list RpcNode) (lb : LoadBalancer) : LoadBalancer :=
  match nodes with
  | [] => lb
  | node :: rest =>
      let lb1 :=
        if RpcNodeType_eqb (rpcNode_type node) NORMAL
        then push NORMAL (fresh_status (rpcNode_url node)) lb else lb in
      let lb2 :=
        if RpcNodeType_eqb (rpcNode_type node) ARCHIVE
        then push ARCHIVE (fresh_status (rpcNode_url node)) lb1 else lb1 in
      initCustomNodes_loop rest lb2
  end.

Definition initCustomNodes (nodes : list RpcNode) (random1 random2 : Random) : M unit :=
  do _ <- initRemoteHosts (mkInitRemoteHostsParams NORMAL nodes (Some true)) random1 then
  do _ <- initRemoteHosts (mkInitRemoteHostsParams ARCHIVE nodes (Some true)) random2 then
  fun lb =>
    if negb (length nodes =? 0)%nat then (Ok tt, initCustomNodes_loop nodes lb)
    else (Ok tt, lb).

(** What fetching one manifest gave. *)
Inductive Manifest : Type :=
| NotOk                          (* [response.ok] is false *)
| Json (nodes : list RpcNode)    (* [response.json()] resolved *)
| JsonRejected.                  (* [response.json()] rejected *)

Definition initRemoteHosts_manifest (m : Manifest) (random1 random2 : Random) : M unit :=
  match m with
  | NotOk => ret tt
  | JsonRejected => throw TypeError
  | Json nodes =>
      do _ <- initRemoteHosts (mkInitRemoteHostsParams NORMAL nodes None) random1 then
      initRemoteHosts (mkInitRemoteHostsParams ARCHIVE nodes None) random2
  end.

(** [fetched] is [None] when one of the two [fetch] calls rejected.  The
    [catch] swallows whatever was thrown, so [TypeError] stands for any of
    it. *)
Definition initRemoteHostsUrls (fetched : option (Manifest * Manifest))
    (random1 random2 random3 random4 : Random) : M unit :=
  try_catch
    (match fetched with
     | None => throw TypeError
     | Some (normal, archive) =>
         do _ <- initRemoteHosts_manifest normal random1 random2 then
         initRemoteHosts_manifest archive random3 random4
     end)
    (fun _ => ret tt).

End Bootstrap.

(** ** Configuration read from the container *)

(** [allowedBlocksBehind] is [NaN] when the option is not configured: the
    code subtracts [undefined], which gives [NaN]. *)
Record Config : Type := mkConfig {
  network : Network;
  rpc_nodes : option (list RpcNode);
  oneTimeLoadBalancing : bool;
  allowedBlocksBehind : number
}.

(** [this.activeUrl[nodeType]?.url] *)
Definition activeUrl_url (lb : LoadBalancer) (nodeType : RpcNodeType) : value :=
  match get (activeUrl lb) nodeType with
  | Some a => Str (active_url a)
  | None => Undefined
  end.

(** ** Status probe: [checkStatus], [checkStatuses] *)

(** What one [Utils.fetchWithTimeout] gave for one endpoint. *)
Inductive ProbeOutcome : Type :=
| FetchRejected   (* transport error or timeout *)
| Fetched (responseTime : number) (ok : bool) (body : option JsonRpcResponse).
                  (* [body] is [None] when [res.json()] rejected or gave [null] *)

Section Probe.

Variable BigNumber_toNumber : value -> number.
Variable config : Config.

(** The [.then(...).catch(...)] chain run for one endpoint. *)
Definition probe (server : RpcStatus) (o : ProbeOutcome) : RpcStatus :=
  match o with
  | FetchRejected => set_failed server true
  | Fetched responseTime ok body =>
      let server := set_lastResponseTime server responseTime in
      match body with
      | None => set_failed server true
      | Some response =>
          if ok && truthy (result response) then
            let server := set_failed server false in
            match Utils.parseStatusPayload BigNumber_toNumber (network config) response with
            | Ok height => set_lastBlock server height
            | Throw _ => set_failed server true
            end
          else set_failed server true
      end
  end.

(** [getStatusPayload] is evaluated for each endpoint before its request
    is sent, so on a network without a payload the first endpoint
    already makes [checkStatus] throw. *)
Definition checkStatus (nodeType : RpcNodeType) (probes : nat -> ProbeOutcome) : M unit :=
  fun lb =>
    let servers := get (rpcUrls lb) nodeType in
    match servers, Utils.getStatusPayload (network config) with
    | _ :: _, Throw e => (Throw e, lb)
    | _, _ =>
        let servers := imap (fun i server => probe server (probes i)) servers in
        let lb1 := set_rpcUrls lb nodeType servers in
        let r := getFastestServer servers (allowedBlocksBehind config) in
        if negb (index r =? -1) then
          (Ok tt,
           set_activeUrl lb1 nodeType
             (mkUrlIndex (url (server_node (fastestServer r))) (index r)))
        else (Ok tt, lb1)
    end.

(** The timer that [checkStatuses] re-arms is not part of the state. *)
Definition checkStatuses (probes : RpcNodeType -> nat -> ProbeOutcome) : M unit :=
  do _ <- checkStatus NORMAL (probes NORMAL) then
  do _ <- checkStatus ARCHIVE (probes ARCHIVE) then
  fun lb =>
    if negb (truthy (activeUrl_url lb NORMAL)) && negb (truthy (activeUrl_url lb ARCHIVE))
    then (Throw NoActiveNodeSetManually, lb)
    else (Ok tt, lb).

End Probe.

(** ** URL resolution *)

Definition getActiveUrl (lb : LoadBalancer) (nodeType : RpcNodeType) : value * RpcNodeType :=
  (activeUrl_url lb nodeType, nodeType).

(** [this.activeUrl[nodeType]?.index]; [None] is [undefined]. *)
Definition getActiveIndex (lb : LoadBalancer) (nodeType : RpcNodeType) : option Z :=
  match get (activeUrl lb) nodeType with
  | Some a => Some (active_index a)
  | None => None
  end.

(** The string held by a truthy [url]. *)
Definition truthy_url (v : value) : option string :=
  match v with
  | Str s => if truthy v then Some s else None
  | _ => None
  end.

Definition getActiveArchiveUrlWithFallback (lb : LoadBalancer) : Result (string * RpcNodeType) :=
  match truthy_url (fst (getActiveUrl lb ARCHIVE)) with
  | Some u => Ok (u, ARCHIVE)
  | None =>
      match truthy_url (fst (getActiveUrl lb NORMAL)) with
      | Some u => Ok (u, NORMAL)
      | None => Throw NoActiveNode
      end
  end.

Definition getActiveNormalUrlWithFallback (lb : LoadBalancer) : Result (string * RpcNodeType) :=
  match truthy_url (fst (getActiveUrl lb NORMAL)) with
  | Some u => Ok (u, NORMAL)
  | None =>
      match truthy_url (fst (getActiveUrl lb ARCHIVE)) with
      | Some u => Ok (u, ARCHIVE)
      | None => Throw NoActiveNode
      end
  end.

(** ** Dispatcher: [handleFailedRpcCall], [rawRpcCall] *)

Definition handleFailedRpcCall (config : Config) (e : TransportError)
    (nodeType : RpcNodeType) : M unit :=
  fun lb =>
    match getActiveIndex lb nodeType with
    | None => (Throw (Rethrown NoActiveServer e), lb)
    | Some activeIndex =>
        let servers := get (rpcUrls lb) nodeType in
        match at_index servers activeIndex with
        | None => (Throw TypeError, lb)
        | Some server =>
            let servers := <[Z.to_nat activeIndex := set_failed server true]> servers in
            let lb1 := set_rpcUrls lb nodeType servers in
            let r := getFastestServer servers (allowedBlocksBehind config) in
            if index r =? -1 then (Throw (Rethrown AllNodesUnavailable e), lb1)
            else
              (Ok tt,
               set_activeUrl lb1 nodeType
                 (mkUrlIndex (url (server_node (fastestServer r))) (index r)))
        end
    end.

(** [this.connector.rpcCall(url, rpcCall)]: the answer may depend on how
    many requests the call under way has sent before. *)
Definition Connector : Type :=
  nat -> string -> JsonRpcCall -> TransportError + JsonRpcResponse.

Definition later (connector : Connector) : Connector :=
  fun n => connector (S n).

Inductive Outcome : Type :=
| Returned (response : JsonRpcResponse)
| Raised (e : Error)
| Pending.   (* the recursion is cut off: [fuel] retries were not enough *)

(** One [rawRpcCall] with its retries: what the call gave, the instance
    afterwards, and the requests sent, oldest first.  [rawRpcCall] is the
    call that nothing interrupts: no probe pass writes to the instance
    while the transport is awaited.  [rawRpcCall_during] below is the
    call with such writes. *)
Record Run : Type := mkRun {
  outcome : Outcome;
  final : LoadBalancer;
  sent : list (string * RpcNodeType)
}.

Definition sent_before (x : string * RpcNodeType) (r : Run) : Run :=
  mkRun (outcome r) (final r) (x :: sent r).

Fixpoint rawRpcCall (fuel : nat) (config : Config) (connector : Connector)
    (rpcCall : JsonRpcCall) (archive : option bool) (lb : LoadBalancer) : Run :=
  match (if flag archive
         then getActiveArchiveUrlWithFallback lb
         else getActiveNormalUrlWithFallback lb) with
  | Throw e => mkRun (Raised e) lb []
  | Ok (url, type) =>
      sent_before (url, type)
        match connector 0%nat url rpcCall with
        | inr response => mkRun (Returned response) lb []
        | inl e =>
            match handleFailedRpcCall config e type lb with
            | (Throw e', lb') => mkRun (Raised e') lb' []
            | (Ok _, lb') =>
                match fuel with
                | O => mkRun Pending lb' []
                | S fuel' => rawRpcCall fuel' config (later connector) rpcCall None lb'
                end
            end
        end
  end.

(** ** [init] *)

(** Bootstrap, then the one probe pass of [oneTimeLoadBalancing]; the
    periodic timer of the other mode is not part of the state. *)
Definition init (URL_hostname : string -> option string)
    (BigNumber_toNumber : value -> number) (config : Config)
    (fetched : option (Manifest * Manifest))
    (random1 random2 random3 random4 : Random)
    (probes : RpcNodeType -> nat -> ProbeOutcome) : M unit :=
  do _ <- match rpc_nodes config with
          | Some nodes => initCustomNodes URL_hostname nodes random1 random2
          | None => initRemoteHostsUrls URL_hostname fetched random1 random2 random3 random4
          end then
  if negb (oneTimeLoadBalancing config) then ret tt
  else checkStatuses BigNumber_toNumber config probes.

(** * Predicates used in the statements *)

(** What a running winner is: the seed, or the record of a server that is
    not failed together with its position. *)
Definition winner_of (servers : list RpcStatus) (r : Fastest) : Prop :=
  r = fastest_init
  \/ exists s, 0 <= index r
       /\ servers !! Z.to_nat (index r) = Some s
       /\ failed s = false
       /\ fastestServer r = as_server s.

(** Registry and active selection agree: a set [activeUrl[t]] holds a
    valid index of [rpcUrls[t]] and the url of the endpoint there. *)
Definition consistent (lb : LoadBalancer) : Prop :=
  forall t a,
    get (activeUrl lb) t = Some a ->
    exists s, at_index (get (rpcUrls lb) t) (active_index a) = Some s
      /\ url (node s) = active_url a.

(** [l'] has, at every position of [l], an endpoint with the same url. *)
Definition keeps_urls (l l' : list RpcStatus) : Prop :=
  forall i s, l !! i = Some s -> exists s', l' !! i = Some s' /\ node s' = node s.

(** [activeUrl[t]] is set and holds the url [u]. *)
Definition has_active_url (lb : LoadBalancer) (t : RpcNodeType) (u : string) : Prop :=
  exists a, get (activeUrl lb) t = Some a /\ active_url a = u /\ u <> "".

(** [activeUrl[t]] holds no url: it is still [{}], or its url is empty. *)
Definition lacks_active_url (lb : LoadBalancer) (t : RpcNodeType) : Prop :=
  forall a, get (activeUrl lb) t = Some a -> active_url a = "".

(** The urls registered for a kind, in registry order. *)
Definition registered_urls (lb : LoadBalancer) (t : RpcNodeType) : list string :=
  List.map (fun s => url (node s)) (get (rpcUrls lb) t).

(** Every registered url passes the SSRF check. *)
Definition all_pass_ssrf (URL_hostname : string -> option string) (lb : LoadBalancer) : Prop :=
  forall t u, u ∈ registered_urls lb t -> checkSSRF URL_hostname u = true.

(** Every recorded block height is a finite number. *)
Definition finite_heights (lb : LoadBalancer) : Prop :=
  forall t, Forall (fun s => is_finite (lastBlock s) = true) (get (rpcUrls lb) t).

(** A method keeps a property of the instance, whether it returns or
    throws. *)
Definition preserves {A : Type} (P : LoadBalancer -> Prop) (m : M A) : Prop :=
  forall lb, P lb -> P (snd (m lb)).

(** The number of endpoints of a list that are not failed. *)
Definition up (l : list RpcStatus) : nat :=
  length (List.filter (fun s => negb (failed s)) l).

(** The active selection of a kind points at an endpoint that is not
    failed. *)
Definition settled (lb : LoadBalancer) (t : RpcNodeType) : bool :=
  match get (activeUrl lb) t with
  | Some a =>
      match at_index (get (rpcUrls lb) t) (active_index a) with
      | Some s => negb (failed s)
      | None => false
      end
  | None => false
  end.

(** A bound on the retries one call can make: each successful failover
    lowers it. *)
Definition retry_budget (lb : LoadBalancer) : nat :=
  2 * (up (get (rpcUrls lb) NORMAL) + up (get (rpcUrls lb) ARCHIVE))
  + (if settled lb NORMAL then 0 else 1)
  + (if settled lb ARCHIVE then 0 else 1).

(** The three ways [handleFailedRpcCall] ends. *)
Inductive HandleFailed (config : Config) (e : TransportError) (t : RpcNodeType)
    (lb : LoadBalancer) : Result unit * LoadBalancer -> Prop :=
| HandleFailed_no_index :
    get (activeUrl lb) t = None ->
    HandleFailed config e t lb (Throw (Rethrown NoActiveServer e), lb)
| HandleFailed_type_error a :
    get (activeUrl lb) t = Some a ->
    at_index (get (rpcUrls lb) t) (active_index a) = None ->
    HandleFailed config e t lb (Throw TypeError, lb)
| HandleFailed_marked a server servers r :
    get (activeUrl lb) t = Some a ->
    at_index (get (rpcUrls lb) t) (active_index a) = Some server ->
    servers = <[Z.to_nat (active_index a) := set_failed server true]> (get (rpcUrls lb) t) ->
    r = getFastestServer servers (allowedBlocksBehind config) ->
    HandleFailed config e t lb
      (if index r =? -1
       then (Throw (Rethrown AllNodesUnavailable e), set_rpcUrls lb t servers)
       else (Ok tt,
             set_activeUrl (set_rpcUrls lb t servers) t
               (mkUrlIndex (url (server_node (fastestServer r))) (index r)))).

(** ** Endpoints and instances used as concrete inputs *)

Definition endpoint (u : string) (block responseTime : Z) (isFailed : bool) : RpcStatus :=
  mkRpcStatus (mkNode u) (Fin block) (Fin responseTime) isFailed.

(** "Stale but fast loses": [A(block=100, rt=20)], [B(block=110, rt=200)]. *)
Definition stale_fast_A : RpcStatus := endpoint "A" 100 20 false.
Definition ahead_slow_B : RpcStatus := endpoint "B" 110 200 false.

(** A registry with one endpoint of each kind, both active. *)
Definition one_of_each : LoadBalancer :=
  mkLoadBalancer
    (mkByType [endpoint "N" 0 0 false] [endpoint "X" 0 0 false])
    (mkByType (Some (mkUrlIndex "N" 0)) (Some (mkUrlIndex "X" 0))).

(** A registry whose ARCHIVE selection is set and whose NORMAL one is not. *)
Definition archive_only : LoadBalancer :=
  mkLoadBalancer
    (mkByType [] [endpoint "X" 0 0 false])
    (mkByType None (Some (mkUrlIndex "X" 0))).

Definition example_config : Config := mkConfig ETHEREUM None false (Fin 0).

Definition example_call : JsonRpcCall := Utils.prepareRpcCall "eth_blockNumber" [].

(** A transport on which exactly the urls of [down] fail. *)
Definition failing_on (down : list string) : Connector :=
  fun _ url _ =>
    if existsb (String.eqb url) down then inl "connection refused"
    else inr (mkJsonRpcResponse (Str url)).

(** One NORMAL endpoint and two ARCHIVE endpoints, the first of each kind
    active. *)
Definition two_archives : LoadBalancer :=
  mkLoadBalancer
    (mkByType [endpoint "N" 0 0 false] [endpoint "X" 0 0 false; endpoint "Y" 0 0 false])
    (mkByType (Some (mkUrlIndex "N" 0)) (Some (mkUrlIndex "X" 0))).

(** The nodes of kind [t] in a supplied list, as urls. *)
Definition urls_of_type (t : RpcNodeType) (nodes : list RpcNode) : list string :=
  List.map rpcNode_url
    (List.filter (fun n => RpcNodeType_eqb (rpcNode_type n) t) nodes).


(** A stand-in for the URL parser on plain [https://host/path] urls. *)
Fixpoint until_slash (s : string) : string :=
  match s with
  | EmptyString => EmptyString
  | String c rest => if String.eqb (String c EmptyString) "/" then EmptyString else String c (until_slash rest)
  end.

Definition https_hostname (u : string) : option string :=
  if String.prefix "https://" u
  then Some (until_slash (String.substring 8 (String.length u - 8) u))
  else None.

(** The manifest of the "SSRF filter" scenario. *)
Definition ssrf_manifest : list RpcNode :=
  [mkRpcNode "https://evil.com/rpc" NORMAL;
   mkRpcNode "https://eth-mainnet.rpc.tatum.io" NORMAL].

Definition no_probe : RpcNodeType -> nat -> ProbeOutcome := fun _ _ => FetchRejected.

Definition zero : Random := mkRandom 0 0.

(** "Basic failover": two NORMAL endpoints at block 100, [A] the faster
    and active one. *)
Definition basic_failover : LoadBalancer :=
  mkLoadBalancer
    (mkByType [endpoint "A" 100 50 false; endpoint "B" 100 200 false] [])
    (mkByType (Some (mkUrlIndex "A" 0)) None).

(** "Total exhaustion": every endpoint is marked failed. *)
Definition all_failed : LoadBalancer :=
  mkLoadBalancer
    (mkByType [endpoint "A" 100 50 true; endpoint "B" 100 200 true] [])
    (mkByType (Some (mkUrlIndex "A" 0)) None).

(** * Further definitions *)

(** ** More of the selection policy *)

(** The endpoints of a list that share one block height. *)
Definition same_height (b : Z) (servers : list RpcStatus) : Prop :=
  forall s, s ∈ servers -> lastBlock s = Fin b.

(** ** What a call may change in the registry *)

(** [s'] is [s] with, at most, [failed] switched on. *)
Definition marks (s s' : RpcStatus) : Prop :=
  node s' = node s
  /\ lastBlock s' = lastBlock s
  /\ lastResponseTime s' = lastResponseTime s
  /\ (failed s = true -> failed s' = true).

(** Both lists of [lb'] are those of [lb], position by position, up to
    [failed] flags that were switched on. *)
Definition only_marks (lb lb' : LoadBalancer) : Prop :=
  forall t, Forall2 marks (get (rpcUrls lb) t) (get (rpcUrls lb') t).

(** The registry holds, for the kind of the request, a failed endpoint
    with the url the request was sent to. *)
Definition marked (lb : LoadBalancer) (x : string * RpcNodeType) : Prop :=
  exists s, s ∈ get (rpcUrls lb) (snd x) /\ url (node s) = fst x /\ failed s = true.

(** ** Dispatcher: [rawBatchRpcCall], [post] *)

(** A batch is answered by an array of responses or by a single one. *)
Definition BatchResponse : Type := (list JsonRpcResponse + JsonRpcResponse)%type.

(** [this.connector.rpcCall(url, rpcCall)] for a batch. *)
Definition BatchConnector : Type :=
  nat -> string -> list JsonRpcCall -> TransportError + BatchResponse.

Inductive BatchOutcome : Type :=
| BatchReturned (response : BatchResponse)
| BatchRaised (e : Error)
| BatchPending.   (* the recursion is cut off: [fuel] retries were not enough *)

Record BatchRun : Type := mkBatchRun {
  batch_outcome : BatchOutcome;
  batch_final : LoadBalancer;
  batch_sent : list (string * RpcNodeType)
}.

Definition batch_sent_before (x : string * RpcNodeType) (r : BatchRun) : BatchRun :=
  mkBatchRun (batch_outcome r) (batch_final r) (x :: batch_sent r).

Fixpoint rawBatchRpcCall (fuel : nat) (config : Config) (connector : BatchConnector)
    (rpcCall : list JsonRpcCall) (lb : LoadBalancer) : BatchRun :=
  match getActiveArchiveUrlWithFallback lb with
  | Throw e => mkBatchRun (BatchRaised e) lb []
  | Ok (url, type) =>
      batch_sent_before (url, type)
        match connector 0%nat url rpcCall with
        | inr response => mkBatchRun (BatchReturned response) lb []
        | inl e =>
            match handleFailedRpcCall config e type lb with
            | (Throw e', lb') => mkBatchRun (BatchRaised e') lb' []
            | (Ok _, lb') =>
                match fuel with
                | O => mkBatchRun BatchPending lb' []
                | S fuel' =>
                    rawBatchRpcCall fuel' config (fun n => connector (S n)) rpcCall lb'
                end
            end
        end
  end.

(** What [post] gives: the transport's answer, the error the transport
    threw, or the resolver's error; both errors are logged and thrown on. *)
Inductive PostOutcome (T : Type) : Type :=
| PostReturned (response : T)
| PostThrew (e : TransportError)
| PostRaised (e : Error).
Arguments PostReturned {T} _.
Arguments PostThrew {T} _.
Arguments PostRaised {T} _.

(** [post({ path, body })]: the request sent, if any, as [basePath] and
    [path], and what came of it.  The instance is only read. *)
Definition post {T : Type}
    (connector_post : string -> string -> value -> TransportError + T)
    (path : string) (body : value) (lb : LoadBalancer)
    : option (string * string) * PostOutcome T :=
  match getActiveNormalUrlWithFallback lb with
  | Throw e => (None, PostRaised e)
  | Ok (url, _) =>
      (Some (url, path),
       match connector_post url path body with
       | inr response => PostReturned response
       | inl e => PostThrew e
       end)
  end.

(** No url registered for the kind is the empty string. *)
Definition urls_nonempty (lb : LoadBalancer) (t : RpcNodeType) : Prop :=
  forall u, u ∈ registered_urls lb t -> u <> "".

(** ** What the remote bootstrap registers *)

(** The manifest entries that reach [initRemoteHosts]: a manifest that is
    not ok contributes nothing, and one whose JSON is rejected ends the
    bootstrap where it stands. *)
Definition fetched_nodes (fetched : option (Manifest * Manifest)) : list RpcNode :=
  match fetched with
  | Some (Json from_normal, Json from_archive) => from_normal ++ from_archive
  | Some (Json from_normal, _) => from_normal
  | Some (NotOk, Json from_archive) => from_archive
  | _ => []
  end.

(** The urls of the entries of kind [t] that pass the SSRF check. *)
Definition ssrf_urls_of_type (URL_hostname : string -> option string)
    (t : RpcNodeType) (supplied : list RpcNode) : list string :=
  List.map rpcNode_url
    (List.filter
       (fun n => RpcNodeType_eqb (rpcNode_type n) t
                 && checkSSRF URL_hostname (rpcNode_url n))
       supplied).

(** ** The probe pass *)

(** The endpoints of a kind after their probes have settled. *)
Definition probed (BigNumber_toNumber : value -> number) (config : Config)
    (probes : nat -> ProbeOutcome) (lb : LoadBalancer) (t : RpcNodeType)
    : list RpcStatus :=
  imap (fun i server => probe BigNumber_toNumber config server (probes i))
    (get (rpcUrls lb) t).

(** ** Networks, notification chains and clients: the tables of [Utils] *)

(** The members of the [Network] enumeration that [util.shared.ts] names;
    the enumeration is declared in [src/dto], so [Other] stands for any
    member that the file does not name.  The tables below switch on the
    member and do not need its family. *)
Module Net.

Inductive Name : Type :=
| ARBITRUM_NOVA | ARBITRUM_NOVA_TESTNET | ARBITRUM_ONE | AURORA | AURORA_TESTNET
| AVALANCHE_C | AVALANCHE_C_TESTNET | AVALANCHE_P | AVALANCHE_P_TESTNET
| AVALANCHE_X | AVALANCHE_X_TESTNET | BINANCE_SMART_CHAIN | BINANCE_SMART_CHAIN_TESTNET
| BITCOIN | BITCOIN_CASH | BITCOIN_CASH_TESTNET | BITCOIN_TESTNET
| CELO | CELO_ALFAJORES | CRONOS | CRONOS_TESTNET | DOGECOIN | DOGECOIN_TESTNET
| ETHEREUM | ETHEREUM_CLASSIC | ETHEREUM_GOERLI | ETHEREUM_SEPOLIA
| FANTOM | FANTOM_TESTNET | FLARE | FLARE_COSTON | FLARE_COSTON_2 | FLARE_SONGBIRD
| GNOSIS | GNOSIS_TESTNET | HAQQ | HAQQ_TESTNET
| HARMONY_ONE_SHARD_0 | HARMONY_ONE_TESTNET_SHARD_0 | HORIZEN_EON
| KLAYTN | KLAYTN_BAOBAB | KUCOIN | KUCOIN_TESTNET | LITECOIN | LITECOIN_TESTNET
| OASIS | OASIS_TESTNET | OPTIMISM | OPTIMISM_TESTNET | PALM | PALM_TESTNET
| POLYGON | POLYGON_MUMBAI | SOLANA | SOLANA_DEVNET | TEZOS | TRON | TRON_SHASTA
| VECHAIN | VECHAIN_TESTNET | XDC | XDC_TESTNET | XRP | XRP_TESTNET
| Other (member : string).

End Net.

(** The members of [AddressEventNotificationChain] that the file names. *)
Module Chain.

Inductive Name : Type :=
| BTC | BCH | LTC | DOGE | ETH | MATIC | CELO | SOL | XRP | BSC | TRON | KLAY | EON
| TEZOS
| Other (member : string).

End Chain.

(** The client classes [Utils.getClient] constructs. *)
Inductive Client : Type :=
| Bitcoin | Litecoin | Dogecoin | BitcoinCash | Ethereum | EthereumClassic
| ArbitrumNova | ArbitrumOne | Aurora | AvalancheC | BinanceSmartChain | Celo
| Cronos | Fantom | Gnosis | HarmonyOne | Haqq | Flare | Klaytn | Kucoin | Oasis
| Optimism | Palm | Polygon | Vechain | Xdc | Xrp | Solana | Tron | Tezos
| HorizenEon | BaseTatumSdk.

Module UtilsTables.

(** [None] is the thrown [Error(`Chain ${chain} is not supported.`)]. *)
Definition mapNotificationChainToNetwork (chain : Chain.Name) : option Net.Name :=
  match chain with
  | Chain.BTC => Some Net.BITCOIN
  | Chain.BCH => Some Net.BITCOIN_CASH
  | Chain.LTC => Some Net.LITECOIN
  | Chain.DOGE => Some Net.DOGECOIN
  | Chain.ETH => Some Net.ETHEREUM
  | Chain.MATIC => Some Net.POLYGON
  | Chain.CELO => Some Net.CELO
  | Chain.SOL => Some Net.SOLANA
  | Chain.XRP => Some Net.XRP
  | Chain.BSC => Some Net.BINANCE_SMART_CHAIN
  | Chain.TRON => Some Net.TRON
  | Chain.KLAY => Some Net.KLAYTN
  | Chain.EON => Some Net.HORIZEN_EON
  | _ => None
  end.

(** [None] is the thrown [Error(`Network ${network} is not supported.`)]. *)
Definition mapNetworkToNotificationChain (network : Net.Name) : option Chain.Name :=
  match network with
  | Net.BITCOIN | Net.BITCOIN_TESTNET => Some Chain.BTC
  | Net.BITCOIN_CASH | Net.BITCOIN_CASH_TESTNET => Some Chain.BCH
  | Net.LITECOIN | Net.LITECOIN_TESTNET => Some Chain.LTC
  | Net.DOGECOIN | Net.DOGECOIN_TESTNET => Some Chain.DOGE
  | Net.ETHEREUM | Net.ETHEREUM_SEPOLIA | Net.ETHEREUM_GOERLI => Some Chain.ETH
  | Net.POLYGON | Net.POLYGON_MUMBAI => Some Chain.MATIC
  | Net.CELO | Net.CELO_ALFAJORES => Some Chain.CELO
  | Net.SOLANA | Net.SOLANA_DEVNET => Some Chain.SOL
  | Net.XRP | Net.XRP_TESTNET => Some Chain.XRP
  | Net.BINANCE_SMART_CHAIN | Net.BINANCE_SMART_CHAIN_TESTNET => Some Chain.BSC
  | Net.TRON | Net.TRON_SHASTA => Some Chain.TRON
  | Net.KLAYTN | Net.KLAYTN_BAOBAB => Some Chain.KLAY
  | Net.TEZOS => Some Chain.TEZOS
  | Net.HORIZEN_EON => Some Chain.EON
  | _ => None
  end.

Definition getClient (network : Net.Name) : Client :=
  match network with
  | Net.BITCOIN | Net.BITCOIN_TESTNET => Bitcoin
  | Net.LITECOIN | Net.LITECOIN_TESTNET => Litecoin
  | Net.DOGECOIN | Net.DOGECOIN_TESTNET => Dogecoin
  | Net.BITCOIN_CASH | Net.BITCOIN_CASH_TESTNET => BitcoinCash
  | Net.ETHEREUM | Net.ETHEREUM_SEPOLIA | Net.ETHEREUM_GOERLI => Ethereum
  | Net.ETHEREUM_CLASSIC => EthereumClassic
  | Net.ARBITRUM_NOVA | Net.ARBITRUM_NOVA_TESTNET => ArbitrumNova
  | Net.ARBITRUM_ONE => ArbitrumOne
  | Net.AURORA | Net.AURORA_TESTNET => Aurora
  | Net.AVALANCHE_C | Net.AVALANCHE_C_TESTNET
  | Net.AVALANCHE_P | Net.AVALANCHE_P_TESTNET
  | Net.AVALANCHE_X | Net.AVALANCHE_X_TESTNET => AvalancheC
  | Net.BINANCE_SMART_CHAIN | Net.BINANCE_SMART_CHAIN_TESTNET => BinanceSmartChain
  | Net.CELO | Net.CELO_ALFAJORES => Celo
  | Net.CRONOS | Net.CRONOS_TESTNET => Cronos
  | Net.FANTOM | Net.FANTOM_TESTNET => Fantom
  | Net.GNOSIS | Net.GNOSIS_TESTNET => Gnosis
  | Net.HARMONY_ONE_SHARD_0 | Net.HARMONY_ONE_TESTNET_SHARD_0 => HarmonyOne
  | Net.HAQQ | Net.HAQQ_TESTNET => Haqq
  | Net.FLARE | Net.FLARE_COSTON | Net.FLARE_COSTON_2 | Net.FLARE_SONGBIRD => Flare
  | Net.KLAYTN | Net.KLAYTN_BAOBAB => Klaytn
  | Net.KUCOIN | Net.KUCOIN_TESTNET => Kucoin
  | Net.OASIS | Net.OASIS_TESTNET => Oasis
  | Net.OPTIMISM | Net.OPTIMISM_TESTNET => Optimism
  | Net.PALM | Net.PALM_TESTNET => Palm
  | Net.POLYGON | Net.POLYGON_MUMBAI => Polygon
  | Net.VECHAIN | Net.VECHAIN_TESTNET => Vechain
  | Net.XDC | Net.XDC_TESTNET => Xdc
  | Net.XRP | Net.XRP_TESTNET => Xrp
  | Net.SOLANA | Net.SOLANA_DEVNET => Solana
  | Net.TRON | Net.TRON_SHASTA => Tron
  | Net.TEZOS => Tezos
  | Net.HORIZEN_EON => HorizenEon
  | _ => BaseTatumSdk
  end.

End UtilsTables.

(** ** String helpers of [Utils] *)

Module UtilsStrings.

Import Stdlib.Strings.Ascii.

(** The character is one of [A-Z]. *)
Definition is_upper (c : Ascii.ascii) : bool :=
  (65 <=? Ascii.nat_of_ascii c)%nat && (Ascii.nat_of_ascii c <=? 90)%nat.

(** [letter.toLowerCase()] for a letter of [A-Z]. *)
Definition to_lower (c : Ascii.ascii) : Ascii.ascii :=
  Ascii.ascii_of_nat (Ascii.nat_of_ascii c + 32).

(** [str.replace(/[A-Z]/g, (letter) => `_${letter.toLowerCase()}`)] *)
Fixpoint camelToSnakeCase (str : string) : string :=
  match str with
  | EmptyString => EmptyString
  | String c rest =>
      if is_upper c
      then String "_"%char (String (to_lower c) (camelToSnakeCase rest))
      else String c (camelToSnakeCase rest)
  end.

(** [s.replace(pattern, '')] for a string pattern: the first occurrence
    goes. *)
Fixpoint remove_first (pattern s : string) : string :=
  if String.prefix pattern s
  then String.substring (String.length pattern) (String.length s - String.length pattern) s
  else match s with
       | EmptyString => EmptyString
       | String c rest => String c (remove_first pattern rest)
       end.

Fixpoint zeros (n : nat) : string :=
  match n with
  | O => EmptyString
  | S n' => String "0"%char (zeros n')
  end.

(** [s.padStart(length, '0')] *)
Definition padStart (s : string) (length : nat) : string :=
  zeros (length - String.length s) +:+ s.

(** [padWithZero(data, length)]; [length] defaults to 64. *)
Definition padWithZero (data : string) (length : nat) : string :=
  padStart (remove_first "0x" data) length.

(** No character of the string is one of [A-Z]. *)
Fixpoint no_upper (s : string) : Prop :=
  match s with
  | EmptyString => True
  | String c rest => is_upper c = false /\ no_upper rest
  end.

End UtilsStrings.

(** ** [Utils.getV1RpcUrl] *)

(** [config.apiKey]: both keys are optional. *)
Record ApiKey : Type := mkApiKey { v3 : option string; v4 : option string }.

(** A string that may be [undefined], as a template literal prints it. *)
Definition template (s : option string) : string :=
  match s with Some x => x | None => "undefined" end.

(** A string that may be [undefined], when it is truthy. *)
Definition truthy_string (s : option string) : option string :=
  match s with
  | Some x => if String.eqb x "" then None else Some x
  | None => None
  end.

(** [rpc?.nodes?.[0].url]: [undefined] without a node list, a [TypeError]
    on an empty one. *)
Definition first_node_url (config : Config) : Result (option string) :=
  match rpc_nodes config with
  | None => Ok None
  | Some [] => Throw TypeError
  | Some (first :: _) => Ok (Some (rpcNode_url first))
  end.

(** [getV1RpcUrl(config, path)] with [config.apiKey] as [apiKey]; in the
    branch without a key, [.concat] binds to the template literal only. *)
Definition getV1RpcUrl (apiKey : option ApiKey) (config : Config) (path : option string)
    : Result string :=
  let suffix := match truthy_string path with Some p => p | None => "" end in
  match apiKey with
  | Some key =>
      match first_node_url config with
      | Throw e => Throw e
      | Ok custom =>
          let url :=
            match truthy_string custom with
            | Some u => u
            | None =>
                "https://api.tatum.io/v3/blockchain/node/"
                +:+ network_id (network config) +:+ "/"
                +:+ (match truthy_string (v3 key) with
                     | Some k => k
                     | None => template (v4 key)
                     end)
            end in
          Ok (url +:+ suffix)
      end
  | None =>
      match first_node_url config with
      | Throw e => Throw e
      | Ok custom =>
          match truthy_string custom with
          | Some u => Ok u
          | None =>
              Ok (("https://api.tatum.io/v3/blockchain/node/"
                   +:+ network_id (network config)) +:+ suffix)
          end
      end
  end.

(** ** Scheduler: the timer of [init], [checkStatuses] and [destroy] *)

(** The instance together with its [timeout] field and the timers of the
    runtime that are armed, that is set and neither fired nor cleared;
    every one of them calls [checkStatuses].  Handles are positive, so a
    handle is truthy; [None] is the [undefined] of a field never written. *)
Record Scheduled : Type := mkScheduled {
  instance : LoadBalancer;
  timeout : option nat;
  armed : list nat;
  last_handle : nat
}.

Definition newScheduled : Scheduled := mkScheduled newLoadBalancer None [] 0.

Definition with_instance (s : Scheduled) (lb : LoadBalancer) : Scheduled :=
  mkScheduled lb (timeout s) (armed s) (last_handle s).

(** [this.timeout = setTimeout(() => this.checkStatuses(), LB_INTERVAL)] *)
Definition arm (s : Scheduled) : Scheduled :=
  let handle := S (last_handle s) in
  mkScheduled (instance s) (Some handle) (handle :: armed s) handle.

(** [clearTimeout(handle)]: clearing [undefined] or a timer that is not
    armed does nothing. *)
Definition clearTimeout (handle : option nat) (s : Scheduled) : Scheduled :=
  match handle with
  | Some h =>
      mkScheduled (instance s) (timeout s)
        (List.filter (fun h' => negb (Nat.eqb h' h)) (armed s)) (last_handle s)
  | None => s
  end.

Definition destroy (s : Scheduled) : Scheduled := clearTimeout (timeout s) s.

(** The runtime fires an armed timer: it is armed no more and a pass
    begins. *)
Definition fire (h : nat) (s : Scheduled) : Scheduled :=
  mkScheduled (instance s) (timeout s)
    (List.filter (fun h' => negb (Nat.eqb h' h)) (armed s)) (last_handle s).

(** [checkStatuses] with the timer it re-arms when it completes. *)
Definition checkStatuses_scheduled (BigNumber_toNumber : value -> number)
    (config : Config) (probes : RpcNodeType -> nat -> ProbeOutcome)
    (s : Scheduled) : Result unit * Scheduled :=
  match checkStatuses BigNumber_toNumber config probes (instance s) with
  | (Throw e, lb') => (Throw e, with_instance s lb')
  | (Ok _, lb') =>
      let s1 := with_instance s lb' in
      if negb (oneTimeLoadBalancing config) then
        let s2 := match timeout s1 with Some _ => destroy s1 | None => s1 end in
        (Ok tt, arm s2)
      else (Ok tt, s1)
  end.

(** [init] with the timer it arms in periodic mode. *)
Definition init_scheduled (URL_hostname : string -> option string)
    (BigNumber_toNumber : value -> number) (config : Config)
    (fetched : option (Manifest * Manifest))
    (random1 random2 random3 random4 : Random)
    (probes : RpcNodeType -> nat -> ProbeOutcome)
    (s : Scheduled) : Result unit * Scheduled :=
  match init URL_hostname BigNumber_toNumber config fetched
          random1 random2 random3 random4 probes (instance s) with
  | (Throw e, lb') => (Throw e, with_instance s lb')
  | (Ok _, lb') =>
      if negb (oneTimeLoadBalancing config)
      then (Ok tt, arm (with_instance s lb'))
      else (Ok tt, with_instance s lb')
  end.

(** At most one timer is armed, and [timeout] holds its handle. *)
Definition tidy (s : Scheduled) : Prop :=
  armed s = [] \/ exists h, armed s = [h] /\ timeout s = Some h.

(** ** The subtraction of the selection test in binary64 *)

(** [sub] above is the difference of two integers without rounding.  The
    code computes [item.lastBlock - allowedBlocksBehind] on binary64
    numbers, whose 53-bit significand holds every integer up to [2^53]
    and no odd integer beyond it. *)

(** The binary64 number nearest to an integer, ties to the even
    significand; an infinity when the nearest one would be [2^1024] or
    more. *)
Definition round64 (z : Z) : number :=
  let m := Z.abs z in
  if m <? 2 ^ 53 then Fin z
  else
    let ulp := 2 ^ (Z.log2 m - 52) in
    let q := m / ulp in
    let r := m mod ulp in
    let half := ulp / 2 in
    let q' := if r <? half then q
              else if half <? r then q + 1
              else if Z.even q then q else q + 1 in
    let m' := q' * ulp in
    if 2 ^ 1024 <=? m' then (if z <? 0 then NegInfinity else Infinity)
    else Fin (Z.sgn z * m').

(** [a - b] as the code computes it: the exact difference, rounded. *)
Definition sub64 (a b : number) : number :=
  match a, b with
  | Fin x, Fin y => round64 (x - y)
  | _, _ => sub a b
  end.

(** The reducer of [getFastestServer] (lines 220-236) with the rounded
    subtraction. *)
Definition fastest_step64 (allowedBlocksBehind : number)
    (result : Fastest) (item : RpcStatus) (index : Z) : Fastest :=
  let isNotFailed := negb (failed item) in
  let isFasterBlock :=
    gt (sub64 (lastBlock item) allowedBlocksBehind)
       (server_lastBlock (fastestServer result)) in
  let isSameBlockFasterResponse :=
    strict_eq (lastBlock item) (server_lastBlock (fastestServer result))
    && lt (lastResponseTime item) (server_lastResponseTime (fastestServer result)) in
  if isNotFailed && (isFasterBlock || isSameBlockFasterResponse)
  then mkFastest (as_server item) index
  else result.

Definition getFastestServer64 (servers : list RpcStatus)
    (allowedBlocksBehind : number) : Fastest :=
  reduce (fastest_step64 allowedBlocksBehind) servers fastest_init.

(** An integer of magnitude below [2^52]: the difference of two of them
    is below [2^53] and is not rounded. *)
Definition small (n : number) : bool :=
  match n with
  | Fin z => Z.abs z <? 2 ^ 52
  | _ => false
  end.

(** Two endpoints at heights [2^53] and [2^53 + 2], both binary64
    numbers. *)
Definition high_fast_A : RpcStatus := endpoint "A" (2 ^ 53) 20 false.
Definition higher_slow_B : RpcStatus := endpoint "B" (2 ^ 53 + 2) 200 false.

(** ** A call with probe passes landing during its requests *)

(** [rawRpcCall] above is a call that nothing interrupts.  The source
    awaits the transport (lines 427 and 430), and while it does the timer's
    [checkStatuses] may write to the instance.  [during n] is what lands on
    the instance while the [n]-th request of the call is awaited. *)
Definition Interference : Type := nat -> LoadBalancer -> LoadBalancer.

(** No pass lands during the call. *)
Definition quiet (during : Interference) : Prop :=
  forall n lb, during n lb = lb.

Fixpoint rawRpcCall_during (fuel : nat) (config : Config) (connector : Connector)
    (during : Interference) (rpcCall : JsonRpcCall) (archive : option bool)
    (lb : LoadBalancer) : Run :=
  match (if flag archive
         then getActiveArchiveUrlWithFallback lb
         else getActiveNormalUrlWithFallback lb) with
  | Throw e => mkRun (Raised e) lb []
  | Ok (url, type) =>
      sent_before (url, type)
        match connector 0%nat url rpcCall with
        | inr response => mkRun (Returned response) (during 0%nat lb) []
        | inl e =>
            match handleFailedRpcCall config e type (during 0%nat lb) with
            | (Throw e', lb') => mkRun (Raised e') lb' []
            | (Ok _, lb') =>
                match fuel with
                | O => mkRun Pending lb' []
                | S fuel' =>
                    rawRpcCall_during fuel' config (later connector)
                      (fun n => during (S n)) rpcCall None lb'
                end
            end
        end
  end.

(** A transport on which every request fails. *)
Definition always_down : Connector := fun _ _ _ => inl "timeout".

(** Status probes that all succeed at height 100, the first endpoint of a
    kind answering in 50 ms and the others in 200 ms. *)
Definition healthy_probes : RpcNodeType -> nat -> ProbeOutcome :=
  fun _ i =>
    Fetched (Fin (if Nat.eqb i 0 then 50 else 200)) true
      (Some (mkJsonRpcResponse (Num (Fin 100)))).

(** A stand-in for [new BigNumber(v).toNumber()] on numbers. *)
Definition number_of (v : value) : number :=
  match v with
  | Num n => n
  | _ => NaN
  end.

Definition tolerant_config : Config := mkConfig ETHEREUM None false (Fin 5).

(** A whole probe pass lands during every request. *)
Definition pass_during_each_request : Interference :=
  fun _ lb => snd (checkStatuses number_of tolerant_config healthy_probes lb).

(** The integer held by a number of the Standard Library's binary format
    ([SpecFloat]); used to compare [round64] with that format. *)
Definition number_of_spec (f : SpecFloat.spec_float) : number :=
  match f with
  | SpecFloat.S754_zero _ => Fin 0
  | SpecFloat.S754_infinity s => if s then NegInfinity else Infinity
  | SpecFloat.S754_nan => NaN
  | SpecFloat.S754_finite s m e =>
      let magnitude := if e <? 0 then Z.pos m / 2 ^ (- e) else Z.pos m * 2 ^ e in
      Fin (if s then - magnitude else magnitude)
  end.

(** The NORMAL endpoint [N] is active and its only peer [M] is already
    marked failed; the ARCHIVE endpoint [X] is healthy. *)
Definition last_normal_standing : LoadBalancer :=
  mkLoadBalancer
    (mkByType [endpoint "N" 0 0 false; endpoint "M" 0 0 true] [endpoint "X" 0 0 false])
    (mkByType (Some (mkUrlIndex "N" 0)) (Some (mkUrlIndex "X" 0))).

(** No pass lands. *)
Definition no_pass : Interference := fun _ lb => lb.

(** [basic_failover] after the failure of [A] was handled: [A] is marked
    and [B] is the active NORMAL endpoint. *)
Definition A_marked : LoadBalancer :=
  mkLoadBalancer
    (mkByType [endpoint "A" 100 50 true; endpoint "B" 100 200 false] [])
    (mkByType (Some (mkUrlIndex "B" 1)) None).

(** * Properties *)

(** ** The reduction of [getFastestServer] *)

Lemma reduce_from_app {A B : Type} (f : B -> A -> Z -> B) (l1 l2 : list A) i acc :
  reduce_from f (l1 ++ l2) i acc
  = reduce_from f l2 (i + Z.of_nat (length l1)) (reduce_from f l1 i acc).
Proof.
  revert i acc. induction l1 as [|x l1 IH]; intros i acc; simpl.
  - f_equal. lia.
  - rewrite IH. f_equal. lia.
Qed.

Lemma getFastestServer_snoc servers item allowed :
  getFastestServer (servers ++ [item]) allowed
  = fastest_step allowed (getFastestServer servers allowed) item
      (Z.of_nat (length servers)).
Proof. unfold getFastestServer, reduce. now rewrite reduce_from_app. Qed.

Lemma winner_of_snoc servers item r :
  winner_of servers r -> winner_of (servers ++ [item]) r.
Proof.
  intros [-> | (s & Hi & Hs & Hf & Hr)]; [now left | right].
  exists s. repeat split; try assumption.
  rewrite lookup_app_l; [assumption | now apply lookup_lt_Some in Hs].
Qed.

Lemma fastest_step_winner allowed servers item r :
  winner_of servers r ->
  winner_of (servers ++ [item])
    (fastest_step allowed r item (Z.of_nat (length servers))).
Proof.
  intros Hr. unfold fastest_step.
  destruct (failed item) eqn:Hf; simpl.
  - now apply winner_of_snoc.
  - match goal with |- context [if ?c then _ else _] => destruct c end.
    + right. exists item. simpl. repeat split; try lia; try assumption.
      rewrite Nat2Z.id. rewrite lookup_app_r by lia.
      now rewrite Nat.sub_diag.
    + now apply winner_of_snoc.
Qed.

Lemma getFastestServer_winner servers allowed :
  winner_of servers (getFastestServer servers allowed).
Proof.
  induction servers as [|item servers IH] using rev_ind.
  - now left.
  - rewrite getFastestServer_snoc. now apply fastest_step_winner.
Qed.

Lemma at_index_nonneg {A : Type} (l : list A) i :
  0 <= i -> at_index l i = l !! Z.to_nat i.
Proof. intros H. unfold at_index. destruct (Z.ltb_spec i 0); [lia | reflexivity]. Qed.

Lemma at_index_Some {A : Type} (l : list A) i x :
  at_index l i = Some x -> 0 <= i /\ l !! Z.to_nat i = Some x.
Proof. unfold at_index. destruct (Z.ltb_spec i 0); [discriminate | auto]. Qed.

Lemma getFastestServer_found servers allowed :
  index (getFastestServer servers allowed) <> -1 ->
  exists s, at_index servers (index (getFastestServer servers allowed)) = Some s
    /\ failed s = false
    /\ fastestServer (getFastestServer servers allowed) = as_server s.
Proof.
  intros Hne. destruct (getFastestServer_winner servers allowed) as [E | (s & Hi & Hs & Hf & Hr)].
  - rewrite E in Hne. now contradiction Hne.
  - exists s. rewrite at_index_nonneg by assumption. auto.
Qed.

(** ** Selection never returns a failed endpoint *)

(** C1. For every list of endpoint records and every tolerance, when
    [getFastestServer] returns an index other than [-1], the endpoint at
    that index has [failed] equal to [false], and the returned
    [fastestServer] is the record of that endpoint. *)
Theorem getFastestServer_never_failed (servers : list RpcStatus) (allowedBlocksBehind : number) :
  index (getFastestServer servers allowedBlocksBehind) <> -1 ->
  exists s,
    at_index servers (index (getFastestServer servers allowedBlocksBehind)) = Some s
    /\ failed s = false
    /\ fastestServer (getFastestServer servers allowedBlocksBehind) = as_server s.
Proof.
  intros H. destruct (getFastestServer_winner servers allowedBlocksBehind)
    as [E | (s & Hi & Hs & Hf & Hr)].
  - rewrite E in H. now contradiction H.
  - exists s. rewrite at_index_nonneg by assumption. auto.
Qed.

Lemma getFastestServer_never_failed_witness :
  index (getFastestServer [stale_fast_A; ahead_slow_B] (Fin 5)) <> -1
  /\ exists s,
       at_index [stale_fast_A; ahead_slow_B]
         (index (getFastestServer [stale_fast_A; ahead_slow_B] (Fin 5))) = Some s
       /\ failed s = false
       /\ fastestServer (getFastestServer [stale_fast_A; ahead_slow_B] (Fin 5)) = as_server s.
Proof.
  split; [vm_compute; discriminate |].
  apply (getFastestServer_never_failed [stale_fast_A; ahead_slow_B] (Fin 5)).
  vm_compute; discriminate.
Defined.

(** ** A candidate far enough ahead replaces the winner *)

Lemma ahead_is_faster_block (candidate winner allowed : number) :
  gt (sub candidate winner) allowed = true ->
  gt (sub candidate allowed) winner = true.
Proof.
  destruct candidate, winner, allowed; simpl; try discriminate; try reflexivity.
  intros H. apply Z.ltb_lt in H. apply Z.ltb_lt. lia.
Qed.

(** *** The test as the code computes it, in binary64 *)

Lemma round64_exact z : Z.abs z < 2 ^ 53 -> round64 z = Fin z.
Proof. intros H. unfold round64. apply Z.ltb_lt in H. now rewrite H. Qed.

(** On small integers the subtraction is not rounded. *)
Lemma sub64_small a b : small a = true -> small b = true -> sub64 a b = sub a b.
Proof.
  destruct a as [| |x|], b as [| |y|]; try discriminate. simpl.
  intros Hx Hy. apply Z.ltb_lt in Hx, Hy. apply round64_exact.
  assert (E : 2 ^ 53 = 2 * 2 ^ 52) by reflexivity. rewrite E. lia.
Qed.

Lemma sub64_seed a : sub64 a NegInfinity = sub a NegInfinity.
Proof. now destruct a. Qed.

Lemma getFastestServer64_snoc servers item allowed :
  getFastestServer64 (servers ++ [item]) allowed
  = fastest_step64 allowed (getFastestServer64 servers allowed) item
      (Z.of_nat (length servers)).
Proof. unfold getFastestServer64, reduce. now rewrite reduce_from_app. Qed.

(** On small heights and a small tolerance the selection is the one
    computed without rounding. *)
Lemma getFastestServer64_small servers allowed :
  Forall (fun s => small (lastBlock s) = true) servers ->
  small allowed = true ->
  getFastestServer64 servers allowed = getFastestServer servers allowed.
Proof.
  intros Hsmall Ha. induction servers as [|item servers IH] using rev_ind; [reflexivity |].
  apply Forall_app in Hsmall as [Hservers Hitem]. apply List.Forall_inv in Hitem. simpl in Hitem.
  rewrite getFastestServer64_snoc, getFastestServer_snoc, (IH Hservers).
  unfold fastest_step64, fastest_step. rewrite (sub64_small _ _ Hitem Ha). reflexivity.
Qed.

(** The rounding agrees with the binary64 format of the Standard Library
    ([SpecFloat], precision 53, exponents up to 1024) where the two
    differ from the exact result: just above [2^53], at a tie, and at the
    largest numbers. *)
Example round64_is_binary64 :
  Forall (fun z => round64 z
                   = number_of_spec (SpecFloat.binary_normalize 53 1024 z 0 false))
    [0; 1; -1; 2 ^ 53 - 1; 2 ^ 53; 2 ^ 53 + 1; 2 ^ 53 + 2; 2 ^ 53 + 3; - (2 ^ 53 + 3);
     2 ^ 54 + 2; 2 ^ 54 + 6; 2 ^ 60 + 129; 3 ^ 40; - 7 ^ 30;
     2 ^ 1024 - 2 ^ 971; 2 ^ 1024 - 2 ^ 970 - 1; 2 ^ 1024 - 2 ^ 970; - 2 ^ 1024]
  /\ number_of_spec
       (SpecFloat.SFsub 53 1024
          (SpecFloat.binary_normalize 53 1024 (2 ^ 53 + 2) 0 false)
          (SpecFloat.binary_normalize 53 1024 1 0 false))
     = sub64 (Fin (2 ^ 53 + 2)) (Fin 1).
Proof. split; [repeat constructor |]; vm_compute; reflexivity. Qed.

(** C6, as amended.  On block heights and a tolerance that are integers
    below [2^52] in magnitude, where the subtraction of the test is exact,
    a candidate that is not failed and whose [lastBlock] exceeds the
    [lastBlock] of the running winner (the selection over the servers
    before it) by strictly more than [allowedBlocksBehind] becomes the
    winner, whatever the two response times are; and for [A(block=100,
    rt=20)], [B(block=110, rt=200)] and a tolerance of 5 the selection
    returns [B], at index 1. *)
Theorem getFastestServer64_ahead_replaces_winner :
  (forall (before : list RpcStatus) (candidate : RpcStatus) (allowedBlocksBehind : number),
      Forall (fun s => small (lastBlock s) = true) (before ++ [candidate]) ->
      small allowedBlocksBehind = true ->
      failed candidate = false ->
      gt (sub64 (lastBlock candidate)
                (server_lastBlock
                   (fastestServer (getFastestServer64 before allowedBlocksBehind))))
         allowedBlocksBehind = true ->
      getFastestServer64 (before ++ [candidate]) allowedBlocksBehind
      = mkFastest (as_server candidate) (Z.of_nat (length before)))
  /\ getFastestServer64 [stale_fast_A; ahead_slow_B] (Fin 5)
     = mkFastest (as_server ahead_slow_B) 1.
Proof.
  split; [| reflexivity].
  intros before candidate allowed Hsmall Ha Hf Hahead.
  rewrite getFastestServer64_small by assumption.
  apply Forall_app in Hsmall as [Hbefore Hc]. apply List.Forall_inv in Hc. simpl in Hc.
  rewrite getFastestServer64_small in Hahead by assumption.
  assert (Hexact : gt (sub (lastBlock candidate)
                           (server_lastBlock (fastestServer (getFastestServer before allowed))))
                      allowed = true).
  { destruct (getFastestServer_winner before allowed) as [E | (w & _ & Hw & _ & E)].
    - rewrite E in Hahead |- *. simpl in Hahead |- *. now rewrite sub64_seed in Hahead.
    - rewrite E in Hahead |- *. simpl in Hahead |- *.
      rewrite sub64_small in Hahead; [assumption | assumption |].
      rewrite Forall_lookup in Hbefore. exact (Hbefore _ _ Hw). }
  rewrite getFastestServer_snoc. unfold fastest_step.
  rewrite Hf, (ahead_is_faster_block _ _ _ Hexact). reflexivity.
Qed.

(** The claim as first stated fails beyond [2^53]: with a tolerance of 1,
    [B] at height [2^53 + 2] is not failed and is ahead of the running
    winner [A], at height [2^53], by 2; the test computes [2^53 + 2 - 1],
    which rounds to [2^53], and [A] stays the winner. *)
Lemma getFastestServer64_ahead_can_lose :
  failed higher_slow_B = false
  /\ fastestServer (getFastestServer64 [high_fast_A] (Fin 1)) = as_server high_fast_A
  /\ sub64 (lastBlock higher_slow_B) (lastBlock high_fast_A) = Fin 2
  /\ gt (sub64 (lastBlock higher_slow_B)
               (server_lastBlock (fastestServer (getFastestServer64 [high_fast_A] (Fin 1)))))
        (Fin 1) = true
  /\ getFastestServer64 ([high_fast_A] ++ [higher_slow_B]) (Fin 1)
     = mkFastest (as_server high_fast_A) 0
  /\ getFastestServer64 ([high_fast_A] ++ [higher_slow_B]) (Fin 1)
     <> mkFastest (as_server higher_slow_B) (Z.of_nat (length [high_fast_A])).
Proof. repeat split; try (vm_compute; reflexivity). vm_compute. discriminate. Qed.

Lemma getFastestServer64_ahead_replaces_winner_witness :
  Forall (fun s => small (lastBlock s) = true) ([stale_fast_A] ++ [ahead_slow_B])
  /\ small (Fin 5) = true
  /\ failed ahead_slow_B = false
  /\ gt (sub64 (lastBlock ahead_slow_B)
               (server_lastBlock (fastestServer (getFastestServer64 [stale_fast_A] (Fin 5)))))
        (Fin 5) = true
  /\ getFastestServer64 ([stale_fast_A] ++ [ahead_slow_B]) (Fin 5)
     = mkFastest (as_server ahead_slow_B) (Z.of_nat (length [stale_fast_A])).
Proof.
  assert (Hsmall : Forall (fun s => small (lastBlock s) = true)
                     ([stale_fast_A] ++ [ahead_slow_B]))
    by (repeat constructor).
  split; [exact Hsmall |]. split; [reflexivity |]. split; [reflexivity |].
  split; [reflexivity |].
  apply (proj1 getFastestServer64_ahead_replaces_winner); [exact Hsmall | reflexivity ..].
Defined.

(** ** Objects keyed by node type *)

Lemma get_set_same {A : Type} (o : ByType A) t v : get (set o t v) t = v.
Proof. now destruct t. Qed.

Lemma get_set_other {A : Type} (o : ByType A) t t' v :
  t <> t' -> get (set o t v) t' = get o t'.
Proof. destruct t, t'; intros H; try reflexivity; now contradiction H. Qed.

Lemma getActiveIndex_Some lb t i :
  getActiveIndex lb t = Some i ->
  exists a, get (activeUrl lb) t = Some a /\ active_index a = i.
Proof.
  unfold getActiveIndex. destruct (get (activeUrl lb) t) as [a|]; [|discriminate].
  intros [= <-]. eauto.
Qed.

(** ** When selection finds nothing *)

Lemma fastest_step_index_nonneg allowed r item i :
  0 <= index r -> 0 <= i -> 0 <= index (fastest_step allowed r item i).
Proof.
  intros Hr Hi. unfold fastest_step.
  match goal with |- context [if ?c then _ else _] => destruct c end; assumption.
Qed.

(** With finite numbers, a server that is not failed is enough for the
    selection to return an index. *)
Lemma getFastestServer_finds servers allowed s :
  is_finite allowed = true ->
  s ∈ servers -> failed s = false -> is_finite (lastBlock s) = true ->
  index (getFastestServer servers allowed) <> -1.
Proof.
  intros Hallowed. induction servers as [|item servers IH] using rev_ind; intros Hin Hf Hfin.
  - now apply elem_of_nil in Hin.
  - rewrite getFastestServer_snoc.
    apply elem_of_app in Hin as [Hin | Hin].
    + specialize (IH Hin Hf Hfin).
      destruct (getFastestServer_winner servers allowed) as [E | (w & Hi & _)];
        [rewrite E in IH; now contradiction IH |].
      pose proof (fastest_step_index_nonneg allowed _ item (Z.of_nat (length servers)) Hi).
      lia.
    + apply list_elem_of_singleton in Hin as <-.
      destruct (getFastestServer_winner servers allowed) as [E | (w & Hi & _)].
      * rewrite E. unfold fastest_step. rewrite Hf.
        destruct (lastBlock s), allowed; try discriminate. simpl. lia.
      * pose proof (fastest_step_index_nonneg allowed _ s (Z.of_nat (length servers)) Hi).
        lia.
Qed.

Lemma getFastestServer_none servers allowed :
  is_finite allowed = true ->
  Forall (fun s => is_finite (lastBlock s) = true) servers ->
  index (getFastestServer servers allowed) = -1 ->
  forall s, s ∈ servers -> failed s = true.
Proof.
  intros Hallowed Hfin Hnone s Hin.
  destruct (failed s) eqn:Hf; [reflexivity |]. exfalso.
  apply (getFastestServer_finds servers allowed s); try assumption.
  rewrite Forall_forall in Hfin. now apply Hfin.
Qed.

(** When every server is failed the selection returns its seed. *)
Lemma getFastestServer_all_failed servers allowed :
  (forall s, s ∈ servers -> failed s = true) ->
  getFastestServer servers allowed = fastest_init.
Proof.
  induction servers as [|item servers IH] using rev_ind; intros Hall; [reflexivity |].
  rewrite getFastestServer_snoc, IH.
  - unfold fastest_step. rewrite (Hall item); [reflexivity |].
    apply elem_of_app. right. constructor.
  - intros s Hs. apply Hall, elem_of_app. now left.
Qed.

(** ** Failover: [handleFailedRpcCall] *)

Lemma handleFailedRpcCall_cases config e t lb :
  HandleFailed config e t lb (handleFailedRpcCall config e t lb).
Proof.
  unfold handleFailedRpcCall, getActiveIndex.
  destruct (get (activeUrl lb) t) as [a|] eqn:Ha.
  - destruct (at_index (get (rpcUrls lb) t) (active_index a)) as [server|] eqn:Hs.
    + exact (HandleFailed_marked config e t lb a server _ _ Ha Hs eq_refl eq_refl).
    + exact (HandleFailed_type_error config e t lb a Ha Hs).
  - exact (HandleFailed_no_index config e t lb Ha).
Qed.

(** With a valid active index and another endpoint of the kind that is
    not failed, the handling completes. *)
Lemma handleFailedRpcCall_completes config e t lb a j s :
  is_finite (allowedBlocksBehind config) = true ->
  consistent lb ->
  get (activeUrl lb) t = Some a ->
  get (rpcUrls lb) t !! j = Some s ->
  Z.of_nat j <> active_index a ->
  failed s = false ->
  is_finite (lastBlock s) = true ->
  exists lb', handleFailedRpcCall config e t lb = (Ok tt, lb').
Proof.
  intros Hallowed Hc Ha Hj Hne Hf Hsfin.
  destruct (handleFailedRpcCall_cases config e t lb)
    as [Ha' | a' Ha' Hs | a' server servers r Ha' Hs Hservers Hr].
  - congruence.
  - destruct (Hc t a' Ha') as (s' & Hs' & _). congruence.
  - assert (a' = a) as -> by congruence.
    apply at_index_Some in Hs as [Hi Hs].
    assert (Hin : s ∈ servers).
    { apply list_elem_of_lookup. exists j. subst servers.
      rewrite list_lookup_insert_ne by lia. assumption. }
    pose proof (getFastestServer_finds servers _ s Hallowed Hin Hf Hsfin) as Hidx.
    rewrite <- Hr in Hidx. apply Z.eqb_neq in Hidx. rewrite Hidx. eauto.
Qed.

(** What a completed handling leaves behind. *)
Lemma handleFailedRpcCall_Ok config e t lb lb' :
  handleFailedRpcCall config e t lb = (Ok tt, lb') ->
  exists a server,
    get (activeUrl lb) t = Some a
    /\ at_index (get (rpcUrls lb) t) (active_index a) = Some server
    /\ let servers :=
         <[Z.to_nat (active_index a) := set_failed server true]> (get (rpcUrls lb) t) in
       let r := getFastestServer servers (allowedBlocksBehind config) in
       index r <> -1
       /\ lb' = set_activeUrl (set_rpcUrls lb t servers) t
                  (mkUrlIndex (url (server_node (fastestServer r))) (index r)).
Proof.
  destruct (handleFailedRpcCall_cases config e t lb)
    as [Ha | a Ha Hs | a server servers r Ha Hs Hservers Hr]; try discriminate.
  destruct (Z.eqb_spec (index r) (-1)) as [E | Hne]; [discriminate |].
  intros [= <-]. exists a, server. subst r servers. auto.
Qed.

(** C10. When [handleFailedRpcCall] completes without throwing, the
    endpoint that was active for the kind has [failed] set, and the new
    active selection of the kind is at another index, whose endpoint is
    not failed; when it throws, the active selections are unchanged.  It
    does complete when the active index is valid and another endpoint of
    the kind is not failed (heights and tolerance being finite). *)
Theorem handleFailedRpcCall_marks_and_moves (config : Config) (e : TransportError)
    (nodeType : RpcNodeType) (lb : LoadBalancer) :
  (forall lb',
      handleFailedRpcCall config e nodeType lb = (Ok tt, lb') ->
      exists old new s_old s_new,
        get (activeUrl lb) nodeType = Some old
        /\ get (activeUrl lb') nodeType = Some new
        /\ at_index (get (rpcUrls lb') nodeType) (active_index old) = Some s_old
        /\ failed s_old = true
        /\ active_index new <> active_index old
        /\ at_index (get (rpcUrls lb') nodeType) (active_index new) = Some s_new
        /\ failed s_new = false)
  /\ (forall err lb',
         handleFailedRpcCall config e nodeType lb = (Throw err, lb') ->
         activeUrl lb' = activeUrl lb)
  /\ (forall a j s,
         is_finite (allowedBlocksBehind config) = true ->
         consistent lb ->
         get (activeUrl lb) nodeType = Some a ->
         get (rpcUrls lb) nodeType !! j = Some s ->
         Z.of_nat j <> active_index a ->
         failed s = false ->
         is_finite (lastBlock s) = true ->
         exists lb', handleFailedRpcCall config e nodeType lb = (Ok tt, lb')).
Proof.
  split; [| split].
  - intros lb' Hok.
    destruct (handleFailedRpcCall_Ok _ _ _ _ _ Hok) as (a & server & Ha & Hs & Hne & ->).
    set (servers := <[Z.to_nat (active_index a) := set_failed server true]>
                      (get (rpcUrls lb) nodeType)) in *.
    destruct (getFastestServer_found _ _ Hne) as (s_new & Hnew & Hfnew & _).
    apply at_index_Some in Hs as [Hi Hs].
    assert (Hold : at_index servers (active_index a) = Some (set_failed server true)).
    { rewrite at_index_nonneg by assumption. subst servers.
      apply list_lookup_insert_eq. now apply lookup_lt_Some in Hs. }
    exists a, (mkUrlIndex (url (server_node (fastestServer (getFastestServer servers (allowedBlocksBehind config)))))
                 (index (getFastestServer servers (allowedBlocksBehind config)))),
      (set_failed server true), s_new.
    simpl. rewrite !get_set_same. repeat split; try assumption.
    intros E. rewrite E, Hold in Hnew. injection Hnew as <-. discriminate.
  - intros err lb'.
    destruct (handleFailedRpcCall_cases config e nodeType lb)
      as [Ha | a Ha Hs | a server servers r Ha Hs Hservers Hr]; try (now intros [= _ <-]).
    destruct (index r =? -1); [now intros [= _ <-] | discriminate].
  - intros a j s. apply handleFailedRpcCall_completes.
Qed.

(** With ARCHIVE [X; Y] and [X] active, a failure on ARCHIVE marks [X] and
    moves the selection to [Y]; with NORMAL [N] alone, a failure on NORMAL
    throws and leaves the selections as they were. *)
Lemma handleFailedRpcCall_marks_and_moves_witness :
  (handleFailedRpcCall example_config "connection refused" ARCHIVE two_archives
   = (Ok tt, snd (handleFailedRpcCall example_config "connection refused" ARCHIVE two_archives))
   /\ exists old new s_old s_new,
        get (activeUrl two_archives) ARCHIVE = Some old
        /\ get (activeUrl (snd (handleFailedRpcCall example_config "connection refused"
                                  ARCHIVE two_archives))) ARCHIVE = Some new
        /\ at_index (get (rpcUrls (snd (handleFailedRpcCall example_config "connection refused"
                                          ARCHIVE two_archives))) ARCHIVE)
             (active_index old) = Some s_old
        /\ failed s_old = true
        /\ active_index new <> active_index old
        /\ at_index (get (rpcUrls (snd (handleFailedRpcCall example_config "connection refused"
                                          ARCHIVE two_archives))) ARCHIVE)
             (active_index new) = Some s_new
        /\ failed s_new = false)
  /\ (handleFailedRpcCall example_config "connection refused" NORMAL one_of_each
      = (Throw (Rethrown AllNodesUnavailable "connection refused"),
         snd (handleFailedRpcCall example_config "connection refused" NORMAL one_of_each))
      /\ activeUrl (snd (handleFailedRpcCall example_config "connection refused" NORMAL
                           one_of_each))
         = activeUrl one_of_each)
  /\ (is_finite (allowedBlocksBehind example_config) = true
      /\ consistent two_archives
      /\ get (activeUrl two_archives) ARCHIVE = Some (mkUrlIndex "X" 0)
      /\ get (rpcUrls two_archives) ARCHIVE !! 1%nat = Some (endpoint "Y" 0 0 false)
      /\ Z.of_nat 1 <> active_index (mkUrlIndex "X" 0)
      /\ failed (endpoint "Y" 0 0 false) = false
      /\ is_finite (lastBlock (endpoint "Y" 0 0 false)) = true
      /\ exists lb',
           handleFailedRpcCall example_config "connection refused" ARCHIVE two_archives
           = (Ok tt, lb')).
Proof.
  assert (Hc : consistent two_archives)
    by (intros t a; destruct t; simpl; intros [= <-]; eexists; split; reflexivity).
  split; [| split].
  - split; [reflexivity |].
    apply (proj1 (handleFailedRpcCall_marks_and_moves example_config "connection refused"
                    ARCHIVE two_archives)).
    reflexivity.
  - split; [reflexivity |].
    apply (proj1 (proj2 (handleFailedRpcCall_marks_and_moves example_config
                           "connection refused" NORMAL one_of_each))
             (Rethrown AllNodesUnavailable "connection refused")).
    reflexivity.
  - split; [reflexivity |]. split; [exact Hc |]. split; [reflexivity |].
    split; [reflexivity |]. split; [discriminate |]. split; [reflexivity |].
    split; [reflexivity |].
    apply (proj2 (proj2 (handleFailedRpcCall_marks_and_moves example_config
                           "connection refused" ARCHIVE two_archives))
             (mkUrlIndex "X" 0) 1%nat (endpoint "Y" 0 0 false));
      try reflexivity; [exact Hc | discriminate].
Defined.

(** ** Registry and active selection stay consistent *)

Lemma keeps_urls_refl l : keeps_urls l l.
Proof. intros i s H. eauto. Qed.

Lemma keeps_urls_app l extra : keeps_urls l (l ++ extra).
Proof.
  intros i s H. exists s. split; [| reflexivity].
  rewrite lookup_app_l; [assumption | now apply lookup_lt_Some in H].
Qed.

Lemma keeps_urls_trans l1 l2 l3 :
  keeps_urls l1 l2 -> keeps_urls l2 l3 -> keeps_urls l1 l3.
Proof.
  intros H12 H23 i s H. destruct (H12 i s H) as (s2 & H2 & E2).
  destruct (H23 i s2 H2) as (s3 & H3 & E3). exists s3. split; congruence.
Qed.

Lemma keeps_urls_mark l i server :
  l !! i = Some server -> keeps_urls l (<[i := set_failed server true]> l).
Proof.
  intros Hi j s Hj. destruct (decide (i = j)) as [<- | Hne].
  - exists (set_failed server true). split.
    + apply list_lookup_insert_eq. now apply lookup_lt_Some in Hi.
    + rewrite Hi in Hj. now injection Hj as <-.
  - exists s. split; [| reflexivity]. now rewrite list_lookup_insert_ne.
Qed.

Lemma consistent_set_rpcUrls lb t l' :
  consistent lb -> keeps_urls (get (rpcUrls lb) t) l' ->
  consistent (set_rpcUrls lb t l').
Proof.
  intros Hc Hk t' a Ha. simpl in Ha. destruct (Hc t' a Ha) as (s & Hs & Hu).
  simpl. destruct (decide (t = t')) as [<- | Hne].
  - rewrite get_set_same. apply at_index_Some in Hs as [Hi Hs].
    destruct (Hk _ _ Hs) as (s' & Hs' & E). exists s'.
    rewrite at_index_nonneg by assumption. split; [assumption | congruence].
  - rewrite get_set_other by assumption. eauto.
Qed.

Lemma consistent_set_activeUrl lb t i s :
  consistent lb -> at_index (get (rpcUrls lb) t) i = Some s ->
  consistent (set_activeUrl lb t (mkUrlIndex (url (node s)) i)).
Proof.
  intros Hc Hs t' a Ha. simpl in *. destruct (decide (t = t')) as [<- | Hne].
  - rewrite get_set_same in Ha. injection Ha as <-. simpl. eauto.
  - rewrite get_set_other in Ha by assumption. now apply Hc.
Qed.

Lemma consistent_select lb t allowed :
  consistent lb ->
  index (getFastestServer (get (rpcUrls lb) t) allowed) <> -1 ->
  consistent
    (set_activeUrl lb t
       (mkUrlIndex (url (server_node (fastestServer (getFastestServer (get (rpcUrls lb) t) allowed))))
          (index (getFastestServer (get (rpcUrls lb) t) allowed)))).
Proof.
  intros Hc Hne. destruct (getFastestServer_found _ _ Hne) as (s & Hs & _ & E).
  rewrite E. simpl. now apply consistent_set_activeUrl.
Qed.

Lemma initRemoteHosts_consistent URL_hostname p random lb :
  consistent lb -> consistent (snd (initRemoteHosts URL_hostname p random lb)).
Proof.
  intros Hc. unfold initRemoteHosts.
  destruct (length _ =? 0)%nat; [assumption |].
  match goal with |- context [set_rpcUrls lb ?t ?l] =>
    assert (Hc1 : consistent (set_rpcUrls lb t l))
      by (apply consistent_set_rpcUrls; [assumption | apply keeps_urls_app])
  end.
  match goal with |- context [at_index ?l ?i] => destruct (at_index l i) as [s|] eqn:Hs end.
  - simpl. now apply consistent_set_activeUrl.
  - assumption.
Qed.

Lemma probe_node toNumber config server o :
  node (probe toNumber config server o) = node server.
Proof.
  unfold probe. destruct o as [|responseTime ok [response|]]; try reflexivity.
  destruct (ok && truthy (result response)); [| reflexivity].
  now destruct (Utils.parseStatusPayload _ _ _).
Qed.

Lemma keeps_urls_probes toNumber config probes l :
  keeps_urls l (imap (fun i server => probe toNumber config server (probes i)) l).
Proof.
  intros i s H. exists (probe toNumber config s (probes i)). split.
  - now rewrite list_lookup_imap, H.
  - apply probe_node.
Qed.

Lemma checkStatus_consistent toNumber config nodeType probes lb :
  consistent lb -> consistent (snd (checkStatus toNumber config nodeType probes lb)).
Proof.
  intros Hc. unfold checkStatus.
  set (servers := imap _ _).
  assert (Hc1 : consistent (set_rpcUrls lb nodeType servers))
    by (apply consistent_set_rpcUrls; [assumption | apply keeps_urls_probes]).
  assert (Hsel : consistent (snd
    (if negb (index (getFastestServer servers (allowedBlocksBehind config)) =? -1)
     then (Ok tt, set_activeUrl (set_rpcUrls lb nodeType servers) nodeType
             (mkUrlIndex (url (server_node (fastestServer (getFastestServer servers (allowedBlocksBehind config)))))
                (index (getFastestServer servers (allowedBlocksBehind config)))))
     else (Ok tt, set_rpcUrls lb nodeType servers)))).
  { destruct (Z.eqb_spec (index (getFastestServer servers (allowedBlocksBehind config))) (-1));
      simpl; [assumption |].
    pose proof (consistent_select (set_rpcUrls lb nodeType servers) nodeType
                  (allowedBlocksBehind config) Hc1) as H.
    simpl in H. rewrite get_set_same in H. now apply H. }
  destruct (get (rpcUrls lb) nodeType) as [|s l];
    destruct (Utils.getStatusPayload (network config)); assumption.
Qed.

Lemma handleFailedRpcCall_consistent config e nodeType lb :
  consistent lb -> consistent (snd (handleFailedRpcCall config e nodeType lb)).
Proof.
  intros Hc.
  destruct (handleFailedRpcCall_cases config e nodeType lb)
    as [Ha | a Ha Hs | a server servers r Ha Hs Hservers Hr]; try assumption.
  assert (Hc1 : consistent (set_rpcUrls lb nodeType servers)).
  { apply consistent_set_rpcUrls; [assumption |]. subst servers.
    apply keeps_urls_mark. now apply at_index_Some in Hs. }
  destruct (Z.eqb_spec (index r) (-1)); simpl; [assumption |]. subst r.
  pose proof (consistent_select (set_rpcUrls lb nodeType servers) nodeType
                (allowedBlocksBehind config) Hc1) as H.
  simpl in H. rewrite get_set_same in H. now apply H.
Qed.

(** C9. Every operation that writes [activeUrl[t]] preserves the agreement
    of registry and active selection: the random initial selection of
    [initRemoteHosts], the re-selection that ends [checkStatus], and the
    failover of [handleFailedRpcCall].  In a consistent instance a set
    [activeUrl[t]] holds a valid index of [rpcUrls[t]] whose endpoint has
    the active url. *)
Theorem active_selection_stays_consistent (lb : LoadBalancer) :
  consistent lb ->
  (forall URL_hostname p random,
      consistent (snd (initRemoteHosts URL_hostname p random lb)))
  /\ (forall BigNumber_toNumber config nodeType probes,
         consistent (snd (checkStatus BigNumber_toNumber config nodeType probes lb)))
  /\ (forall config e nodeType,
         consistent (snd (handleFailedRpcCall config e nodeType lb))).
Proof.
  intros Hc. split; [| split]; intros.
  - now apply initRemoteHosts_consistent.
  - now apply checkStatus_consistent.
  - now apply handleFailedRpcCall_consistent.
Qed.

Lemma active_selection_stays_consistent_witness :
  consistent one_of_each
  /\ consistent (snd (handleFailedRpcCall example_config "timeout"
                        NORMAL one_of_each)).
Proof.
  assert (H : consistent one_of_each)
    by (intros t a; destruct t; simpl; intros [= <-]; eexists; split; reflexivity).
  split; [exact H |].
  apply (active_selection_stays_consistent one_of_each H).
Defined.

(** ** URL resolution *)

Lemma truthy_url_Some lb t u :
  has_active_url lb t u -> truthy_url (fst (getActiveUrl lb t)) = Some u.
Proof.
  intros (a & Ha & <- & Hne). unfold getActiveUrl, activeUrl_url. simpl.
  rewrite Ha. simpl. apply String.eqb_neq in Hne. now rewrite Hne.
Qed.

Lemma truthy_url_None lb t :
  lacks_active_url lb t -> truthy_url (fst (getActiveUrl lb t)) = None.
Proof.
  intros H. unfold getActiveUrl, activeUrl_url. simpl.
  destruct (get (activeUrl lb) t) as [a|] eqn:Ha; [| reflexivity].
  rewrite (H a Ha). reflexivity.
Qed.

Lemma rawRpcCall_unfold fuel config connector rpcCall archive lb :
  rawRpcCall fuel config connector rpcCall archive lb
  = match (if flag archive
           then getActiveArchiveUrlWithFallback lb
           else getActiveNormalUrlWithFallback lb) with
    | Throw e => mkRun (Raised e) lb []
    | Ok (url, type) =>
        sent_before (url, type)
          match connector 0%nat url rpcCall with
          | inr response => mkRun (Returned response) lb []
          | inl e =>
              match handleFailedRpcCall config e type lb with
              | (Throw e', lb') => mkRun (Raised e') lb' []
              | (Ok _, lb') =>
                  match fuel with
                  | O => mkRun Pending lb' []
                  | S fuel' => rawRpcCall fuel' config (later connector) rpcCall None lb'
                  end
              end
          end
    end.
Proof. destruct fuel; reflexivity. Qed.

Lemma rawRpcCall_first_request fuel config connector rpcCall archive lb u t :
  (if flag archive
   then getActiveArchiveUrlWithFallback lb
   else getActiveNormalUrlWithFallback lb) = Ok (u, t) ->
  head (sent (rawRpcCall fuel config connector rpcCall archive lb)) = Some (u, t).
Proof. intros H. rewrite rawRpcCall_unfold, H. reflexivity. Qed.

(** C7. [rawRpcCall] with [archive] true sends to the ARCHIVE active url
    when one is set and otherwise to the NORMAL active url; with [archive]
    false or left out it sends to the NORMAL active url when one is set and
    otherwise to the ARCHIVE one; when neither kind has an active url it
    fails with [NoActiveNode] and sends nothing. *)
Theorem rawRpcCall_resolves_with_fallback (fuel : nat) (config : Config)
    (connector : Connector) (rpcCall : JsonRpcCall) (archive : option bool)
    (lb : LoadBalancer) :
  let run := rawRpcCall fuel config connector rpcCall archive lb in
  (forall u, archive = Some true -> has_active_url lb ARCHIVE u ->
             head (sent run) = Some (u, ARCHIVE))
  /\ (forall u, archive = Some true -> lacks_active_url lb ARCHIVE ->
                has_active_url lb NORMAL u ->
                head (sent run) = Some (u, NORMAL))
  /\ (forall u, archive = None \/ archive = Some false -> has_active_url lb NORMAL u ->
                head (sent run) = Some (u, NORMAL))
  /\ (forall u, archive = None \/ archive = Some false -> lacks_active_url lb NORMAL ->
                has_active_url lb ARCHIVE u ->
                head (sent run) = Some (u, ARCHIVE))
  /\ (lacks_active_url lb NORMAL -> lacks_active_url lb ARCHIVE ->
      outcome run = Raised NoActiveNode /\ sent run = [] /\ final run = lb).
Proof.
  intros run. subst run. repeat split.
  - intros u -> Ha. apply rawRpcCall_first_request. simpl.
    unfold getActiveArchiveUrlWithFallback. now rewrite (truthy_url_Some _ _ _ Ha).
  - intros u -> Hna Hn. apply rawRpcCall_first_request. simpl.
    unfold getActiveArchiveUrlWithFallback.
    now rewrite (truthy_url_None _ _ Hna), (truthy_url_Some _ _ _ Hn).
  - intros u Harch Hn. apply rawRpcCall_first_request.
    assert (flag archive = false) as -> by (destruct Harch as [-> | ->]; reflexivity).
    unfold getActiveNormalUrlWithFallback. now rewrite (truthy_url_Some _ _ _ Hn).
  - intros u Harch Hnn Ha. apply rawRpcCall_first_request.
    assert (flag archive = false) as -> by (destruct Harch as [-> | ->]; reflexivity).
    unfold getActiveNormalUrlWithFallback.
    now rewrite (truthy_url_None _ _ Hnn), (truthy_url_Some _ _ _ Ha).
  - rewrite rawRpcCall_unfold.
    unfold getActiveArchiveUrlWithFallback, getActiveNormalUrlWithFallback.
    rewrite (truthy_url_None _ _ H), (truthy_url_None _ _ H0). now destruct (flag archive).
  - rewrite rawRpcCall_unfold.
    unfold getActiveArchiveUrlWithFallback, getActiveNormalUrlWithFallback.
    rewrite (truthy_url_None _ _ H), (truthy_url_None _ _ H0). now destruct (flag archive).
  - rewrite rawRpcCall_unfold.
    unfold getActiveArchiveUrlWithFallback, getActiveNormalUrlWithFallback.
    rewrite (truthy_url_None _ _ H), (truthy_url_None _ _ H0). now destruct (flag archive).
Qed.

Lemma rawRpcCall_resolves_with_fallback_witness :
  has_active_url one_of_each ARCHIVE "X"
  /\ head (sent (rawRpcCall 3 example_config (failing_on []) example_call (Some true) one_of_each))
     = Some ("X", ARCHIVE)
  /\ lacks_active_url archive_only NORMAL
  /\ has_active_url archive_only ARCHIVE "X"
  /\ head (sent (rawRpcCall 3 example_config (failing_on []) example_call None archive_only))
     = Some ("X", ARCHIVE)
  /\ lacks_active_url newLoadBalancer NORMAL
  /\ lacks_active_url newLoadBalancer ARCHIVE
  /\ outcome (rawRpcCall 3 example_config (failing_on []) example_call None newLoadBalancer)
     = Raised NoActiveNode.
Proof.
  assert (H1 : has_active_url one_of_each ARCHIVE "X")
    by (eexists; simpl; repeat split; [reflexivity .. | discriminate]).
  assert (H2 : lacks_active_url archive_only NORMAL) by (intros a; simpl; discriminate).
  assert (H3 : has_active_url archive_only ARCHIVE "X")
    by (eexists; simpl; repeat split; [reflexivity .. | discriminate]).
  assert (H4 : forall t, lacks_active_url newLoadBalancer t)
    by (intros t a; destruct t; simpl; discriminate).
  destruct (rawRpcCall_resolves_with_fallback 3 example_config (failing_on []) example_call
              (Some true) one_of_each) as (A & _).
  destruct (rawRpcCall_resolves_with_fallback 3 example_config (failing_on []) example_call
              None archive_only) as (_ & _ & _ & B & _).
  destruct (rawRpcCall_resolves_with_fallback 3 example_config (failing_on []) example_call
              None newLoadBalancer) as (_ & _ & _ & _ & C).
  split; [exact H1 |].
  split; [apply A; [reflexivity | exact H1] |].
  split; [exact H2 |]. split; [exact H3 |].
  split; [apply B; [now left | exact H2 | exact H3] |].
  split; [apply H4 |]. split; [apply H4 |].
  apply C; apply H4.
Defined.

(** ** Status payload codec *)

Lemma parseStatusPayload_evm BigNumber_toNumber id response :
  truthy (result response) = true ->
  Utils.parseStatusPayload BigNumber_toNumber (mkNetwork id EvmFamily) response
  = Ok (BigNumber_toNumber (result response)).
Proof. intros H. unfold Utils.parseStatusPayload, or_else. simpl. now rewrite H. Qed.

(** A probe of a Tron network always ends with the endpoint failed. *)
Lemma probe_tron_fails BigNumber_toNumber config server o :
  isTronNetwork (network config) = true ->
  failed (probe BigNumber_toNumber config server o) = true.
Proof.
  intros Htron. unfold probe, Utils.parseStatusPayload, isUtxoBasedNetwork, isEvmBasedNetwork.
  unfold isTronNetwork in Htron.
  destruct o as [|responseTime ok [response|]]; try reflexivity.
  destruct (ok && truthy (result response)); [| reflexivity].
  destruct (family (network config)); try discriminate. reflexivity.
Qed.

(** C8. For a Tron network the codec produces the [eth_blockNumber] probe
    request, but decoding a probe response throws the unsupported-network
    error instead of reading the height from [result]. *)
Theorem tron_status_payload (BigNumber_toNumber : value -> number) (id : string)
    (response : JsonRpcResponse) :
  let tron := mkNetwork id TronFamily in
  isTronNetwork tron = true
  /\ Utils.getStatusPayload tron = Ok (mkJsonRpcCall "2.0" "eth_blockNumber" [] 1)
  /\ Utils.parseStatusPayload BigNumber_toNumber tron response
     = Throw (UnsupportedNetwork tron).
Proof. intros tron. split; [| split]; reflexivity. Qed.

(** ** Bootstrap *)

Lemma floor_times_range random n :
  (0 < n)%nat -> 0 <= floor_times random n < Z.of_nat n.
Proof.
  intros Hn. unfold floor_times. split; [lia |].
  apply inj_lt. apply Nat.Div0.div_lt_upper_bound. nia.
Qed.

(** [initRemoteHosts] never throws: the random index is in range.  It
    appends the filtered nodes to the list of its kind and leaves the other
    list alone. *)
Lemma initRemoteHosts_returns URL_hostname p random lb :
  exists lb',
    initRemoteHosts URL_hostname p random lb = (Ok tt, lb')
    /\ get (rpcUrls lb') (nodeType p)
       = get (rpcUrls lb) (nodeType p)
           ++ List.map (fun s => fresh_status (rpcNode_url s))
                (List.filter (initRemoteHosts_filter URL_hostname p) (nodes p))
    /\ (forall t, t <> nodeType p -> get (rpcUrls lb') t = get (rpcUrls lb) t).
Proof.
  unfold initRemoteHosts.
  destruct (List.filter _ _) as [|n filtered] eqn:Hfilter.
  - exists lb. simpl. rewrite app_nil_r. auto.
  - cbn [length Nat.eqb].
    set (added := List.map _ (n :: filtered)).
    set (lb1 := set_rpcUrls lb (nodeType p) (get (rpcUrls lb) (nodeType p) ++ added)).
    set (len := length (get (rpcUrls lb1) (nodeType p))).
    assert (Hlen : (0 < len)%nat).
    { subst len lb1 added. simpl. rewrite get_set_same, length_app. simpl. lia. }
    destruct (floor_times_range random len Hlen) as [H0 Hlt].
    rewrite at_index_nonneg by assumption.
    destruct (lookup_lt_is_Some_2 (get (rpcUrls lb1) (nodeType p)) (Z.to_nat (floor_times random len)))
      as [s Hs]; [fold len; lia |].
    rewrite Hs. eexists. split; [reflexivity |]. simpl. split.
    + now rewrite get_set_same.
    + intros t Ht. now rewrite get_set_other by congruence.
Qed.

Lemma initCustomNodes_loop_urls nodes lb t :
  registered_urls (initCustomNodes_loop nodes lb) t
  = registered_urls lb t ++ urls_of_type t nodes.
Proof.
  revert lb. induction nodes as [|n nodes IH]; intros lb.
  - unfold urls_of_type. simpl. now rewrite app_nil_r.
  - simpl. rewrite IH. unfold urls_of_type, registered_urls, push. simpl.
    destruct (rpcNode_type n), t; simpl;
      rewrite ?get_set_same, ?List.map_app, <- ?app_assoc; reflexivity.
Qed.

Lemma static_filter_urls URL_hostname t nodes :
  List.map (fun s => url (node s))
    (List.map (fun s => fresh_status (rpcNode_url s))
       (List.filter (initRemoteHosts_filter URL_hostname (mkInitRemoteHostsParams t nodes (Some true)))
          nodes))
  = urls_of_type t nodes.
Proof.
  unfold urls_of_type. rewrite List.map_map. simpl. reflexivity.
Qed.

Lemma initCustomNodes_urls URL_hostname (nodes : list RpcNode) random1 random2 t :
  fst (initCustomNodes URL_hostname nodes random1 random2 newLoadBalancer) = Ok tt
  /\ registered_urls
       (snd (initCustomNodes URL_hostname nodes random1 random2 newLoadBalancer)) t
     = urls_of_type t nodes ++ urls_of_type t nodes.
Proof.
  destruct nodes as [|n nodes]; [now destruct t |].
  set (supplied := n :: nodes).
  unfold initCustomNodes, bind.
  destruct (initRemoteHosts_returns URL_hostname
              (mkInitRemoteHostsParams NORMAL supplied (Some true)) random1 newLoadBalancer)
    as (lb1 & -> & Hn1 & Ho1).
  destruct (initRemoteHosts_returns URL_hostname
              (mkInitRemoteHostsParams ARCHIVE supplied (Some true)) random2 lb1)
    as (lb2 & -> & Ha2 & Ho2).
  cbn [length Nat.eqb negb fst snd supplied]. split; [reflexivity |].
  fold supplied. rewrite initCustomNodes_loop_urls. f_equal.
  unfold registered_urls. cbn [nodeType] in *.
  destruct t.
  - rewrite (Ho2 NORMAL) by discriminate. rewrite Hn1. simpl get at 1.
    cbn [app]. apply static_filter_urls.
  - rewrite Ha2. rewrite (Ho1 ARCHIVE) by discriminate. simpl get at 1.
    cbn [app]. apply static_filter_urls.
Qed.

(** C4. In static mode [initCustomNodes] registers every supplied node of a
    kind twice: once through [initRemoteHosts] and once more in its own
    loop.  A single NORMAL node ends up as two NORMAL endpoints. *)
Theorem initCustomNodes_registers_twice :
  (forall URL_hostname (nodes : list RpcNode) (random1 random2 : Random) (t : RpcNodeType),
      fst (initCustomNodes URL_hostname nodes random1 random2 newLoadBalancer) = Ok tt
      /\ registered_urls
           (snd (initCustomNodes URL_hostname nodes random1 random2 newLoadBalancer)) t
         = urls_of_type t nodes ++ urls_of_type t nodes)
  /\ (forall URL_hostname random1 random2,
         registered_urls
           (snd (initCustomNodes URL_hostname [mkRpcNode "https://node.example" NORMAL]
                   random1 random2 newLoadBalancer)) NORMAL
         = ["https://node.example"; "https://node.example"]).
Proof.
  split; [intros; apply initCustomNodes_urls |].
  intros. apply (initCustomNodes_urls URL_hostname [mkRpcNode "https://node.example" NORMAL]).
Qed.

(** ** Retries of [rawRpcCall] *)

(** A failed request whose failover succeeds is followed by a fresh
    [rawRpcCall(rpcCall)], without the [archive] argument. *)
Lemma rawRpcCall_retry fuel config connector rpcCall archive lb u t e lb' :
  (if flag archive
   then getActiveArchiveUrlWithFallback lb
   else getActiveNormalUrlWithFallback lb) = Ok (u, t) ->
  connector 0%nat u rpcCall = inl e ->
  handleFailedRpcCall config e t lb = (Ok tt, lb') ->
  rawRpcCall (S fuel) config connector rpcCall archive lb
  = sent_before (u, t) (rawRpcCall fuel config (later connector) rpcCall None lb').
Proof. intros Hr Hc Hh. rewrite rawRpcCall_unfold, Hr, Hc, Hh. reflexivity. Qed.

(** C3. A call made with [archive] true whose first request fails is
    retried without the flag: with NORMAL [N] and ARCHIVE [X; Y], [X]
    down, the retry goes to the NORMAL endpoint [N] although the ARCHIVE
    endpoint [Y] has become the active one of its kind. *)
Theorem rawRpcCall_retry_forgets_archive :
  let run :=
    rawRpcCall 5 example_config (failing_on ["X"]) example_call (Some true) two_archives in
  sent run = [("X", ARCHIVE); ("N", NORMAL)]
  /\ outcome run = Returned (mkJsonRpcResponse (Str "N"))
  /\ getActiveArchiveUrlWithFallback (final run) = Ok ("Y", ARCHIVE).
Proof. intros run. split; [| split]; reflexivity. Qed.

Lemma handleFailedRpcCall_finite_heights config e t lb :
  finite_heights lb -> finite_heights (snd (handleFailedRpcCall config e t lb)).
Proof.
  intros Hfin.
  assert (Hmark : forall a server,
    at_index (get (rpcUrls lb) t) (active_index a) = Some server ->
    finite_heights (set_rpcUrls lb t
      (<[Z.to_nat (active_index a) := set_failed server true]> (get (rpcUrls lb) t)))).
  { intros a server Hs t'. simpl. destruct (decide (t = t')) as [<- | Hne].
    - rewrite get_set_same. apply Forall_insert; [apply Hfin |].
      apply at_index_Some in Hs as [_ Hs]. simpl.
      pose proof (Hfin t) as H. rewrite Forall_lookup in H. exact (H _ _ Hs).
    - rewrite get_set_other by assumption. apply Hfin. }
  destruct (handleFailedRpcCall_cases config e t lb)
    as [Ha | a Ha Hs | a server servers r Ha Hs -> Hr]; try assumption.
  destruct (index r =? -1); simpl; now apply Hmark.
Qed.

(** ** Pool exhaustion *)

Lemma resolve_throws archive lb err :
  (if flag archive
   then getActiveArchiveUrlWithFallback lb
   else getActiveNormalUrlWithFallback lb) = Throw err ->
  err = NoActiveNode.
Proof.
  unfold getActiveArchiveUrlWithFallback, getActiveNormalUrlWithFallback.
  destruct (flag archive);
    destruct (truthy_url (fst (getActiveUrl lb ARCHIVE)));
    destruct (truthy_url (fst (getActiveUrl lb NORMAL))); congruence.
Qed.

Lemma rawRpcCall_exhaustion fuel config :
  is_finite (allowedBlocksBehind config) = true ->
  forall connector rpcCall archive lb e,
    finite_heights lb ->
    outcome (rawRpcCall fuel config connector rpcCall archive lb)
    = Raised (Rethrown AllNodesUnavailable e) ->
    exists u t,
      last (sent (rawRpcCall fuel config connector rpcCall archive lb)) = Some (u, t)
      /\ forall s,
           s ∈ get (rpcUrls (final (rawRpcCall fuel config connector rpcCall archive lb))) t ->
           failed s = true.
Proof.
  intros Hallowed. induction fuel as [|fuel IH]; intros connector rpcCall archive lb e Hfin;
    rewrite rawRpcCall_unfold;
    (destruct (if flag archive then _ else _) as [[u t]|err] eqn:Hresolve;
      [| apply resolve_throws in Hresolve as ->; simpl; discriminate]);
    (destruct (connector 0%nat u rpcCall) as [e0|response]; [| simpl; discriminate]);
    pose proof (handleFailedRpcCall_finite_heights config e0 t lb Hfin) as Hfin';
    (destruct (handleFailedRpcCall_cases config e0 t lb)
      as [Ha | a Ha Hs | a server servers r Ha Hs Hservers Hr];
      [simpl; discriminate | simpl; discriminate |]);
    (destruct (Z.eqb_spec (index r) (-1)) as [Hnone | Hsome]).
  - intros _. exists u, t. split; [reflexivity |]. simpl. rewrite get_set_same.
    subst r. apply (getFastestServer_none _ _ Hallowed); [| assumption].
    specialize (Hfin' t). simpl in Hfin'. now rewrite get_set_same in Hfin'.
  - simpl. discriminate.
  - intros _. exists u, t. split; [reflexivity |]. simpl. rewrite get_set_same.
    subst r. apply (getFastestServer_none _ _ Hallowed); [| assumption].
    specialize (Hfin' t). simpl in Hfin'. now rewrite get_set_same in Hfin'.
  - simpl. simpl in Hfin'. intros Hraised.
    destruct (IH _ _ _ _ _ Hfin' Hraised) as (u' & t' & Hlast & Hall).
    exists u', t'. split; [| assumption].
    rewrite last_cons, Hlast. reflexivity.
Qed.

Lemma rawRpcCall_fails_over fuel config connector rpcCall archive lb u t e a j s :
  is_finite (allowedBlocksBehind config) = true ->
  finite_heights lb ->
  consistent lb ->
  (if flag archive
   then getActiveArchiveUrlWithFallback lb
   else getActiveNormalUrlWithFallback lb) = Ok (u, t) ->
  connector 0%nat u rpcCall = inl e ->
  get (activeUrl lb) t = Some a ->
  get (rpcUrls lb) t !! j = Some s ->
  Z.of_nat j <> active_index a ->
  failed s = false ->
  exists lb',
    handleFailedRpcCall config e t lb = (Ok tt, lb')
    /\ rawRpcCall (S fuel) config connector rpcCall archive lb
       = sent_before (u, t) (rawRpcCall fuel config (later connector) rpcCall None lb').
Proof.
  intros Hallowed Hfin Hc Hresolve Hdown Ha Hj Hne Hf.
  assert (exists lb', handleFailedRpcCall config e t lb = (Ok tt, lb')) as [lb' Hh].
  { destruct (handleFailedRpcCall_cases config e t lb)
      as [Ha' | a' Ha' Hs | a' server servers r Ha' Hs Hservers Hr].
    - congruence.
    - destruct (Hc t a' Ha') as (s' & Hs' & _). congruence.
    - assert (a' = a) as -> by congruence.
      apply at_index_Some in Hs as [Hi Hs].
      assert (Hin : s ∈ servers).
      { apply list_elem_of_lookup. exists j. subst servers.
        rewrite list_lookup_insert_ne by lia. assumption. }
      assert (Hsfin : is_finite (lastBlock s) = true).
      { pose proof (Hfin t) as H. rewrite Forall_lookup in H. exact (H _ _ Hj). }
      pose proof (getFastestServer_finds servers _ s Hallowed Hin Hf Hsfin) as Hidx.
      rewrite <- Hr in Hidx. apply Z.eqb_neq in Hidx. rewrite Hidx. eauto. }
  exists lb'. split; [assumption |]. now apply (rawRpcCall_retry _ _ _ _ _ _ _ _ e).
Qed.

(** A failure of the active endpoint of a kind whose other endpoints are
    all failed is rethrown; only the mark on that endpoint is written. *)
Lemma handleFailedRpcCall_exhausted config e t lb a :
  consistent lb ->
  get (activeUrl lb) t = Some a ->
  (forall j s, get (rpcUrls lb) t !! j = Some s ->
               Z.of_nat j <> active_index a -> failed s = true) ->
  exists server,
    at_index (get (rpcUrls lb) t) (active_index a) = Some server
    /\ handleFailedRpcCall config e t lb
       = (Throw (Rethrown AllNodesUnavailable e),
          set_rpcUrls lb t
            (<[Z.to_nat (active_index a) := set_failed server true]> (get (rpcUrls lb) t))).
Proof.
  intros Hc Ha Hothers.
  destruct (handleFailedRpcCall_cases config e t lb)
    as [Ha' | a' Ha' Hs | a' server servers r Ha' Hs Hservers Hr].
  - congruence.
  - destruct (Hc t a' Ha') as (s' & Hs' & _). congruence.
  - assert (a' = a) as -> by congruence.
    exists server. split; [assumption |].
    apply at_index_Some in Hs as [Hi Hs].
    assert (Hall : forall s, s ∈ servers -> failed s = true).
    { intros s Hin. apply list_elem_of_lookup in Hin as [j Hj]. subst servers.
      destruct (decide (j = Z.to_nat (active_index a))) as [-> | Hne].
      - rewrite list_lookup_insert_eq in Hj by (now apply lookup_lt_Some in Hs).
        now injection Hj as <-.
      - rewrite list_lookup_insert_ne in Hj by congruence.
        apply (Hothers j s Hj). lia. }
    rewrite Hr, (getFastestServer_all_failed _ _ Hall). simpl. now subst servers.
Qed.

(** What a completed handling moves: the selection of its own kind, to an
    endpoint of that kind that is not failed; the other kind is left as
    it was. *)
Lemma handleFailedRpcCall_within_kind config e t lb lb' :
  handleFailedRpcCall config e t lb = (Ok tt, lb') ->
  (forall t', t' <> t ->
     get (rpcUrls lb') t' = get (rpcUrls lb) t'
     /\ get (activeUrl lb') t' = get (activeUrl lb) t')
  /\ exists new s_new,
       get (activeUrl lb') t = Some new
       /\ at_index (get (rpcUrls lb') t) (active_index new) = Some s_new
       /\ failed s_new = false
       /\ url (node s_new) = active_url new.
Proof.
  intros Hok.
  destruct (handleFailedRpcCall_Ok _ _ _ _ _ Hok) as (a & server & Ha & Hs & Hne & ->).
  split.
  - intros t' Hother. simpl. rewrite !get_set_other by congruence. auto.
  - destruct (getFastestServer_found _ _ Hne) as (s_new & Hnew & Hf & E).
    eexists. exists s_new. simpl. rewrite !get_set_same.
    split; [reflexivity |]. simpl. split; [exact Hnew |]. split; [exact Hf |].
    now rewrite E.
Qed.

(** C2, as amended.  With finite block heights and tolerance, a
    [rawRpcCall] that no probe pass interrupts
    raises its pool-exhaustion error only when every endpoint of the kind
    its last request was resolved to is marked failed.  It does raise it
    when the request to the active endpoint of a kind fails and the other
    endpoints of that kind are all failed, whatever the endpoints of the
    other kind are: after that one request, with the active selections and
    the other kind's endpoints left as they were.  As long as an endpoint of
    the kind other than the active one is not failed, a failing call moves
    the selection of that kind to an endpoint of that kind that is not
    failed, leaves the other kind as it was, and retries. *)
Theorem rawRpcCall_exhausts_one_kind (fuel : nat) (config : Config)
    (connector : Connector) (rpcCall : JsonRpcCall) (archive : option bool)
    (lb : LoadBalancer) :
  is_finite (allowedBlocksBehind config) = true ->
  finite_heights lb ->
  (forall e,
      outcome (rawRpcCall fuel config connector rpcCall archive lb)
      = Raised (Rethrown AllNodesUnavailable e) ->
      exists u t,
        last (sent (rawRpcCall fuel config connector rpcCall archive lb)) = Some (u, t)
        /\ forall s,
             s ∈ get (rpcUrls (final (rawRpcCall fuel config connector rpcCall archive lb))) t ->
             failed s = true)
  /\ (forall u t e a,
         consistent lb ->
         (if flag archive
          then getActiveArchiveUrlWithFallback lb
          else getActiveNormalUrlWithFallback lb) = Ok (u, t) ->
         connector 0%nat u rpcCall = inl e ->
         get (activeUrl lb) t = Some a ->
         (forall j s, get (rpcUrls lb) t !! j = Some s ->
                      Z.of_nat j <> active_index a -> failed s = true) ->
         outcome (rawRpcCall fuel config connector rpcCall archive lb)
         = Raised (Rethrown AllNodesUnavailable e)
         /\ sent (rawRpcCall fuel config connector rpcCall archive lb) = [(u, t)]
         /\ activeUrl (final (rawRpcCall fuel config connector rpcCall archive lb))
            = activeUrl lb
         /\ forall t', t' <> t ->
              get (rpcUrls (final (rawRpcCall fuel config connector rpcCall archive lb))) t'
              = get (rpcUrls lb) t')
  /\ (forall u t e a j s,
         consistent lb ->
         (if flag archive
          then getActiveArchiveUrlWithFallback lb
          else getActiveNormalUrlWithFallback lb) = Ok (u, t) ->
         connector 0%nat u rpcCall = inl e ->
         get (activeUrl lb) t = Some a ->
         get (rpcUrls lb) t !! j = Some s ->
         Z.of_nat j <> active_index a ->
         failed s = false ->
         exists lb',
           handleFailedRpcCall config e t lb = (Ok tt, lb')
           /\ rawRpcCall (S fuel) config connector rpcCall archive lb
              = sent_before (u, t)
                  (rawRpcCall fuel config (later connector) rpcCall None lb')
           /\ (forall t', t' <> t ->
                 get (rpcUrls lb') t' = get (rpcUrls lb) t'
                 /\ get (activeUrl lb') t' = get (activeUrl lb) t')
           /\ exists new s_new,
                get (activeUrl lb') t = Some new
                /\ at_index (get (rpcUrls lb') t) (active_index new) = Some s_new
                /\ failed s_new = false
                /\ url (node s_new) = active_url new).
Proof.
  intros Hallowed Hfin. split; [| split].
  - intros e. now apply rawRpcCall_exhaustion.
  - intros u t e a Hc Hresolve Hdown Ha Hothers.
    destruct (handleFailedRpcCall_exhausted config e t lb a Hc Ha Hothers) as (server & _ & Hh).
    rewrite rawRpcCall_unfold, Hresolve, Hdown, Hh. simpl.
    repeat split. intros t' Hother. now rewrite get_set_other by congruence.
  - intros u t e a j s Hc Hresolve Hdown Ha Hj Hne Hf.
    destruct (rawRpcCall_fails_over fuel config connector rpcCall archive lb u t e a j s
                Hallowed Hfin Hc Hresolve Hdown Ha Hj Hne Hf) as (lb' & Hh & Hretry).
    exists lb'. split; [exact Hh |]. split; [exact Hretry |].
    now apply (handleFailedRpcCall_within_kind config e).
Qed.

(** The claim as first stated fails: the NORMAL endpoint is down, the
    ARCHIVE endpoint is up and not failed, and the call raises the
    pool-exhaustion error after a single request. *)
Lemma rawRpcCall_raises_with_archive_up :
  let run := rawRpcCall 5 example_config (failing_on ["N"]) example_call None one_of_each in
  outcome run = Raised (Rethrown AllNodesUnavailable "connection refused")
  /\ sent run = [("N", NORMAL)]
  /\ get (rpcUrls (final run)) ARCHIVE = [endpoint "X" 0 0 false]
  /\ ~ (forall t s, s ∈ get (rpcUrls (final run)) t -> failed s = true).
Proof.
  intros run. split; [reflexivity |]. split; [reflexivity |]. split; [reflexivity |].
  intros H. specialize (H ARCHIVE (endpoint "X" 0 0 false)).
  assert (E : failed (endpoint "X" 0 0 false) = true) by (apply H; simpl; constructor).
  discriminate E.
Qed.

Lemma rawRpcCall_exhausts_one_kind_witness :
  (is_finite (allowedBlocksBehind example_config) = true
   /\ finite_heights two_archives
   /\ consistent two_archives
   /\ exists lb',
        handleFailedRpcCall example_config "connection refused" ARCHIVE two_archives
        = (Ok tt, lb')
        /\ rawRpcCall 3 example_config (failing_on ["X"]) example_call (Some true) two_archives
           = sent_before ("X", ARCHIVE)
               (rawRpcCall 2 example_config (later (failing_on ["X"])) example_call None lb')
        /\ (forall t', t' <> ARCHIVE ->
              get (rpcUrls lb') t' = get (rpcUrls two_archives) t'
              /\ get (activeUrl lb') t' = get (activeUrl two_archives) t')
        /\ exists new s_new,
             get (activeUrl lb') ARCHIVE = Some new
             /\ at_index (get (rpcUrls lb') ARCHIVE) (active_index new) = Some s_new
             /\ failed s_new = false
             /\ url (node s_new) = active_url new)
  /\ (finite_heights one_of_each
      /\ outcome (rawRpcCall 5 example_config (failing_on ["N"]) example_call None one_of_each)
         = Raised (Rethrown AllNodesUnavailable "connection refused")
      /\ exists u t,
           last (sent (rawRpcCall 5 example_config (failing_on ["N"]) example_call None
                         one_of_each)) = Some (u, t)
           /\ forall s,
                s ∈ get (rpcUrls (final (rawRpcCall 5 example_config (failing_on ["N"])
                                           example_call None one_of_each))) t ->
                failed s = true)
  /\ (finite_heights last_normal_standing
      /\ consistent last_normal_standing
      /\ getActiveNormalUrlWithFallback last_normal_standing = Ok ("N", NORMAL)
      /\ failing_on ["N"] 0%nat "N" example_call = inl "connection refused"
      /\ get (rpcUrls last_normal_standing) NORMAL !! 1%nat = Some (endpoint "M" 0 0 true)
      /\ outcome (rawRpcCall 5 example_config (failing_on ["N"]) example_call None
                    last_normal_standing)
         = Raised (Rethrown AllNodesUnavailable "connection refused")
      /\ sent (rawRpcCall 5 example_config (failing_on ["N"]) example_call None
                 last_normal_standing) = [("N", NORMAL)]
      /\ activeUrl (final (rawRpcCall 5 example_config (failing_on ["N"]) example_call None
                             last_normal_standing))
         = activeUrl last_normal_standing
      /\ forall t', t' <> NORMAL ->
           get (rpcUrls (final (rawRpcCall 5 example_config (failing_on ["N"]) example_call
                                  None last_normal_standing))) t'
           = get (rpcUrls last_normal_standing) t').
Proof.
  assert (Hfin : finite_heights two_archives)
    by (intros t; destruct t; simpl; repeat constructor).
  assert (Hc : consistent two_archives)
    by (intros t a; destruct t; simpl; intros [= <-]; eexists; split; reflexivity).
  assert (Hfin1 : finite_heights one_of_each)
    by (intros t; destruct t; simpl; repeat constructor).
  assert (Hfin2 : finite_heights last_normal_standing)
    by (intros t; destruct t; simpl; repeat constructor).
  assert (Hc2 : consistent last_normal_standing)
    by (intros t a; destruct t; simpl; intros [= <-]; eexists; split; reflexivity).
  split; [| split].
  - split; [reflexivity |]. split; [exact Hfin |]. split; [exact Hc |].
    destruct (rawRpcCall_exhausts_one_kind 2 example_config (failing_on ["X"]) example_call
                (Some true) two_archives eq_refl Hfin) as (_ & _ & B).
    apply (B "X" ARCHIVE "connection refused" (mkUrlIndex "X" 0) 1%nat (endpoint "Y" 0 0 false));
      try reflexivity; [exact Hc | discriminate].
  - split; [exact Hfin1 |]. split; [reflexivity |].
    destruct (rawRpcCall_exhausts_one_kind 5 example_config (failing_on ["N"]) example_call
                None one_of_each eq_refl Hfin1) as (A & _ & _).
    exact (A "connection refused" eq_refl).
  - split; [exact Hfin2 |]. split; [exact Hc2 |]. split; [reflexivity |].
    split; [reflexivity |]. split; [reflexivity |].
    destruct (rawRpcCall_exhausts_one_kind 5 example_config (failing_on ["N"]) example_call
                None last_normal_standing eq_refl Hfin2) as (_ & A' & _).
    apply (A' "N" NORMAL "connection refused" (mkUrlIndex "N" 0));
      try reflexivity; [exact Hc2 |].
    intros [|[|j]] s; simpl; [intros _ H; now contradiction H | now intros [= <-] | discriminate].
Defined.

(** ** [endsWith] is the suffix test *)

Lemma substring_all s : String.substring 0 (String.length s) s = s.
Proof. induction s as [|c s IH]; simpl; [reflexivity | now rewrite IH]. Qed.

Lemma substring_skip p q :
  String.substring (String.length p) (String.length q) (p +:+ q) = q.
Proof. induction p as [|c p IH]; simpl; [apply substring_all | exact IH]. Qed.

Lemma length_append p q :
  String.length (p +:+ q) = (String.length p + String.length q)%nat.
Proof. induction p as [|c p IH]; simpl; [reflexivity | now rewrite IH]. Qed.

Lemma substring_split s k :
  (k <= String.length s)%nat ->
  s = String.substring 0 k s +:+ String.substring k (String.length s - k) s.
Proof.
  revert k. induction s as [|c s IH]; intros k Hk.
  - destruct k; reflexivity.
  - destruct k as [|k]; simpl.
    + now rewrite substring_all.
    + change (String c s
              = String c (String.substring 0 k s
                          +:+ String.substring k (String.length s - k) s)).
      f_equal. apply IH. simpl in Hk. lia.
Qed.

Lemma endsWith_suffix s suffix :
  endsWith s suffix = true <-> exists p, s = p +:+ suffix.
Proof.
  unfold endsWith. rewrite andb_true_iff, Nat.leb_le, String.eqb_eq. split.
  - intros [Hle Hsub].
    exists (String.substring 0 (String.length s - String.length suffix) s).
    assert (E := substring_split s (String.length s - String.length suffix)
                   ltac:(lia)).
    replace (String.length s - (String.length s - String.length suffix))%nat
      with (String.length suffix) in E by lia.
    rewrite Hsub in E. exact E.
  - intros [p ->]. rewrite length_append. split; [lia |].
    replace (String.length p + String.length suffix - String.length suffix)%nat
      with (String.length p) by lia.
    apply substring_skip.
Qed.

(** ** Methods that keep a property *)

Lemma preserves_bind {A B : Type} P (m : M A) (k : A -> M B) :
  preserves P m -> (forall a, preserves P (k a)) -> preserves P (bind m k).
Proof.
  intros Hm Hk lb HP. unfold bind. specialize (Hm lb HP).
  destruct (m lb) as [[a | e] lb']; [now apply Hk | assumption].
Qed.

Lemma preserves_try_catch {A : Type} P (m : M A) (h : Error -> M A) :
  preserves P m -> (forall e, preserves P (h e)) -> preserves P (try_catch m h).
Proof.
  intros Hm Hh lb HP. unfold try_catch. specialize (Hm lb HP).
  destruct (m lb) as [[a | e] lb']; [assumption | now apply Hh].
Qed.

Lemma preserves_ret {A : Type} P (a : A) : preserves P (ret a).
Proof. intros lb HP. assumption. Qed.

Lemma preserves_throw {A : Type} P e : preserves P (@throw A e).
Proof. intros lb HP. assumption. Qed.

(** ** The probe pass leaves the registered urls alone *)

Lemma map_node_probes toNumber config (probes : nat -> ProbeOutcome) l :
  List.map (fun s => url (node s))
    (imap (fun i server => probe toNumber config server (probes i)) l)
  = List.map (fun s => url (node s)) l.
Proof.
  revert probes. induction l as [|s l IH]; intros probes; [reflexivity |].
  simpl. rewrite probe_node. f_equal. apply (IH (fun i => probes (S i))).
Qed.

Lemma checkStatus_registered_urls toNumber config nodeType probes lb t :
  registered_urls (snd (checkStatus toNumber config nodeType probes lb)) t
  = registered_urls lb t.
Proof.
  assert (Hprobed : registered_urls
            (set_rpcUrls lb nodeType
               (imap (fun i server => probe toNumber config server (probes i))
                  (get (rpcUrls lb) nodeType))) t
          = registered_urls lb t).
  { unfold registered_urls. simpl. destruct (decide (nodeType = t)) as [<- | Hne].
    - rewrite get_set_same. apply map_node_probes.
    - now rewrite get_set_other. }
  unfold checkStatus.
  destruct (get (rpcUrls lb) nodeType) as [|s l] eqn:Hl;
    destruct (Utils.getStatusPayload (network config)); try reflexivity;
    match goal with |- context [if ?c then _ else _] => destruct c end;
    exact Hprobed.
Qed.

Lemma checkStatuses_registered_urls toNumber config probes lb t :
  registered_urls (snd (checkStatuses toNumber config probes lb)) t
  = registered_urls lb t.
Proof.
  unfold checkStatuses, bind.
  pose proof (checkStatus_registered_urls toNumber config NORMAL (probes NORMAL) lb t) as H1.
  destruct (checkStatus toNumber config NORMAL (probes NORMAL) lb) as [[[]|e] lb1];
    [| exact H1].
  pose proof (checkStatus_registered_urls toNumber config ARCHIVE (probes ARCHIVE) lb1 t) as H2.
  destruct (checkStatus toNumber config ARCHIVE (probes ARCHIVE) lb1) as [[[]|e] lb2];
    simpl in *; [| congruence].
  destruct (_ && _); simpl; congruence.
Qed.

(** ** The SSRF filter *)

Lemma initRemoteHosts_all_pass URL_hostname t supplied random :
  preserves (all_pass_ssrf URL_hostname)
    (initRemoteHosts URL_hostname (mkInitRemoteHostsParams t supplied None) random).
Proof.
  intros lb Hpass.
  destruct (initRemoteHosts_returns URL_hostname (mkInitRemoteHostsParams t supplied None) random lb)
    as (lb' & -> & Hsame & Hother).
  cbn [nodeType nodes snd] in *. intros t' u Hu. unfold registered_urls in Hu.
  destruct (decide (t' = t)) as [-> | Hne].
  - rewrite Hsame, List.map_app, List.map_map in Hu.
    apply elem_of_app in Hu as [Hu | Hu]; [now apply (Hpass t) |].
    apply list_elem_of_In, List.in_map_iff in Hu as (n & <- & Hn).
    apply List.filter_In in Hn as [_ Hn].
    unfold initRemoteHosts_filter in Hn. simpl in Hn.
    now apply andb_true_iff in Hn as [_ Hn].
  - rewrite (Hother t' Hne) in Hu. now apply (Hpass t').
Qed.

Lemma initRemoteHostsUrls_all_pass URL_hostname fetched random1 random2 random3 random4 :
  preserves (all_pass_ssrf URL_hostname)
    (initRemoteHostsUrls URL_hostname fetched random1 random2 random3 random4).
Proof.
  assert (Hm : forall m r1 r2,
    preserves (all_pass_ssrf URL_hostname) (initRemoteHosts_manifest URL_hostname m r1 r2)).
  { intros [| nodes |] r1 r2; simpl;
      [apply preserves_ret | | apply preserves_throw].
    apply preserves_bind; [| intros _]; apply initRemoteHosts_all_pass. }
  unfold initRemoteHostsUrls. apply preserves_try_catch; [| intros e; apply preserves_ret].
  destruct fetched as [[normal archive]|]; [| apply preserves_throw].
  apply preserves_bind; [| intros _]; apply Hm.
Qed.

Lemma init_remote_all_pass URL_hostname toNumber net one allowed fetched
    random1 random2 random3 random4 probes :
  all_pass_ssrf URL_hostname
    (snd (init URL_hostname toNumber (mkConfig net None one allowed) fetched
            random1 random2 random3 random4 probes newLoadBalancer)).
Proof.
  assert (H : preserves (all_pass_ssrf URL_hostname)
                (init URL_hostname toNumber (mkConfig net None one allowed) fetched
                   random1 random2 random3 random4 probes)).
  { unfold init. apply preserves_bind.
    - apply initRemoteHostsUrls_all_pass.
    - intros _. cbn [oneTimeLoadBalancing]. destruct (negb one); [apply preserves_ret |].
      intros lb Hpass t u Hu. rewrite checkStatuses_registered_urls in Hu.
      now apply (Hpass t). }
  apply H. intros t u Hu. destruct t; now apply elem_of_nil in Hu.
Qed.

Lemma init_static_urls URL_hostname toNumber net nodes one allowed fetched
    random1 random2 random3 random4 probes t :
  registered_urls
    (snd (init URL_hostname toNumber (mkConfig net (Some nodes) one allowed) fetched
            random1 random2 random3 random4 probes newLoadBalancer)) t
  = urls_of_type t nodes ++ urls_of_type t nodes.
Proof.
  unfold init, bind. cbn [rpc_nodes oneTimeLoadBalancing].
  destruct (initCustomNodes_urls URL_hostname nodes random1 random2 t) as [Hok Hurls].
  destruct (initCustomNodes URL_hostname nodes random1 random2 newLoadBalancer)
    as [[[]|e] lb]; [| discriminate Hok].
  cbn [snd] in Hurls. destruct (negb one); [exact Hurls |].
  now rewrite checkStatuses_registered_urls.
Qed.

(** C5. In remote mode (no nodes in the configuration) every url in the
    registry after [init] has a hostname that parses and ends with
    [rpc.tatum.io]; in static mode no SSRF filter is applied: every
    supplied node is registered for its kind whatever its url. *)
Theorem ssrf_filter_in_remote_mode_only :
  (forall URL_hostname BigNumber_toNumber net one allowed fetched
          random1 random2 random3 random4 probes t s,
      s ∈ get (rpcUrls
                 (snd (init URL_hostname BigNumber_toNumber (mkConfig net None one allowed)
                         fetched random1 random2 random3 random4 probes newLoadBalancer))) t ->
      exists hostname p,
        URL_hostname (url (node s)) = Some hostname
        /\ hostname = p +:+ "rpc.tatum.io")
  /\ (forall URL_hostname BigNumber_toNumber net one allowed fetched
             random1 random2 random3 random4 probes nodes n,
         n ∈ nodes ->
         rpcNode_url n
         ∈ registered_urls
             (snd (init URL_hostname BigNumber_toNumber (mkConfig net (Some nodes) one allowed)
                     fetched random1 random2 random3 random4 probes newLoadBalancer))
             (rpcNode_type n)).
Proof.
  split.
  - intros URL_hostname toNumber net one allowed fetched r1 r2 r3 r4 probes t s Hs.
    pose proof (init_remote_all_pass URL_hostname toNumber net one allowed fetched
                  r1 r2 r3 r4 probes t (url (node s))) as Hpass.
    assert (Hcheck : checkSSRF URL_hostname (url (node s)) = true).
    { apply Hpass. unfold registered_urls. apply list_elem_of_In, List.in_map_iff.
      exists s. split; [reflexivity | now apply list_elem_of_In]. }
    unfold checkSSRF in Hcheck.
    destruct (URL_hostname (url (node s))) as [hostname|]; [| discriminate].
    apply endsWith_suffix in Hcheck as [p Hp]. eauto.
  - intros URL_hostname toNumber net one allowed fetched r1 r2 r3 r4 probes nodes n Hn.
    rewrite init_static_urls. apply elem_of_app. left.
    unfold urls_of_type. apply list_elem_of_In, List.in_map_iff. exists n.
    split; [reflexivity |]. apply List.filter_In. split; [now apply list_elem_of_In |].
    now destruct (rpcNode_type n).
Qed.

Lemma ssrf_filter_in_remote_mode_only_witness :
  fresh_status "https://eth-mainnet.rpc.tatum.io"
  ∈ get (rpcUrls
           (snd (init https_hostname (fun _ => NaN) (mkConfig ETHEREUM None false (Fin 0))
                   (Some (Json ssrf_manifest, NotOk)) zero zero zero zero no_probe
                   newLoadBalancer))) NORMAL
  /\ (exists hostname p,
        https_hostname "https://eth-mainnet.rpc.tatum.io" = Some hostname
        /\ hostname = p +:+ "rpc.tatum.io")
  /\ mkRpcNode "https://evil.com/rpc" NORMAL ∈ ssrf_manifest
  /\ "https://evil.com/rpc"
     ∈ registered_urls
         (snd (init https_hostname (fun _ => NaN)
                 (mkConfig ETHEREUM (Some ssrf_manifest) false (Fin 0))
                 None zero zero zero zero no_probe newLoadBalancer)) NORMAL.
Proof.
  assert (H1 : fresh_status "https://eth-mainnet.rpc.tatum.io"
    ∈ get (rpcUrls
             (snd (init https_hostname (fun _ => NaN) (mkConfig ETHEREUM None false (Fin 0))
                     (Some (Json ssrf_manifest, NotOk)) zero zero zero zero no_probe
                     newLoadBalancer))) NORMAL) by (vm_compute; constructor).
  assert (H2 : mkRpcNode "https://evil.com/rpc" NORMAL ∈ ssrf_manifest) by constructor.
  destruct ssrf_filter_in_remote_mode_only as [Remote Static].
  split; [exact H1 |]. split.
  - exact (Remote _ _ _ _ _ _ _ _ _ _ _ _ _ H1).
  - split; [exact H2 |].
    exact (Static https_hostname (fun _ => NaN) ETHEREUM false (Fin 0) None
             zero zero zero zero no_probe ssrf_manifest _ H2).
Defined.

(** ** The retries of a call come to an end *)

Lemma up_app l1 l2 : up (l1 ++ l2) = (up l1 + up l2)%nat.
Proof. unfold up. now rewrite List.filter_app, length_app. Qed.

Lemma up_mark l i server :
  l !! i = Some server ->
  (up (<[i := set_failed server true]> l) + (if failed server then 0 else 1) = up l)%nat.
Proof.
  intros Hi.
  rewrite insert_take_drop by (now apply lookup_lt_Some in Hi).
  rewrite <- (take_drop_middle l i server Hi) at 3.
  rewrite !up_app.
  change (set_failed server true :: drop (S i) l)
    with ([set_failed server true] ++ drop (S i) l).
  change (server :: drop (S i) l) with ([server] ++ drop (S i) l).
  rewrite !up_app. unfold up at 2 5. simpl. destruct (failed server); simpl; lia.
Qed.

Lemma handleFailedRpcCall_lowers_budget config e t lb lb' :
  handleFailedRpcCall config e t lb = (Ok tt, lb') ->
  (retry_budget lb' < retry_budget lb)%nat.
Proof.
  destruct (handleFailedRpcCall_cases config e t lb)
    as [Ha | a Ha Hs | a server servers r Ha Hs Hservers Hr]; try discriminate.
  destruct (Z.eqb_spec (index r) (-1)) as [Hnone | Hsome]; [discriminate |].
  intros [= <-]. subst r.
  destruct (getFastestServer_found _ _ Hsome) as (s_new & Hnew & Hfnew & _).
  pose proof Hs as Hs'. apply at_index_Some in Hs' as [_ Hs'].
  pose proof (up_mark _ _ _ Hs') as Hup. rewrite <- Hservers in Hup.
  unfold retry_budget, settled.
  destruct t; simpl in *; rewrite Ha, Hs, Hnew, Hfnew; simpl;
    destruct (failed server); simpl in *; lia.
Qed.

(** With [retry_budget lb] retries allowed, a [rawRpcCall] that nothing
    interrupts returns or raises. *)
Lemma rawRpcCall_ends fuel config connector rpcCall archive lb :
  (retry_budget lb <= fuel)%nat ->
  outcome (rawRpcCall fuel config connector rpcCall archive lb) <> Pending.
Proof.
  revert connector archive lb.
  induction fuel as [|fuel IH]; intros connector archive lb Hfuel;
    rewrite rawRpcCall_unfold;
    (destruct (if flag archive then _ else _) as [[u t]|err]; [| simpl; discriminate]);
    (destruct (connector 0%nat u rpcCall) as [e|response]; [| simpl; discriminate]);
    (destruct (handleFailedRpcCall config e t lb) as [[[]|err] lb'] eqn:Hh;
       [| simpl; discriminate]);
    apply handleFailedRpcCall_lowers_budget in Hh.
  - lia.
  - simpl. apply IH. lia.
Qed.

(** ** Every instance that [init] and [rawRpcCall] produce is consistent *)

Lemma newLoadBalancer_consistent : consistent newLoadBalancer.
Proof. intros t a. destruct t; discriminate. Qed.

Lemma initCustomNodes_loop_consistent supplied lb :
  consistent lb -> consistent (initCustomNodes_loop supplied lb).
Proof.
  revert lb. induction supplied as [|n supplied IH]; intros lb Hc; [assumption |].
  simpl. apply IH.
  destruct (rpcNode_type n); simpl; unfold push;
    apply consistent_set_rpcUrls; try assumption; apply keeps_urls_app.
Qed.

Lemma initCustomNodes_consistent URL_hostname supplied random1 random2 :
  preserves consistent (initCustomNodes URL_hostname supplied random1 random2).
Proof.
  unfold initCustomNodes.
  apply preserves_bind; [intros lb; apply initRemoteHosts_consistent | intros _].
  apply preserves_bind; [intros lb; apply initRemoteHosts_consistent | intros _].
  intros lb Hc. destruct (negb _); simpl; [now apply initCustomNodes_loop_consistent | assumption].
Qed.

Lemma initRemoteHostsUrls_consistent URL_hostname fetched random1 random2 random3 random4 :
  preserves consistent
    (initRemoteHostsUrls URL_hostname fetched random1 random2 random3 random4).
Proof.
  assert (Hm : forall m r1 r2,
    preserves consistent (initRemoteHosts_manifest URL_hostname m r1 r2)).
  { intros [| supplied |] r1 r2; simpl;
      [apply preserves_ret | | apply preserves_throw].
    apply preserves_bind; [| intros _]; intros lb; apply initRemoteHosts_consistent. }
  unfold initRemoteHostsUrls. apply preserves_try_catch; [| intros e; apply preserves_ret].
  destruct fetched as [[normal archive]|]; [| apply preserves_throw].
  apply preserves_bind; [| intros _]; apply Hm.
Qed.

Lemma checkStatuses_consistent toNumber config probes :
  preserves consistent (checkStatuses toNumber config probes).
Proof.
  unfold checkStatuses.
  apply preserves_bind; [intros lb; apply checkStatus_consistent | intros _].
  apply preserves_bind; [intros lb; apply checkStatus_consistent | intros _].
  intros lb Hc. now destruct (_ && _).
Qed.

Lemma init_consistent URL_hostname toNumber config fetched
    random1 random2 random3 random4 probes :
  consistent
    (snd (init URL_hostname toNumber config fetched random1 random2 random3 random4 probes
            newLoadBalancer)).
Proof.
  assert (H : preserves consistent
                (init URL_hostname toNumber config fetched
                   random1 random2 random3 random4 probes)).
  { unfold init. apply preserves_bind.
    - destruct (rpc_nodes config);
        [apply initCustomNodes_consistent | apply initRemoteHostsUrls_consistent].
    - intros _. destruct (negb _); [apply preserves_ret | apply checkStatuses_consistent]. }
  apply H, newLoadBalancer_consistent.
Qed.

Lemma rawRpcCall_consistent fuel config connector rpcCall archive lb :
  consistent lb ->
  consistent (final (rawRpcCall fuel config connector rpcCall archive lb)).
Proof.
  revert connector archive lb.
  induction fuel as [|fuel IH]; intros connector archive lb Hc;
    rewrite rawRpcCall_unfold;
    (destruct (if flag archive then _ else _) as [[u t]|err]; [| assumption]);
    (destruct (connector 0%nat u rpcCall) as [e|response]; [| assumption]);
    pose proof (handleFailedRpcCall_consistent config e t lb Hc) as Hc';
    destruct (handleFailedRpcCall config e t lb) as [[[]|err] lb'];
    simpl in *; try assumption.
  now apply IH.
Qed.

(** ** The scenarios of the specification, evaluated *)

Example basic_failover_scenario :
  let run :=
    rawRpcCall 5 (mkConfig ETHEREUM None false (Fin 5)) (failing_on ["A"]) example_call None
      basic_failover in
  outcome run = Returned (mkJsonRpcResponse (Str "B"))
  /\ sent run = [("A", NORMAL); ("B", NORMAL)]
  /\ get (rpcUrls (final run)) NORMAL = [endpoint "A" 100 50 true; endpoint "B" 100 200 false]
  /\ get (activeUrl (final run)) NORMAL = Some (mkUrlIndex "B" 1).
Proof. repeat split. Qed.

Example archive_fallback_scenario :
  let run := rawRpcCall 5 example_config (failing_on []) example_call (Some false) archive_only in
  outcome run = Returned (mkJsonRpcResponse (Str "X")) /\ sent run = [("X", ARCHIVE)].
Proof. repeat split. Qed.

Example ssrf_filter_scenario :
  registered_urls
    (snd (initRemoteHostsUrls https_hostname (Some (Json ssrf_manifest, NotOk))
            zero zero zero zero newLoadBalancer)) NORMAL
  = ["https://eth-mainnet.rpc.tatum.io"].
Proof. reflexivity. Qed.

Example within_tolerance_keeps_incumbent_scenario :
  index (getFastestServer [endpoint "A" 108 20 false; endpoint "B" 110 200 false] (Fin 5)) = 0.
Proof. reflexivity. Qed.

Example same_block_faster_response_scenario :
  index (getFastestServer [endpoint "A" 100 200 false; endpoint "B" 100 50 false] (Fin 5)) = 1.
Proof. reflexivity. Qed.

Example total_exhaustion_scenario :
  outcome (rawRpcCall 5 (mkConfig ETHEREUM None false (Fin 5)) (failing_on ["A"; "B"])
             example_call None all_failed)
  = Raised (Rethrown AllNodesUnavailable "connection refused").
Proof. reflexivity. Qed.

Example tolerance_not_configured :
  index (getFastestServer [endpoint "A" 108 20 false] NaN) = -1.
Proof. reflexivity. Qed.

(** * Further properties *)

(** ** What the selection policy guarantees *)






(** X2. With finite block heights and a finite tolerance the selection finds
    nothing exactly when every endpoint is failed. *)
Theorem getFastestServer_none_iff_all_failed (servers : list RpcStatus) (allowed : number) :
  is_finite allowed = true ->
  Forall (fun s => is_finite (lastBlock s) = true) servers ->
  index (getFastestServer servers allowed) = -1
  <-> forall s, s ∈ servers -> failed s = true.
Proof.
  intros Hallowed Hfin. split.
  - now apply getFastestServer_none.
  - intros Hall. now rewrite getFastestServer_all_failed.
Qed.

Lemma getFastestServer_none_iff_all_failed_witness :
  is_finite (Fin 5) = true
  /\ Forall (fun s => is_finite (lastBlock s) = true)
       [endpoint "A" 100 50 true; endpoint "B" 100 200 true]
  /\ (index (getFastestServer [endpoint "A" 100 50 true; endpoint "B" 100 200 true] (Fin 5)) = -1
      <-> forall s, s ∈ [endpoint "A" 100 50 true; endpoint "B" 100 200 true] ->
                    failed s = true).
Proof.
  assert (H : Forall (fun s => is_finite (lastBlock s) = true)
                [endpoint "A" 100 50 true; endpoint "B" 100 200 true])
    by (repeat constructor).
  split; [reflexivity |]. split; [exact H |].
  apply (getFastestServer_none_iff_all_failed _ (Fin 5) eq_refl H).
Defined.

(** X3. When the tolerance is [NaN], as it is when the option is left
    undefined, no endpoint is ever selected, however healthy. *)
Theorem getFastestServer_without_tolerance (servers : list RpcStatus) :
  (forall s, s ∈ servers -> lastBlock s <> NegInfinity) ->
  getFastestServer servers NaN = fastest_init.
Proof.
  induction servers as [|item servers IH] using rev_ind; intros Hall; [reflexivity |].
  rewrite getFastestServer_snoc, IH.
  - assert (Hitem : lastBlock item <> NegInfinity)
      by (apply Hall, elem_of_app; right; constructor).
    unfold fastest_step. simpl.
    destruct (lastBlock item); try (now contradiction Hitem);
      simpl; now rewrite ?andb_false_r.
  - intros s Hs. apply Hall, elem_of_app. now left.
Qed.

Lemma getFastestServer_without_tolerance_witness :
  (forall s, s ∈ [stale_fast_A; ahead_slow_B] -> lastBlock s <> NegInfinity)
  /\ getFastestServer [stale_fast_A; ahead_slow_B] NaN = fastest_init.
Proof.
  assert (H : forall s, s ∈ [stale_fast_A; ahead_slow_B] -> lastBlock s <> NegInfinity).
  { intros s Hs. apply list_elem_of_In in Hs. simpl in Hs.
    destruct Hs as [<- | [<- | []]]; discriminate. }
  split; [exact H |].
  apply (getFastestServer_without_tolerance [stale_fast_A; ahead_slow_B] H).
Defined.

Lemma lt_irrefl (x : number) : lt x x = false.
Proof. destruct x; simpl; try reflexivity. apply Z.ltb_irrefl. Qed.

Lemma not_faster_than_new_winner (x w c : number) :
  lt x w = false -> lt c w = true -> lt x c = false.
Proof.
  unfold lt. destruct x, w, c; simpl; try discriminate; try reflexivity.
  intros H1 H2. apply Z.ltb_ge in H1. apply Z.ltb_lt in H2. apply Z.ltb_ge. lia.
Qed.

Lemma same_height_winner (servers : list RpcStatus) (a b : Z) :
  0 <= a ->
  same_height b servers ->
  (getFastestServer servers (Fin a) = fastest_init
   /\ forall s, s ∈ servers -> failed s = true)
  \/ (server_lastBlock (fastestServer (getFastestServer servers (Fin a))) = Fin b
      /\ forall s, s ∈ servers -> failed s = false ->
           lt (lastResponseTime s)
              (server_lastResponseTime (fastestServer (getFastestServer servers (Fin a))))
           = false).
Proof.
  intros Ha. induction servers as [|item servers IH] using rev_ind; intros Hsame.
  - left. split; [reflexivity |]. intros s Hs. now apply elem_of_nil in Hs.
  - assert (Hitem : lastBlock item = Fin b)
      by (apply Hsame, elem_of_app; right; constructor).
    assert (Hprefix : same_height b servers)
      by (intros s Hs; apply Hsame, elem_of_app; now left).
    rewrite getFastestServer_snoc. unfold fastest_step. rewrite Hitem.
    destruct (IH Hprefix) as [[-> Hall] | [Hw Hrt]].
    + simpl. destruct (failed item) eqn:Hf; simpl.
      * left. split; [reflexivity |]. intros s Hs.
        apply elem_of_app in Hs as [Hs | Hs]; [now apply Hall |].
        now apply list_elem_of_singleton in Hs as ->.
      * right. split; [exact Hitem |]. intros s Hs Hsf.
        apply elem_of_app in Hs as [Hs | Hs]; [rewrite (Hall s Hs) in Hsf; discriminate |].
        apply list_elem_of_singleton in Hs as ->. apply lt_irrefl.
    + rewrite Hw. simpl.
      replace (b <? b - a) with false by (symmetry; apply Z.ltb_ge; lia).
      rewrite Z.eqb_refl. simpl.
      destruct (failed item) eqn:Hf; simpl.
      * right. split; [exact Hw |]. intros s Hs Hsf.
        apply elem_of_app in Hs as [Hs | Hs]; [now apply Hrt |].
        apply list_elem_of_singleton in Hs as ->. congruence.
      * destruct (lt (lastResponseTime item) _) eqn:Hlt; simpl.
        -- right. split; [exact Hitem |]. intros s Hs Hsf.
           apply elem_of_app in Hs as [Hs | Hs].
           ++ exact (not_faster_than_new_winner _ _ _ (Hrt s Hs Hsf) Hlt).
           ++ apply list_elem_of_singleton in Hs as ->. apply lt_irrefl.
        -- right. split; [exact Hw |]. intros s Hs Hsf.
           apply elem_of_app in Hs as [Hs | Hs]; [now apply Hrt |].
           now apply list_elem_of_singleton in Hs as ->.
Qed.

(** X4. Among endpoints at one block height, with a tolerance [a >= 0], the
    selection returns one with the smallest response time: no endpoint
    that is not failed answers faster than the winner. *)
Theorem getFastestServer_same_block_fastest (servers : list RpcStatus) (a b : Z)
    (s : RpcStatus) :
  0 <= a ->
  same_height b servers ->
  s ∈ servers ->
  failed s = false ->
  index (getFastestServer servers (Fin a)) <> -1
  /\ lt (lastResponseTime s)
        (server_lastResponseTime (fastestServer (getFastestServer servers (Fin a)))) = false.
Proof.
  intros Ha Hsame Hin Hf. split.
  - apply (getFastestServer_finds servers (Fin a) s); try assumption; try reflexivity.
    now rewrite (Hsame s Hin).
  - destruct (same_height_winner servers a b Ha Hsame) as [[_ Hall] | [_ Hrt]].
    + rewrite (Hall s Hin) in Hf. discriminate.
    + now apply Hrt.
Qed.

Lemma getFastestServer_same_block_fastest_witness :
  0 <= 5
  /\ same_height 100 [endpoint "A" 100 200 false; endpoint "B" 100 50 false]
  /\ endpoint "A" 100 200 false ∈ [endpoint "A" 100 200 false; endpoint "B" 100 50 false]
  /\ index (getFastestServer [endpoint "A" 100 200 false; endpoint "B" 100 50 false] (Fin 5))
     <> -1
  /\ lt (lastResponseTime (endpoint "A" 100 200 false))
        (server_lastResponseTime
           (fastestServer
              (getFastestServer [endpoint "A" 100 200 false; endpoint "B" 100 50 false]
                 (Fin 5)))) = false.
Proof.
  assert (Hsame : same_height 100 [endpoint "A" 100 200 false; endpoint "B" 100 50 false]).
  { intros s Hs. apply list_elem_of_In in Hs. simpl in Hs.
    destruct Hs as [<- | [<- | []]]; reflexivity. }
  assert (Hin : endpoint "A" 100 200 false
                ∈ [endpoint "A" 100 200 false; endpoint "B" 100 50 false]) by constructor.
  split; [lia |]. split; [exact Hsame |]. split; [exact Hin |].
  apply (getFastestServer_same_block_fastest _ 5 100 _); [lia | exact Hsame | exact Hin | reflexivity].
Defined.

(** ** What a call changes in the registry *)

Lemma marks_refl s : marks s s.
Proof. repeat split; auto. Qed.

Lemma marks_trans s1 s2 s3 : marks s1 s2 -> marks s2 s3 -> marks s1 s3.
Proof.
  intros (A1 & B1 & C1 & D1) (A2 & B2 & C2 & D2). repeat split; try congruence. auto.
Qed.

Lemma only_marks_refl lb : only_marks lb lb.
Proof. intros t. apply Forall2_lookup. intros i. destruct (_ !! i); constructor. apply marks_refl. Qed.

Lemma Forall2_marks_trans l1 l2 l3 :
  Forall2 marks l1 l2 -> Forall2 marks l2 l3 -> Forall2 marks l1 l3.
Proof.
  intros H12. revert l3. induction H12 as [|s1 s2 l1 l2 Hs H12 IH]; intros l3 H23.
  - inversion H23. constructor.
  - inversion H23 as [|? s3 ? l3' Hs' H23']; subst. constructor.
    + now apply (marks_trans s1 s2 s3).
    + now apply IH.
Qed.

Lemma only_marks_trans lb1 lb2 lb3 :
  only_marks lb1 lb2 -> only_marks lb2 lb3 -> only_marks lb1 lb3.
Proof. intros H12 H23 t. exact (Forall2_marks_trans _ _ _ (H12 t) (H23 t)). Qed.

Lemma Forall2_marks_insert l i server :
  l !! i = Some server ->
  Forall2 marks l (<[i := set_failed server true]> l).
Proof.
  intros Hi. apply Forall2_same_length_lookup. split; [now rewrite length_insert |].
  intros j x y Hx Hy. destruct (decide (i = j)) as [<- | Hne].
  - rewrite list_lookup_insert_eq in Hy by (now apply lookup_lt_Some in Hi).
    assert (x = server) as -> by congruence. injection Hy as <-.
    repeat split; reflexivity.
  - rewrite list_lookup_insert_ne in Hy by assumption.
    assert (x = y) as -> by congruence. apply marks_refl.
Qed.

Lemma only_marks_set_rpcUrls lb t l :
  Forall2 marks (get (rpcUrls lb) t) l -> only_marks lb (set_rpcUrls lb t l).
Proof.
  intros H t'. simpl. destruct (decide (t = t')) as [<- | Hne].
  - now rewrite get_set_same.
  - rewrite get_set_other by assumption. apply only_marks_refl.
Qed.

Lemma handleFailedRpcCall_only_marks config e t lb :
  only_marks lb (snd (handleFailedRpcCall config e t lb)).
Proof.
  destruct (handleFailedRpcCall_cases config e t lb)
    as [Ha | a Ha Hs | a server servers r Ha Hs -> Hr]; try apply only_marks_refl.
  apply at_index_Some in Hs as [_ Hs].
  pose proof (only_marks_set_rpcUrls lb t _ (Forall2_marks_insert _ _ _ Hs)) as H.
  now destruct (index r =? -1).
Qed.

Lemma rawRpcCall_only_marks_final fuel config connector rpcCall archive lb :
  only_marks lb (final (rawRpcCall fuel config connector rpcCall archive lb)).
Proof.
  revert connector archive lb.
  induction fuel as [|fuel IH]; intros connector archive lb;
    rewrite rawRpcCall_unfold;
    (destruct (if flag archive then _ else _) as [[u t]|err]; [| apply only_marks_refl]);
    (destruct (connector 0%nat u rpcCall) as [e|response]; [| apply only_marks_refl]);
    pose proof (handleFailedRpcCall_only_marks config e t lb) as Hm;
    destruct (handleFailedRpcCall config e t lb) as [[[]|err] lb'];
    simpl in *; try assumption.
  eapply only_marks_trans; [exact Hm | apply IH].
Qed.

(** X5. A call, with all its retries, never resizes or reorders the registry,
    never touches a url, a block height or a response time, and never
    clears a [failed] flag: it only switches such flags on. *)
Theorem rawRpcCall_only_marks (fuel : nat) (config : Config) (connector : Connector)
    (rpcCall : JsonRpcCall) (archive : option bool) (lb : LoadBalancer) (t : RpcNodeType) :
  Forall2 marks (get (rpcUrls lb) t)
    (get (rpcUrls (final (rawRpcCall fuel config connector rpcCall archive lb))) t).
Proof. apply rawRpcCall_only_marks_final. Qed.

(** ** Endpoints that failed a request are marked *)

Lemma marked_only_marks lb lb' x :
  marked lb x -> only_marks lb lb' -> marked lb' x.
Proof.
  intros (s & Hs & Hu & Hf) Hm. apply list_elem_of_lookup in Hs as [i Hi].
  destruct (Forall2_lookup_l _ _ _ _ _ (Hm (snd x)) Hi) as (s' & Hi' & Hn & _ & _ & Hf').
  exists s'. split; [apply list_elem_of_lookup; eauto |]. split; [congruence | auto].
Qed.

Lemma resolve_Ok archive lb u t :
  (if flag archive
   then getActiveArchiveUrlWithFallback lb
   else getActiveNormalUrlWithFallback lb) = Ok (u, t) ->
  exists a, get (activeUrl lb) t = Some a /\ active_url a = u /\ u <> "".
Proof.
  assert (H : forall t', truthy_url (fst (getActiveUrl lb t')) = Some u ->
                exists a, get (activeUrl lb) t' = Some a /\ active_url a = u /\ u <> "").
  { intros t'. unfold getActiveUrl, activeUrl_url. simpl.
    destruct (get (activeUrl lb) t') as [a|]; [| discriminate]. simpl.
    destruct (String.eqb_spec (active_url a) ""); simpl; [discriminate |].
    intros [= <-]. eauto. }
  unfold getActiveArchiveUrlWithFallback, getActiveNormalUrlWithFallback.
  destruct (flag archive);
    destruct (truthy_url (fst (getActiveUrl lb ARCHIVE))) as [ua|] eqn:Ea;
    destruct (truthy_url (fst (getActiveUrl lb NORMAL))) as [un|] eqn:En;
    intros [= <- <-]; auto.
Qed.

(** In a consistent instance, a request that fails leaves its endpoint
    marked, whether the failover then succeeds or not. *)
Lemma handleFailedRpcCall_marks config e lb u t a :
  consistent lb ->
  get (activeUrl lb) t = Some a -> active_url a = u ->
  marked (snd (handleFailedRpcCall config e t lb)) (u, t)
  /\ fst (handleFailedRpcCall config e t lb) <> Throw TypeError
  /\ (forall e', fst (handleFailedRpcCall config e t lb) <> Throw (Rethrown NoActiveServer e')).
Proof.
  intros Hc Ha Hu.
  destruct (handleFailedRpcCall_cases config e t lb)
    as [Ha' | a' Ha' Hs | a' server servers r Ha' Hs Hservers Hr].
  - congruence.
  - destruct (Hc t a' Ha') as (s & Hs' & _). congruence.
  - assert (a' = a) as -> by congruence.
    destruct (Hc t a Ha) as (s & Hs' & Hurl).
    assert (s = server) as -> by congruence.
    apply at_index_Some in Hs as [_ Hs].
    assert (Hm : marked (set_rpcUrls lb t servers) (u, t)).
    { exists (set_failed server true). simpl. rewrite get_set_same. split.
      - apply list_elem_of_lookup. exists (Z.to_nat (active_index a)). subst servers.
        apply list_lookup_insert_eq. now apply lookup_lt_Some in Hs.
      - split; [congruence | reflexivity]. }
    destruct (index r =? -1); simpl; (split; [| split; [discriminate | discriminate]]).
    + exact Hm.
    + destruct Hm as (s & Hin & Hsu & Hsf). exists s. simpl in *. auto.
Qed.

(** The same call when no probe pass lands during its requests. *)
Lemma rawRpcCall_during_unfold fuel config connector during rpcCall archive lb :
  rawRpcCall_during fuel config connector during rpcCall archive lb
  = match (if flag archive
           then getActiveArchiveUrlWithFallback lb
           else getActiveNormalUrlWithFallback lb) with
    | Throw e => mkRun (Raised e) lb []
    | Ok (url, type) =>
        sent_before (url, type)
          match connector 0%nat url rpcCall with
          | inr response => mkRun (Returned response) (during 0%nat lb) []
          | inl e =>
              match handleFailedRpcCall config e type (during 0%nat lb) with
              | (Throw e', lb') => mkRun (Raised e') lb' []
              | (Ok _, lb') =>
                  match fuel with
                  | O => mkRun Pending lb' []
                  | S fuel' =>
                      rawRpcCall_during fuel' config (later connector)
                        (fun n => during (S n)) rpcCall None lb'
                  end
              end
          end
    end.
Proof. destruct fuel; reflexivity. Qed.

Lemma rawRpcCall_during_quiet fuel config connector during rpcCall archive lb :
  quiet during ->
  rawRpcCall_during fuel config connector during rpcCall archive lb
  = rawRpcCall fuel config connector rpcCall archive lb.
Proof.
  revert connector during archive lb.
  induction fuel as [|fuel IH]; intros connector during archive lb Hq;
    rewrite rawRpcCall_during_unfold, rawRpcCall_unfold, Hq; [reflexivity |].
  destruct (if flag archive then _ else _) as [[u t]|err]; [| reflexivity].
  destruct (connector 0%nat u rpcCall) as [e|response]; [| reflexivity].
  destruct (handleFailedRpcCall config e t lb) as [[[]|err] lb']; [| reflexivity].
  rewrite IH; [reflexivity |]. intros n lb0. apply Hq.
Qed.

Lemma rawRpcCall_marks_sent fuel config connector rpcCall archive lb :
  consistent lb ->
  match outcome (rawRpcCall fuel config connector rpcCall archive lb) with
  | Returned response =>
      exists pre u t,
        sent (rawRpcCall fuel config connector rpcCall archive lb) = pre ++ [(u, t)]
        /\ connector (length pre) u rpcCall = inr response
        /\ Forall (marked (final (rawRpcCall fuel config connector rpcCall archive lb))) pre
  | _ =>
      Forall (marked (final (rawRpcCall fuel config connector rpcCall archive lb)))
        (sent (rawRpcCall fuel config connector rpcCall archive lb))
  end.
Proof.
  revert connector archive lb.
  induction fuel as [|fuel IH]; intros connector archive lb Hc;
    rewrite rawRpcCall_unfold;
    (destruct (if flag archive then _ else _) as [[u t]|err] eqn:Hresolve;
      [| simpl; constructor]);
    (destruct (connector 0%nat u rpcCall) as [e|response] eqn:Hsend;
      [| simpl; exists [], u, t; repeat split; [assumption | constructor]]);
    destruct (resolve_Ok _ _ _ _ Hresolve) as (a & Ha & Hu & _);
    destruct (handleFailedRpcCall_marks config e lb u t a Hc Ha Hu) as (Hm & _ & _);
    pose proof (handleFailedRpcCall_consistent config e t lb Hc) as Hc';
    destruct (handleFailedRpcCall config e t lb) as [[[]|err] lb1]; simpl in Hm, Hc';
    try (simpl; repeat constructor; exact Hm).
  specialize (IH (later connector) None lb1 Hc').
  pose proof (rawRpcCall_only_marks_final fuel config (later connector) rpcCall None lb1) as Hfinal.
  pose proof (marked_only_marks _ _ _ Hm Hfinal) as Hm'.
  set (run := rawRpcCall fuel config (later connector) rpcCall None lb1) in *.
  simpl. destruct (outcome run).
  - destruct IH as (pre & u' & t' & Hsent & Hanswer & Hpre).
    exists ((u, t) :: pre), u', t'. rewrite Hsent. repeat split.
    + exact Hanswer.
    + now constructor.
  - now constructor.
  - now constructor.
Qed.

(** X6. In a call during which no probe pass lands on the instance, a
    returned response is the transport's answer to the last request sent;
    every request before it failed and left its endpoint marked failed in
    the registry.  When such a call does not return, every request it
    sent has left its endpoint marked. *)
Theorem rawRpcCall_marks_failed_endpoints (fuel : nat) (config : Config)
    (connector : Connector) (during : Interference) (rpcCall : JsonRpcCall)
    (archive : option bool) (lb : LoadBalancer) :
  quiet during ->
  consistent lb ->
  match outcome (rawRpcCall_during fuel config connector during rpcCall archive lb) with
  | Returned response =>
      exists pre u t,
        sent (rawRpcCall_during fuel config connector during rpcCall archive lb)
        = pre ++ [(u, t)]
        /\ connector (length pre) u rpcCall = inr response
        /\ Forall (marked (final (rawRpcCall_during fuel config connector during rpcCall
                                    archive lb))) pre
  | _ =>
      Forall (marked (final (rawRpcCall_during fuel config connector during rpcCall
                               archive lb)))
        (sent (rawRpcCall_during fuel config connector during rpcCall archive lb))
  end.
Proof.
  intros Hq Hc. rewrite (rawRpcCall_during_quiet _ _ _ _ _ _ _ Hq).
  now apply rawRpcCall_marks_sent.
Qed.

Lemma rawRpcCall_marks_failed_endpoints_witness :
  quiet no_pass
  /\ consistent basic_failover
  /\ exists pre u t,
       sent (rawRpcCall_during 5 example_config (failing_on ["A"]) no_pass example_call None
               basic_failover)
       = pre ++ [(u, t)]
       /\ failing_on ["A"] (length pre) u example_call = inr (mkJsonRpcResponse (Str "B"))
       /\ Forall (marked (final (rawRpcCall_during 5 example_config (failing_on ["A"]) no_pass
                                   example_call None basic_failover))) pre.
Proof.
  assert (Hq : quiet no_pass) by (intros n lb; reflexivity).
  assert (Hc : consistent basic_failover).
  { intros t a; destruct t; simpl; [intros [= <-] | discriminate].
    eexists; split; reflexivity. }
  split; [exact Hq |]. split; [exact Hc |].
  exact (rawRpcCall_marks_failed_endpoints 5 example_config (failing_on ["A"]) no_pass
           example_call None basic_failover Hq Hc).
Defined.

(** ** How many requests a call sends *)

Lemma up_le_length l : (up l <= length l)%nat.
Proof.
  unfold up. induction l as [|s l IH]; simpl; [lia |].
  destruct (negb (failed s)); simpl; lia.
Qed.

Lemma retry_budget_le lb :
  (retry_budget lb
   <= 2 * (length (get (rpcUrls lb) NORMAL) + length (get (rpcUrls lb) ARCHIVE)) + 2)%nat.
Proof.
  unfold retry_budget.
  pose proof (up_le_length (get (rpcUrls lb) NORMAL)).
  pose proof (up_le_length (get (rpcUrls lb) ARCHIVE)).
  destruct (settled lb NORMAL), (settled lb ARCHIVE); lia.
Qed.

Lemma rawRpcCall_sent_le_budget fuel config connector rpcCall archive lb :
  (length (sent (rawRpcCall fuel config connector rpcCall archive lb))
   <= S (retry_budget lb))%nat.
Proof.
  revert connector archive lb.
  induction fuel as [|fuel IH]; intros connector archive lb;
    rewrite rawRpcCall_unfold;
    (destruct (if flag archive then _ else _) as [[u t]|err]; [| simpl; lia]);
    (destruct (connector 0%nat u rpcCall) as [e|response]; [| simpl; lia]);
    (destruct (handleFailedRpcCall config e t lb) as [[[]|err] lb'] eqn:Hh;
       [| simpl; lia]);
    apply handleFailedRpcCall_lowers_budget in Hh; simpl; [lia |].
  specialize (IH (later connector) None lb'). lia.
Qed.

(** X7. A call during which no probe pass lands on the instance sends at
    most [2 n + 3] requests, where [n] is the number of registered
    endpoints of both kinds, however the transport behaves. *)
Theorem rawRpcCall_request_bound (fuel : nat) (config : Config) (connector : Connector)
    (during : Interference) (rpcCall : JsonRpcCall) (archive : option bool)
    (lb : LoadBalancer) :
  quiet during ->
  (length (sent (rawRpcCall_during fuel config connector during rpcCall archive lb))
   <= 2 * (length (get (rpcUrls lb) NORMAL) + length (get (rpcUrls lb) ARCHIVE)) + 3)%nat.
Proof.
  intros Hq. rewrite (rawRpcCall_during_quiet _ _ _ _ _ _ _ Hq).
  pose proof (rawRpcCall_sent_le_budget fuel config connector rpcCall archive lb).
  pose proof (retry_budget_le lb). lia.
Qed.

Lemma rawRpcCall_request_bound_witness :
  quiet no_pass
  /\ (length (sent (rawRpcCall_during 9 example_config (failing_on ["X"; "Y"; "N"]) no_pass
                      example_call (Some true) two_archives))
      <= 2 * (length (get (rpcUrls two_archives) NORMAL)
              + length (get (rpcUrls two_archives) ARCHIVE)) + 3)%nat.
Proof.
  assert (Hq : quiet no_pass) by (intros n lb; reflexivity).
  split; [exact Hq |].
  exact (rawRpcCall_request_bound 9 example_config (failing_on ["X"; "Y"; "N"]) no_pass
           example_call (Some true) two_archives Hq).
Defined.

(** ** A call stays in the pool it first resolved to *)

Lemma Forall2_marks_urls l l' :
  Forall2 marks l l' ->
  List.map (fun s => url (node s)) l' = List.map (fun s => url (node s)) l.
Proof.
  induction 1 as [|s s' l l' (Hn & _) _ IH]; [reflexivity |].
  simpl. now rewrite Hn, IH.
Qed.

Lemma only_marks_registered_urls lb lb' t :
  only_marks lb lb' -> registered_urls lb' t = registered_urls lb t.
Proof. intros H. apply Forall2_marks_urls, H. Qed.

Lemma handleFailedRpcCall_keeps_active_url config e t lb k :
  urls_nonempty lb k ->
  (exists u, has_active_url lb k u) ->
  urls_nonempty (snd (handleFailedRpcCall config e t lb)) k
  /\ exists u, has_active_url (snd (handleFailedRpcCall config e t lb)) k u.
Proof.
  intros Hne Hactive.
  pose proof (handleFailedRpcCall_only_marks config e t lb) as Hm.
  assert (Hne' : urls_nonempty (snd (handleFailedRpcCall config e t lb)) k).
  { intros u Hu. rewrite (only_marks_registered_urls _ _ _ Hm) in Hu. now apply Hne. }
  split; [exact Hne' |].
  destruct (handleFailedRpcCall_cases config e t lb)
    as [Ha | a Ha Hs | a server servers r Ha Hs Hservers Hr]; try assumption.
  destruct (Z.eqb_spec (index r) (-1)) as [Hnone | Hsome]; [exact Hactive |].
  simpl in *. destruct (decide (t = k)) as [<- | Hother].
  - subst r. destruct (getFastestServer_found _ _ Hsome) as (s & Hs' & _ & E).
    exists (url (node s)). eexists. unfold has_active_url. simpl.
    rewrite get_set_same. split; [reflexivity |]. rewrite E. simpl.
    split; [reflexivity |]. apply Hne'. unfold registered_urls. simpl.
    rewrite get_set_same. apply at_index_Some in Hs' as [_ Hs'].
    apply list_elem_of_In, List.in_map_iff. exists s. split; [reflexivity |].
    apply list_elem_of_In, list_elem_of_lookup. eauto.
  - destruct Hactive as (u & a' & Ha' & Hu). exists u, a'.
    unfold has_active_url. simpl. now rewrite get_set_other.
Qed.

Lemma rawBatchRpcCall_unfold fuel config connector rpcCall lb :
  rawBatchRpcCall fuel config connector rpcCall lb
  = match getActiveArchiveUrlWithFallback lb with
    | Throw e => mkBatchRun (BatchRaised e) lb []
    | Ok (url, type) =>
        batch_sent_before (url, type)
          match connector 0%nat url rpcCall with
          | inr response => mkBatchRun (BatchReturned response) lb []
          | inl e =>
              match handleFailedRpcCall config e type lb with
              | (Throw e', lb') => mkBatchRun (BatchRaised e') lb' []
              | (Ok _, lb') =>
                  match fuel with
                  | O => mkBatchRun BatchPending lb' []
                  | S fuel' =>
                      rawBatchRpcCall fuel' config (fun n => connector (S n)) rpcCall lb'
                  end
              end
          end
    end.
Proof. destruct fuel; reflexivity. Qed.

(** X8. When an ARCHIVE endpoint is active, a batch call sends every request,
    the first and all retries, to an ARCHIVE endpoint: unlike [rawRpcCall]
    it resolves ARCHIVE-first each time. *)
Theorem rawBatchRpcCall_stays_archive (fuel : nat) (config : Config)
    (connector : BatchConnector) (rpcCall : list JsonRpcCall) (lb : LoadBalancer) :
  urls_nonempty lb ARCHIVE ->
  (exists u, has_active_url lb ARCHIVE u) ->
  Forall (fun x => snd x = ARCHIVE)
    (batch_sent (rawBatchRpcCall fuel config connector rpcCall lb)).
Proof.
  revert connector lb.
  induction fuel as [|fuel IH]; intros connector lb Hne [u0 Hactive];
    rewrite rawBatchRpcCall_unfold;
    unfold getActiveArchiveUrlWithFallback;
    rewrite (truthy_url_Some _ _ _ Hactive);
    (destruct (connector 0%nat u0 rpcCall) as [e|response];
      [| simpl; repeat constructor]);
    destruct (handleFailedRpcCall_keeps_active_url config e ARCHIVE lb ARCHIVE Hne
                (ex_intro _ u0 Hactive)) as [Hne' Hactive'];
    destruct (handleFailedRpcCall config e ARCHIVE lb) as [[[]|err] lb'];
    simpl in *; try (repeat constructor).
  now apply IH.
Qed.

Lemma rawBatchRpcCall_stays_archive_witness :
  urls_nonempty two_archives ARCHIVE
  /\ (exists u, has_active_url two_archives ARCHIVE u)
  /\ Forall (fun x => snd x = ARCHIVE)
       (batch_sent (rawBatchRpcCall 5 example_config
                      (fun _ u _ => if String.eqb u "X" then inl "connection refused"
                                    else inr (inl []))
                      [example_call] two_archives)).
Proof.
  assert (Hne : urls_nonempty two_archives ARCHIVE).
  { intros u Hu. apply list_elem_of_In in Hu. simpl in Hu.
    destruct Hu as [<- | [<- | []]]; discriminate. }
  assert (Hactive : exists u, has_active_url two_archives ARCHIVE u).
  { exists "X". eexists. simpl. repeat split; [reflexivity .. | discriminate]. }
  split; [exact Hne |]. split; [exact Hactive |].
  exact (rawBatchRpcCall_stays_archive 5 example_config _ [example_call] two_archives
           Hne Hactive).
Defined.

(** X9. When a NORMAL endpoint is active, a call made without the [archive]
    flag sends every request to a NORMAL endpoint: a failure never makes it
    fall back to the ARCHIVE pool. *)
Theorem rawRpcCall_stays_normal (fuel : nat) (config : Config) (connector : Connector)
    (rpcCall : JsonRpcCall) (archive : option bool) (lb : LoadBalancer) :
  archive = None \/ archive = Some false ->
  urls_nonempty lb NORMAL ->
  (exists u, has_active_url lb NORMAL u) ->
  Forall (fun x => snd x = NORMAL)
    (sent (rawRpcCall fuel config connector rpcCall archive lb)).
Proof.
  intros Harchive.
  assert (Hflag : flag archive = false) by (destruct Harchive as [-> | ->]; reflexivity).
  clear Harchive. revert connector archive Hflag lb.
  induction fuel as [|fuel IH]; intros connector archive Hflag lb Hne [u0 Hactive];
    rewrite rawRpcCall_unfold, Hflag;
    unfold getActiveNormalUrlWithFallback;
    rewrite (truthy_url_Some _ _ _ Hactive);
    (destruct (connector 0%nat u0 rpcCall) as [e|response];
      [| simpl; repeat constructor]);
    destruct (handleFailedRpcCall_keeps_active_url config e NORMAL lb NORMAL Hne
                (ex_intro _ u0 Hactive)) as [Hne' Hactive'];
    destruct (handleFailedRpcCall config e NORMAL lb) as [[[]|err] lb'];
    simpl in *; try (repeat constructor).
  now apply IH.
Qed.

Lemma rawRpcCall_stays_normal_witness :
  urls_nonempty one_of_each NORMAL
  /\ (exists u, has_active_url one_of_each NORMAL u)
  /\ Forall (fun x => snd x = NORMAL)
       (sent (rawRpcCall 5 example_config (failing_on ["N"]) example_call None one_of_each)).
Proof.
  assert (Hne : urls_nonempty one_of_each NORMAL).
  { intros u Hu. apply list_elem_of_In in Hu. simpl in Hu.
    destruct Hu as [<- | []]; discriminate. }
  assert (Hactive : exists u, has_active_url one_of_each NORMAL u).
  { exists "N". eexists. simpl. repeat split; [reflexivity .. | discriminate]. }
  split; [exact Hne |]. split; [exact Hactive |].
  exact (rawRpcCall_stays_normal 5 example_config (failing_on ["N"]) example_call None
           one_of_each (or_introl eq_refl) Hne Hactive).
Defined.

(** ** What the remote bootstrap registers *)

Lemma initRemoteHosts_remote_urls URL_hostname k supplied random lb :
  exists lb',
    initRemoteHosts URL_hostname (mkInitRemoteHostsParams k supplied None) random lb
    = (Ok tt, lb')
    /\ forall t,
         registered_urls lb' t
         = registered_urls lb t
             ++ (if decide (t = k) then ssrf_urls_of_type URL_hostname k supplied else []).
Proof.
  destruct (initRemoteHosts_returns URL_hostname (mkInitRemoteHostsParams k supplied None)
              random lb) as (lb' & Hrun & Hsame & Hother).
  exists lb'. split; [exact Hrun |]. intros t. unfold registered_urls.
  cbn [nodeType] in *. destruct (decide (t = k)) as [-> | Hne].
  - rewrite Hsame, List.map_app, List.map_map. reflexivity.
  - rewrite (Hother t Hne). now rewrite app_nil_r.
Qed.

Lemma initRemoteHosts_manifest_urls URL_hostname supplied random1 random2 lb :
  exists lb',
    initRemoteHosts_manifest URL_hostname (Json supplied) random1 random2 lb = (Ok tt, lb')
    /\ forall t,
         registered_urls lb' t
         = registered_urls lb t ++ ssrf_urls_of_type URL_hostname t supplied.
Proof.
  unfold initRemoteHosts_manifest, bind.
  destruct (initRemoteHosts_remote_urls URL_hostname NORMAL supplied random1 lb)
    as (lb1 & -> & H1).
  destruct (initRemoteHosts_remote_urls URL_hostname ARCHIVE supplied random2 lb1)
    as (lb2 & -> & H2).
  exists lb2. split; [reflexivity |]. intros t. rewrite H2, H1.
  destruct t; simpl; now rewrite ?app_nil_r.
Qed.

Lemma ssrf_urls_of_type_app URL_hostname t l1 l2 :
  ssrf_urls_of_type URL_hostname t (l1 ++ l2)
  = ssrf_urls_of_type URL_hostname t l1 ++ ssrf_urls_of_type URL_hostname t l2.
Proof. unfold ssrf_urls_of_type. now rewrite List.filter_app, List.map_app. Qed.

Lemma initRemoteHostsUrls_urls URL_hostname fetched random1 random2 random3 random4 t :
  fst (initRemoteHostsUrls URL_hostname fetched random1 random2 random3 random4
         newLoadBalancer) = Ok tt
  /\ registered_urls
       (snd (initRemoteHostsUrls URL_hostname fetched random1 random2 random3 random4
               newLoadBalancer)) t
     = ssrf_urls_of_type URL_hostname t (fetched_nodes fetched).
Proof.
  unfold initRemoteHostsUrls, try_catch.
  destruct fetched as [[from_normal from_archive]|]; [| now destruct t].
  unfold bind.
  destruct from_normal as [| supplied1 |].
  - cbn [initRemoteHosts_manifest ret].
    destruct from_archive as [| supplied2 |]; try (now destruct t).
    destruct (initRemoteHosts_manifest_urls URL_hostname supplied2 random3 random4
                newLoadBalancer) as (lb2 & -> & H2).
    split; [reflexivity |]. cbn [snd fetched_nodes]. rewrite H2. now destruct t.
  - destruct (initRemoteHosts_manifest_urls URL_hostname supplied1 random1 random2
                newLoadBalancer) as (lb1 & -> & H1).
    assert (Hfirst : registered_urls lb1 t = ssrf_urls_of_type URL_hostname t supplied1)
      by (rewrite H1; now destruct t).
    destruct from_archive as [| supplied2 |]; try (split; [reflexivity | exact Hfirst]).
    destruct (initRemoteHosts_manifest_urls URL_hostname supplied2 random3 random4 lb1)
      as (lb2 & -> & H2).
    split; [reflexivity |]. cbn [snd fetched_nodes].
    now rewrite H2, Hfirst, ssrf_urls_of_type_app.
  - now destruct t.
Qed.

(** X10. After the remote bootstrap of a new balancer the registry of a kind
    holds exactly the manifest entries of that kind that pass the SSRF
    check, those of the normal manifest first, each once and in manifest
    order.  A manifest contributes to the kind of its entries, not of its
    own name; a rejected fetch or JSON body ends the bootstrap silently. *)
Theorem initRemoteHostsUrls_registers (URL_hostname : string -> option string)
    (fetched : option (Manifest * Manifest)) (random1 random2 random3 random4 : Random)
    (t : RpcNodeType) :
  fst (initRemoteHostsUrls URL_hostname fetched random1 random2 random3 random4
         newLoadBalancer) = Ok tt
  /\ registered_urls
       (snd (initRemoteHostsUrls URL_hostname fetched random1 random2 random3 random4
               newLoadBalancer)) t
     = ssrf_urls_of_type URL_hostname t (fetched_nodes fetched).
Proof. apply initRemoteHostsUrls_urls. Qed.

(** ** What [init] throws *)

Lemma initCustomNodes_returns URL_hostname supplied random1 random2 lb :
  fst (initCustomNodes URL_hostname supplied random1 random2 lb) = Ok tt.
Proof.
  unfold initCustomNodes, bind.
  destruct (initRemoteHosts_returns URL_hostname
              (mkInitRemoteHostsParams NORMAL supplied (Some true)) random1 lb)
    as (lb1 & -> & _).
  destruct (initRemoteHosts_returns URL_hostname
              (mkInitRemoteHostsParams ARCHIVE supplied (Some true)) random2 lb1)
    as (lb2 & -> & _).
  now destruct (negb _).
Qed.

Lemma initRemoteHostsUrls_returns URL_hostname fetched random1 random2 random3 random4 lb :
  fst (initRemoteHostsUrls URL_hostname fetched random1 random2 random3 random4 lb) = Ok tt.
Proof.
  unfold initRemoteHostsUrls, try_catch.
  match goal with |- context [match ?m lb with _ => _ end] =>
    destruct (m lb) as [[[]|e] lb'] end; reflexivity.
Qed.

Lemma checkStatus_throws toNumber config t probes lb :
  fst (checkStatus toNumber config t probes lb) = Ok tt
  \/ fst (checkStatus toNumber config t probes lb) = Throw (UnsupportedNetwork (network config)).
Proof.
  unfold checkStatus, Utils.getStatusPayload.
  destruct (get (rpcUrls lb) t);
    destruct (isUtxoBasedNetwork (network config));
    destruct (isEvmBasedNetwork (network config) || isTronNetwork (network config));
    try (now right);
    match goal with |- context [if ?c then _ else _] => destruct c end; now left.
Qed.

Lemma checkStatuses_throws toNumber config probes lb :
  fst (checkStatuses toNumber config probes lb) = Ok tt
  \/ fst (checkStatuses toNumber config probes lb) = Throw NoActiveNodeSetManually
  \/ fst (checkStatuses toNumber config probes lb) = Throw (UnsupportedNetwork (network config)).
Proof.
  unfold checkStatuses, bind.
  destruct (checkStatus_throws toNumber config NORMAL (probes NORMAL) lb) as [H | H];
    destruct (checkStatus toNumber config NORMAL (probes NORMAL) lb) as [[[]|e] lb1];
    simpl in H; try discriminate; [| injection H as ->; auto].
  destruct (checkStatus_throws toNumber config ARCHIVE (probes ARCHIVE) lb1) as [H' | H'];
    destruct (checkStatus toNumber config ARCHIVE (probes ARCHIVE) lb1) as [[[]|e] lb2];
    simpl in H'; try discriminate; [| injection H' as ->; auto].
  destruct (_ && _); auto.
Qed.

(** X11. In periodic mode [init] never throws: a manifest that cannot be
    fetched or parsed, or an empty node list, leaves it silent.  In
    one-shot mode it can throw only the two errors of the probe pass: the
    missing active node and the network without a status payload. *)
Theorem init_throws_only_in_one_shot_mode (URL_hostname : string -> option string)
    (BigNumber_toNumber : value -> number) (config : Config)
    (fetched : option (Manifest * Manifest)) (random1 random2 random3 random4 : Random)
    (probes : RpcNodeType -> nat -> ProbeOutcome) (lb : LoadBalancer) :
  let thrown :=
    fst (init URL_hostname BigNumber_toNumber config fetched
           random1 random2 random3 random4 probes lb) in
  if oneTimeLoadBalancing config
  then thrown = Ok tt
       \/ thrown = Throw NoActiveNodeSetManually
       \/ thrown = Throw (UnsupportedNetwork (network config))
  else thrown = Ok tt.
Proof.
  unfold init, bind.
  destruct (rpc_nodes config) as [supplied|].
  - pose proof (initCustomNodes_returns URL_hostname supplied random1 random2 lb) as Hboot.
    destruct (initCustomNodes URL_hostname supplied random1 random2 lb) as [[[]|e] lb1];
      [| discriminate Hboot].
    destruct (oneTimeLoadBalancing config); simpl; [| reflexivity].
    apply checkStatuses_throws.
  - pose proof (initRemoteHostsUrls_returns URL_hostname fetched
                  random1 random2 random3 random4 lb) as Hboot.
    destruct (initRemoteHostsUrls URL_hostname fetched random1 random2 random3 random4 lb)
      as [[[]|e] lb1]; [| discriminate Hboot].
    destruct (oneTimeLoadBalancing config); simpl; [| reflexivity].
    apply checkStatuses_throws.
Qed.

Lemma checkStatuses_empty toNumber config probes lb :
  (forall t, get (rpcUrls lb) t = []) ->
  (forall t, get (activeUrl lb) t = None) ->
  checkStatuses toNumber config probes lb = (Throw NoActiveNodeSetManually, lb).
Proof.
  intros Hurls Hactive. destruct lb as [[n a] [an aa]].
  pose proof (Hurls NORMAL) as H1. pose proof (Hurls ARCHIVE) as H2.
  pose proof (Hactive NORMAL) as H3. pose proof (Hactive ARCHIVE) as H4.
  simpl in *. subst. reflexivity.
Qed.

Lemma consistent_empty_inactive lb :
  consistent lb -> (forall t, get (rpcUrls lb) t = []) ->
  forall t, get (activeUrl lb) t = None.
Proof.
  intros Hc Hurls t. destruct (get (activeUrl lb) t) as [a|] eqn:Ha; [| reflexivity].
  destruct (Hc t a Ha) as (s & Hs & _). rewrite Hurls in Hs.
  apply at_index_Some in Hs as [_ Hs]. discriminate.
Qed.

(** X12. A one-shot [init] of a new balancer that registers no endpoint (an
    empty node list, or manifests with no entry that passes the SSRF
    check) throws the missing-active-node error, whatever the network. *)
Theorem init_one_shot_without_endpoints (URL_hostname : string -> option string)
    (BigNumber_toNumber : value -> number) (config : Config)
    (fetched : option (Manifest * Manifest)) (random1 random2 random3 random4 : Random)
    (probes : RpcNodeType -> nat -> ProbeOutcome) :
  oneTimeLoadBalancing config = true ->
  match rpc_nodes config with
  | Some supplied => supplied = []
  | None => forall t, ssrf_urls_of_type URL_hostname t (fetched_nodes fetched) = []
  end ->
  init URL_hostname BigNumber_toNumber config fetched random1 random2 random3 random4 probes
    newLoadBalancer
  = (Throw NoActiveNodeSetManually, newLoadBalancer).
Proof.
  intros Hone Hnone. unfold init, bind. rewrite Hone. cbn [negb].
  destruct (rpc_nodes config) as [supplied|].
  - subst supplied. reflexivity.
  - pose proof (initRemoteHostsUrls_consistent URL_hostname fetched
                  random1 random2 random3 random4 newLoadBalancer newLoadBalancer_consistent)
      as Hc.
    assert (Hurls : forall t,
      get (rpcUrls (snd (initRemoteHostsUrls URL_hostname fetched
                           random1 random2 random3 random4 newLoadBalancer))) t = []).
    { intros t.
      destruct (initRemoteHostsUrls_urls URL_hostname fetched
                  random1 random2 random3 random4 t) as [_ H].
      rewrite Hnone in H. unfold registered_urls in H. now apply List.map_eq_nil in H. }
    pose proof (consistent_empty_inactive _ Hc Hurls) as Hactive.
    pose proof (initRemoteHostsUrls_returns URL_hostname fetched
                  random1 random2 random3 random4 newLoadBalancer) as Hok.
    destruct (initRemoteHostsUrls URL_hostname fetched random1 random2 random3 random4
                newLoadBalancer) as [[[]|e] lb1]; [| discriminate Hok].
    simpl in *. rewrite (checkStatuses_empty _ _ _ lb1 Hurls Hactive). f_equal.
    destruct lb1 as [[n a] [an aa]].
    pose proof (Hurls NORMAL) as H1. pose proof (Hurls ARCHIVE) as H2.
    pose proof (Hactive NORMAL) as H3. pose proof (Hactive ARCHIVE) as H4.
    simpl in *. now subst.
Qed.

Lemma init_one_shot_without_endpoints_witness :
  oneTimeLoadBalancing (mkConfig SOLANA (Some []) true (Fin 0)) = true
  /\ init https_hostname (fun _ => NaN) (mkConfig SOLANA (Some []) true (Fin 0)) None
       zero zero zero zero no_probe newLoadBalancer
     = (Throw NoActiveNodeSetManually, newLoadBalancer).
Proof.
  split; [reflexivity |].
  apply (init_one_shot_without_endpoints https_hostname (fun _ => NaN)
           (mkConfig SOLANA (Some []) true (Fin 0)) None zero zero zero zero no_probe);
    reflexivity.
Defined.

(** ** What a probe pass leaves behind *)

Lemma checkStatus_Ok toNumber config t probes lb :
  fst (checkStatus toNumber config t probes lb) = Ok tt ->
  snd (checkStatus toNumber config t probes lb)
  = let servers := probed toNumber config probes lb t in
    let r := getFastestServer servers (allowedBlocksBehind config) in
    if negb (index r =? -1)
    then set_activeUrl (set_rpcUrls lb t servers) t
           (mkUrlIndex (url (server_node (fastestServer r))) (index r))
    else set_rpcUrls lb t servers.
Proof.
  unfold checkStatus, probed.
  destruct (get (rpcUrls lb) t) as [|s l];
    destruct (Utils.getStatusPayload (network config));
    try discriminate; intros _; cbv zeta;
    match goal with |- context [if ?c then _ else _] => destruct c end; reflexivity.
Qed.

Lemma checkStatus_Throw toNumber config t probes lb e :
  fst (checkStatus toNumber config t probes lb) = Throw e ->
  snd (checkStatus toNumber config t probes lb) = lb.
Proof.
  unfold checkStatus.
  destruct (get (rpcUrls lb) t) as [|s l];
    destruct (Utils.getStatusPayload (network config)); try reflexivity;
    match goal with |- context [if ?c then _ else _] => destruct c end; discriminate.
Qed.

(** X13. After a probe pass of a kind that did not throw, if some endpoint of
    the kind is not failed (heights and tolerance finite), the active
    selection of the kind points at an endpoint that is not failed. *)
Theorem checkStatus_selects_healthy (BigNumber_toNumber : value -> number)
    (config : Config) (t : RpcNodeType) (probes : nat -> ProbeOutcome)
    (lb : LoadBalancer) (s : RpcStatus) :
  is_finite (allowedBlocksBehind config) = true ->
  fst (checkStatus BigNumber_toNumber config t probes lb) = Ok tt ->
  s ∈ get (rpcUrls (snd (checkStatus BigNumber_toNumber config t probes lb))) t ->
  failed s = false ->
  is_finite (lastBlock s) = true ->
  settled (snd (checkStatus BigNumber_toNumber config t probes lb)) t = true.
Proof.
  intros Hallowed Hok. rewrite (checkStatus_Ok _ _ _ _ _ Hok). cbv zeta.
  set (servers := probed BigNumber_toNumber config probes lb t).
  intros Hin Hf Hfin.
  assert (Hin' : s ∈ servers).
  { destruct (negb _); simpl in Hin; now rewrite get_set_same in Hin. }
  pose proof (getFastestServer_finds servers _ s Hallowed Hin' Hf Hfin) as Hsome.
  destruct (getFastestServer_found _ _ Hsome) as (w & Hw & Hwf & _).
  apply Z.eqb_neq in Hsome. rewrite Hsome. unfold settled.
  cbn [negb activeUrl rpcUrls set_activeUrl set_rpcUrls].
  rewrite !get_set_same. cbn [active_index]. now rewrite Hw, Hwf.
Qed.

Lemma checkStatus_selects_healthy_witness :
  let probes := fun _ : nat => Fetched (Fin 40) true (Some (mkJsonRpcResponse (Num (Fin 7)))) in
  let toNumber := fun v => match v with Num n => n | _ => NaN end in
  is_finite (allowedBlocksBehind example_config) = true
  /\ fst (checkStatus toNumber example_config NORMAL probes all_failed) = Ok tt
  /\ endpoint "A" 7 40 false
     ∈ get (rpcUrls (snd (checkStatus toNumber example_config NORMAL probes all_failed))) NORMAL
  /\ settled (snd (checkStatus toNumber example_config NORMAL probes all_failed)) NORMAL = true.
Proof.
  intros probes toNumber.
  assert (Hin : endpoint "A" 7 40 false
    ∈ get (rpcUrls (snd (checkStatus toNumber example_config NORMAL probes all_failed))) NORMAL)
    by (vm_compute; constructor).
  split; [reflexivity |]. split; [reflexivity |]. split; [exact Hin |].
  apply (checkStatus_selects_healthy toNumber example_config NORMAL probes all_failed
           (endpoint "A" 7 40 false)); try reflexivity. exact Hin.
Defined.

Lemma checkStatus_all_failed_active toNumber config t probes lb :
  (forall s, s ∈ get (rpcUrls (snd (checkStatus toNumber config t probes lb))) t ->
             failed s = true) ->
  activeUrl (snd (checkStatus toNumber config t probes lb)) = activeUrl lb.
Proof.
  destruct (fst (checkStatus toNumber config t probes lb)) as [[]|e] eqn:Hfst.
  - rewrite (checkStatus_Ok _ _ _ _ _ Hfst). cbv zeta.
    set (servers := probed toNumber config probes lb t).
    intros Hall.
    assert (Hall' : forall s, s ∈ servers -> failed s = true).
    { intros s Hs. apply Hall. destruct (negb _); simpl; now rewrite get_set_same. }
    rewrite (getFastestServer_all_failed _ _ Hall'). reflexivity.
  - now rewrite (checkStatus_Throw _ _ _ _ _ _ Hfst).
Qed.

(** X14. A probe pass after which every endpoint of the kind is failed leaves
    the active selections where they were: the selection of a kind is
    never cleared, it keeps pointing at a failed endpoint. *)
Theorem checkStatus_without_healthy_keeps_active (BigNumber_toNumber : value -> number)
    (config : Config) (t : RpcNodeType) (probes : nat -> ProbeOutcome) (lb : LoadBalancer) :
  (forall s, s ∈ get (rpcUrls (snd (checkStatus BigNumber_toNumber config t probes lb))) t ->
             failed s = true) ->
  activeUrl (snd (checkStatus BigNumber_toNumber config t probes lb)) = activeUrl lb.
Proof. apply checkStatus_all_failed_active. Qed.

Lemma checkStatus_without_healthy_keeps_active_witness :
  (forall s, s ∈ get (rpcUrls (snd (checkStatus (fun _ => NaN) example_config NORMAL
                                      (no_probe NORMAL) basic_failover))) NORMAL ->
             failed s = true)
  /\ activeUrl (snd (checkStatus (fun _ => NaN) example_config NORMAL (no_probe NORMAL)
                       basic_failover))
     = activeUrl basic_failover.
Proof.
  assert (H : forall s,
    s ∈ get (rpcUrls (snd (checkStatus (fun _ => NaN) example_config NORMAL
                             (no_probe NORMAL) basic_failover))) NORMAL ->
    failed s = true).
  { intros s Hs. apply list_elem_of_In in Hs. vm_compute in Hs.
    destruct Hs as [<- | [<- | []]]; reflexivity. }
  split; [exact H |].
  exact (checkStatus_without_healthy_keeps_active (fun _ => NaN) example_config NORMAL
           (no_probe NORMAL) basic_failover H).
Defined.

(** X15. On a Tron network a probe pass never throws, marks every endpoint of
    the kind failed, whatever the endpoints answered, and leaves the active
    selections alone. *)
Theorem checkStatus_on_tron (BigNumber_toNumber : value -> number) (config : Config)
    (t : RpcNodeType) (probes : nat -> ProbeOutcome) (lb : LoadBalancer) :
  isTronNetwork (network config) = true ->
  fst (checkStatus BigNumber_toNumber config t probes lb) = Ok tt
  /\ (forall s,
        s ∈ get (rpcUrls (snd (checkStatus BigNumber_toNumber config t probes lb))) t ->
        failed s = true)
  /\ activeUrl (snd (checkStatus BigNumber_toNumber config t probes lb)) = activeUrl lb.
Proof.
  intros Htron.
  assert (Hok : fst (checkStatus BigNumber_toNumber config t probes lb) = Ok tt).
  { destruct (checkStatus_throws BigNumber_toNumber config t probes lb) as [H | H];
      [exact H |].
    exfalso. revert H. unfold checkStatus, Utils.getStatusPayload. rewrite Htron, orb_true_r.
    destruct (get (rpcUrls lb) t); destruct (isUtxoBasedNetwork (network config));
      match goal with |- context [if ?c then _ else _] => destruct c end; discriminate. }
  assert (Hall : forall s,
    s ∈ get (rpcUrls (snd (checkStatus BigNumber_toNumber config t probes lb))) t ->
    failed s = true).
  { rewrite (checkStatus_Ok _ _ _ _ _ Hok). cbv zeta. intros s Hs.
    assert (Hs' : s ∈ probed BigNumber_toNumber config probes lb t).
    { destruct (negb _); simpl in Hs; now rewrite get_set_same in Hs. }
    unfold probed in Hs'. apply list_elem_of_lookup in Hs' as [i Hi].
    rewrite list_lookup_imap in Hi.
    destruct (get (rpcUrls lb) t !! i) as [server|]; [| discriminate].
    injection Hi as <-. now apply probe_tron_fails. }
  split; [exact Hok |]. split; [exact Hall |].
  now apply checkStatus_all_failed_active.
Qed.

(** X16. A probe pass over both kinds never adds, drops or reorders an
    endpoint: the registered urls of each kind are the same before and
    after, whether the pass returns or throws. *)
Theorem checkStatuses_keeps_registry_order (BigNumber_toNumber : value -> number)
    (config : Config) (probes : RpcNodeType -> nat -> ProbeOutcome) (lb : LoadBalancer)
    (t : RpcNodeType) :
  registered_urls (snd (checkStatuses BigNumber_toNumber config probes lb)) t
  = registered_urls lb t.
Proof. apply checkStatuses_registered_urls. Qed.

(** X17. A failed endpoint recovers with its next good probe: when an endpoint
    answers ok with a truthy [result] on a UTXO or EVM network, the pass
    clears its [failed] flag and records the decoded height and the
    response time, whatever the record held before. *)
Theorem checkStatus_recovers (BigNumber_toNumber : value -> number) (config : Config)
    (t : RpcNodeType) (probes : nat -> ProbeOutcome) (lb : LoadBalancer)
    (i : nat) (s : RpcStatus) (responseTime : number) (response : JsonRpcResponse) :
  isUtxoBasedNetwork (network config) || isEvmBasedNetwork (network config) = true ->
  get (rpcUrls lb) t !! i = Some s ->
  probes i = Fetched responseTime true (Some response) ->
  truthy (result response) = true ->
  get (rpcUrls (snd (checkStatus BigNumber_toNumber config t probes lb))) t !! i
  = Some (mkRpcStatus (node s) (BigNumber_toNumber (result response)) responseTime false).
Proof.
  intros Hnet Hi Hprobe Htruthy.
  assert (Hok : fst (checkStatus BigNumber_toNumber config t probes lb) = Ok tt).
  { destruct (checkStatus_throws BigNumber_toNumber config t probes lb) as [H | H];
      [exact H |].
    exfalso. revert H. unfold checkStatus, Utils.getStatusPayload.
    apply orb_true_iff in Hnet as [Hnet | Hnet]; rewrite Hnet; try rewrite orb_true_l;
      destruct (get (rpcUrls lb) t); try destruct (isUtxoBasedNetwork (network config));
      match goal with |- context [if ?c then _ else _] => destruct c end; discriminate. }
  rewrite (checkStatus_Ok _ _ _ _ _ Hok). cbv zeta.
  assert (Hprobed : probed BigNumber_toNumber config probes lb t !! i
          = Some (mkRpcStatus (node s) (BigNumber_toNumber (result response))
                    responseTime false)).
  { unfold probed. rewrite list_lookup_imap, Hi. simpl. f_equal.
    unfold probe. rewrite Hprobe, Htruthy. simpl.
    unfold Utils.parseStatusPayload, or_else. now rewrite Hnet, Htruthy. }
  destruct (negb _); simpl; now rewrite get_set_same.
Qed.

Lemma checkStatus_recovers_witness :
  let probes := fun _ : nat => Fetched (Fin 40) true (Some (mkJsonRpcResponse (Num (Fin 7)))) in
  let toNumber := fun v => match v with Num n => n | _ => NaN end in
  isUtxoBasedNetwork (network example_config) || isEvmBasedNetwork (network example_config)
  = true
  /\ get (rpcUrls all_failed) NORMAL !! 1%nat = Some (endpoint "B" 100 200 true)
  /\ get (rpcUrls (snd (checkStatus toNumber example_config NORMAL probes all_failed))) NORMAL
       !! 1%nat
     = Some (endpoint "B" 7 40 false).
Proof.
  intros probes toNumber. split; [reflexivity |]. split; [reflexivity |].
  apply (checkStatus_recovers toNumber example_config NORMAL probes all_failed 1
           (endpoint "B" 100 200 true) (Fin 40) (mkJsonRpcResponse (Num (Fin 7))));
    reflexivity.
Defined.

(** ** The registry and the active selections agree in every reachable instance *)

Lemma rawBatchRpcCall_consistent fuel config connector rpcCall lb :
  consistent lb ->
  consistent (batch_final (rawBatchRpcCall fuel config connector rpcCall lb)).
Proof.
  revert connector lb.
  induction fuel as [|fuel IH]; intros connector lb Hc;
    rewrite rawBatchRpcCall_unfold;
    (destruct (getActiveArchiveUrlWithFallback lb) as [[u t]|err]; [| assumption]);
    (destruct (connector 0%nat u rpcCall) as [e|response]; [| assumption]);
    pose proof (handleFailedRpcCall_consistent config e t lb Hc) as Hc';
    destruct (handleFailedRpcCall config e t lb) as [[[]|err] lb'];
    simpl in *; try assumption.
  now apply IH.
Qed.

(** X18. Whatever [init] was given and whether it threw or not, after it, a
    later probe pass, a call and a batch call, each with any transport
    behaviour, every set active selection still holds a valid index of its
    list and the url of the endpoint there. *)
Theorem consistent_after_init_pass_and_calls
    (URL_hostname : string -> option string) (BigNumber_toNumber : value -> number)
    (config : Config) (fetched : option (Manifest * Manifest))
    (random1 random2 random3 random4 : Random)
    (probes probes' : RpcNodeType -> nat -> ProbeOutcome)
    (fuel fuel' : nat) (connector : Connector) (rpcCall : JsonRpcCall)
    (archive : option bool) (batch_connector : BatchConnector) (batch : list JsonRpcCall) :
  let lb1 := snd (init URL_hostname BigNumber_toNumber config fetched
                    random1 random2 random3 random4 probes newLoadBalancer) in
  let lb2 := snd (checkStatuses BigNumber_toNumber config probes' lb1) in
  let lb3 := final (rawRpcCall fuel config connector rpcCall archive lb2) in
  let lb4 := batch_final (rawBatchRpcCall fuel' config batch_connector batch lb3) in
  consistent lb1 /\ consistent lb2 /\ consistent lb3 /\ consistent lb4.
Proof.
  intros lb1 lb2 lb3 lb4.
  assert (H1 : consistent lb1) by apply init_consistent.
  assert (H2 : consistent lb2) by (now apply checkStatuses_consistent).
  assert (H3 : consistent lb3) by (now apply rawRpcCall_consistent).
  assert (H4 : consistent lb4) by (now apply rawBatchRpcCall_consistent).
  auto.
Qed.

(** ** Networks and notification chains *)

(** X19. Every chain that [mapNotificationChainToNetwork] accepts maps to a
    network that [mapNetworkToNotificationChain] maps back to the chain. *)
Theorem chain_network_round_trip (chain : Chain.Name) (network : Net.Name) :
  UtilsTables.mapNotificationChainToNetwork chain = Some network ->
  UtilsTables.mapNetworkToNotificationChain network = Some chain.
Proof. destruct chain; simpl; intros [= <-]; reflexivity. Qed.

Lemma chain_network_round_trip_witness :
  UtilsTables.mapNotificationChainToNetwork Chain.MATIC = Some Net.POLYGON
  /\ UtilsTables.mapNetworkToNotificationChain Net.POLYGON = Some Chain.MATIC.
Proof.
  split; [reflexivity |].
  apply (chain_network_round_trip Chain.MATIC Net.POLYGON). reflexivity.
Defined.

(** X20. The other way round, a network with a notification chain comes back as
    a network of the same chain and with the same client class, except
    for Tezos: [mapNetworkToNotificationChain] returns the TEZOS chain,
    which [mapNotificationChainToNetwork] rejects. *)
Theorem network_chain_round_trip (network : Net.Name) (chain : Chain.Name) :
  UtilsTables.mapNetworkToNotificationChain network = Some chain ->
  (chain = Chain.TEZOS
   /\ network = Net.TEZOS
   /\ UtilsTables.mapNotificationChainToNetwork chain = None)
  \/ exists back,
       UtilsTables.mapNotificationChainToNetwork chain = Some back
       /\ UtilsTables.mapNetworkToNotificationChain back = Some chain
       /\ UtilsTables.getClient back = UtilsTables.getClient network.
Proof.
  destruct network; simpl; intros [= <-];
    first [ left; repeat split; reflexivity
          | right; eexists; repeat split; reflexivity ].
Qed.

Lemma network_chain_round_trip_witness :
  UtilsTables.mapNetworkToNotificationChain Net.ETHEREUM_GOERLI = Some Chain.ETH
  /\ ((Chain.ETH = Chain.TEZOS
       /\ Net.ETHEREUM_GOERLI = Net.TEZOS
       /\ UtilsTables.mapNotificationChainToNetwork Chain.ETH = None)
      \/ exists back,
           UtilsTables.mapNotificationChainToNetwork Chain.ETH = Some back
           /\ UtilsTables.mapNetworkToNotificationChain back = Some Chain.ETH
           /\ UtilsTables.getClient back = UtilsTables.getClient Net.ETHEREUM_GOERLI).
Proof.
  split; [reflexivity |].
  apply (network_chain_round_trip Net.ETHEREUM_GOERLI Chain.ETH). reflexivity.
Defined.

(** ** [camelToSnakeCase] *)

Lemma to_lower_not_upper c :
  UtilsStrings.is_upper c = true -> UtilsStrings.is_upper (UtilsStrings.to_lower c) = false.
Proof.
  unfold UtilsStrings.is_upper, UtilsStrings.to_lower. intros H.
  apply andb_true_iff in H as [H1 H2]. apply Nat.leb_le in H1, H2.
  rewrite Ascii.nat_ascii_embedding by lia.
  apply andb_false_iff. right. apply Nat.leb_gt. lia.
Qed.

Lemma camelToSnakeCase_no_upper s :
  UtilsStrings.no_upper (UtilsStrings.camelToSnakeCase s).
Proof.
  induction s as [|c s IH]; simpl; [exact I |].
  destruct (UtilsStrings.is_upper c) eqn:Hc; simpl.
  - split; [reflexivity |]. split; [now apply to_lower_not_upper | exact IH].
  - split; [exact Hc | exact IH].
Qed.

Lemma camelToSnakeCase_fixed s :
  UtilsStrings.no_upper s -> UtilsStrings.camelToSnakeCase s = s.
Proof.
  induction s as [|c s IH]; simpl; [reflexivity |].
  intros [Hc Hs]. now rewrite Hc, IH.
Qed.

(** X21. The result of [camelToSnakeCase] has no letter of [A-Z]; converting it
    again changes nothing; and the conversion of a concatenation is the
    concatenation of the conversions. *)
Theorem camelToSnakeCase_properties (a b : string) :
  UtilsStrings.no_upper (UtilsStrings.camelToSnakeCase a)
  /\ UtilsStrings.camelToSnakeCase (UtilsStrings.camelToSnakeCase a)
     = UtilsStrings.camelToSnakeCase a
  /\ UtilsStrings.camelToSnakeCase (a +:+ b)
     = UtilsStrings.camelToSnakeCase a +:+ UtilsStrings.camelToSnakeCase b.
Proof.
  split; [apply camelToSnakeCase_no_upper |]. split.
  - apply camelToSnakeCase_fixed, camelToSnakeCase_no_upper.
  - induction a as [|c a IH]; [reflexivity |].
    change (String c a +:+ b) with (String c (a +:+ b)).
    cbn [UtilsStrings.camelToSnakeCase]. rewrite IH.
    now destruct (UtilsStrings.is_upper c).
Qed.

(** ** [padWithZero] *)

Lemma length_zeros n : String.length (UtilsStrings.zeros n) = n.
Proof. induction n as [|n IH]; simpl; [reflexivity | now rewrite IH]. Qed.

Lemma prefix_append p h : String.prefix p (p +:+ h) = true.
Proof.
  induction p as [|c p IH]; [now destruct h |].
  change (String c p +:+ h) with (String c (p +:+ h)). simpl.
  destruct (Ascii.ascii_dec c c) as [_ | Hne]; [exact IH | now contradiction Hne].
Qed.

Lemma remove_first_unfold pattern s :
  UtilsStrings.remove_first pattern s
  = if String.prefix pattern s
    then String.substring (String.length pattern)
           (String.length s - String.length pattern) s
    else match s with
         | EmptyString => EmptyString
         | String c rest => String c (UtilsStrings.remove_first pattern rest)
         end.
Proof. destruct s; reflexivity. Qed.

Lemma remove_first_prefix p h : UtilsStrings.remove_first p (p +:+ h) = h.
Proof.
  rewrite remove_first_unfold, prefix_append, length_append.
  replace (String.length p + String.length h - String.length p)%nat
    with (String.length h) by lia.
  apply substring_skip.
Qed.

(** X22. [padWithZero] drops a leading [0x] and pads what follows with zeros on
    the left up to [length] characters, keeping longer input whole; in
    general its result is as long as the larger of [length] and the input
    without its first [0x]. *)
Theorem padWithZero_pads (h data : string) (n : nat) :
  UtilsStrings.padWithZero ("0x" +:+ h) n = UtilsStrings.zeros (n - String.length h) +:+ h
  /\ String.length (UtilsStrings.padWithZero data n)
     = Nat.max n (String.length (UtilsStrings.remove_first "0x" data)).
Proof.
  split.
  - unfold UtilsStrings.padWithZero, UtilsStrings.padStart.
    now rewrite remove_first_prefix.
  - unfold UtilsStrings.padWithZero, UtilsStrings.padStart.
    rewrite length_append, length_zeros. lia.
Qed.

(** ** [getV1RpcUrl] *)

(** X23. With an empty node list [getV1RpcUrl] throws a [TypeError], with or
    without an API key.  With a first node of non-empty url that url wins
    over the default; the path is appended to it when an API key is
    configured and left out when none is. *)
Theorem getV1RpcUrl_custom_node (key : ApiKey) (config : Config) (first : RpcNode)
    (others : list RpcNode) (path : string) :
  (rpc_nodes config = Some [] ->
   forall apiKey p, getV1RpcUrl apiKey config p = Throw TypeError)
  /\ (rpc_nodes config = Some (first :: others) ->
      rpcNode_url first <> "" ->
      path <> "" ->
      getV1RpcUrl (Some key) config (Some path) = Ok (rpcNode_url first +:+ path)
      /\ getV1RpcUrl None config (Some path) = Ok (rpcNode_url first)).
Proof.
  split.
  - intros Hnodes apiKey p. unfold getV1RpcUrl, first_node_url. rewrite Hnodes.
    now destruct apiKey.
  - intros Hnodes Hurl Hpath. unfold getV1RpcUrl, first_node_url, truthy_string.
    rewrite Hnodes. apply String.eqb_neq in Hurl, Hpath. now rewrite Hurl, Hpath.
Qed.

Lemma getV1RpcUrl_custom_node_witness :
  let config := mkConfig ETHEREUM (Some [mkRpcNode "https://node.example" NORMAL]) false (Fin 0) in
  rpc_nodes config = Some [mkRpcNode "https://node.example" NORMAL]
  /\ getV1RpcUrl (Some (mkApiKey None (Some "k"))) config (Some "/v1")
     = Ok ("https://node.example" +:+ "/v1")
  /\ getV1RpcUrl None config (Some "/v1") = Ok "https://node.example"
  /\ rpc_nodes (mkConfig ETHEREUM (Some []) false (Fin 0)) = Some []
  /\ getV1RpcUrl None (mkConfig ETHEREUM (Some []) false (Fin 0)) None = Throw TypeError.
Proof.
  intros config.
  destruct (getV1RpcUrl_custom_node (mkApiKey None (Some "k")) config
              (mkRpcNode "https://node.example" NORMAL) [] "/v1") as [_ Custom].
  destruct (getV1RpcUrl_custom_node (mkApiKey None None)
              (mkConfig ETHEREUM (Some []) false (Fin 0))
              (mkRpcNode "" NORMAL) [] "") as [Empty _].
  destruct (Custom eq_refl ltac:(discriminate) ltac:(discriminate)) as [WithKey NoKey].
  split; [reflexivity |]. split; [exact WithKey |]. split; [exact NoKey |].
  split; [reflexivity |]. exact (Empty eq_refl None None).
Defined.

(** ** The scheduler keeps a single timer *)

Lemma filter_one h : List.filter (fun h' => negb (Nat.eqb h' h)) [h] = [].
Proof. simpl. now rewrite Nat.eqb_refl. Qed.

Lemma destroy_tidy s : tidy s -> armed (destroy s) = [].
Proof.
  intros [Hnone | (h & Harmed & Htimeout)]; unfold destroy, clearTimeout.
  - destruct (timeout s); simpl; [now rewrite Hnone | exact Hnone].
  - rewrite Htimeout. simpl. rewrite Harmed. apply filter_one.
Qed.

Lemma fire_tidy h s : tidy s -> tidy (fire h s).
Proof.
  intros [Hnone | (h0 & Harmed & Htimeout)]; unfold fire, tidy; simpl.
  - left. now rewrite Hnone.
  - rewrite Harmed. simpl. destruct (Nat.eqb h0 h); simpl; [now left |].
    right. eauto.
Qed.

Lemma arm_after_clear s : armed s = [] -> tidy (arm s).
Proof. intros H. right. exists (S (last_handle s)). simpl. now rewrite H. Qed.

Lemma checkStatuses_scheduled_tidy toNumber config probes s :
  tidy s -> tidy (snd (checkStatuses_scheduled toNumber config probes s)).
Proof.
  intros Htidy. unfold checkStatuses_scheduled.
  destruct (checkStatuses toNumber config probes (instance s)) as [[[]|e] lb']; simpl;
    [| exact Htidy].
  destruct (negb (oneTimeLoadBalancing config)); simpl; [| exact Htidy].
  apply arm_after_clear. cbn [timeout with_instance].
  destruct (timeout s) as [h|] eqn:Htimeout.
  - apply (destroy_tidy (with_instance s lb')). exact Htidy.
  - destruct Htidy as [Hnone | (h & _ & Hsome)]; [exact Hnone | congruence].
Qed.

(** X24. At most one timer is ever armed for a balancer: this holds after
    [init] of a new instance and is kept when the timer fires, when the
    pass it starts completes or throws, and by [destroy]; after [destroy]
    with no pass under way no timer is armed at all. *)
Theorem scheduler_keeps_one_timer :
  (forall URL_hostname BigNumber_toNumber config fetched
          random1 random2 random3 random4 probes,
      tidy (snd (init_scheduled URL_hostname BigNumber_toNumber config fetched
                   random1 random2 random3 random4 probes newScheduled)))
  /\ (forall s, tidy s ->
        (forall h, tidy (fire h s))
        /\ (forall BigNumber_toNumber config probes,
              tidy (snd (checkStatuses_scheduled BigNumber_toNumber config probes s)))
        /\ armed (destroy s) = []).
Proof.
  split.
  - intros. unfold init_scheduled.
    destruct (init _ _ _ _ _ _ _ _ _ _) as [[[]|e] lb']; simpl; [| now left].
    destruct (negb (oneTimeLoadBalancing config)); simpl; [| now left].
    right. exists 1%nat. split; reflexivity.
  - intros s Htidy. split; [| split].
    + intros h. now apply fire_tidy.
    + intros. now apply checkStatuses_scheduled_tidy.
    + now apply destroy_tidy.
Qed.

Lemma scheduler_keeps_one_timer_witness :
  tidy (arm newScheduled)
  /\ tidy (fire 1 (arm newScheduled))
  /\ armed (destroy (arm newScheduled)) = [].
Proof.
  assert (H : tidy (arm newScheduled)) by (right; exists 1%nat; split; reflexivity).
  destruct scheduler_keeps_one_timer as [_ Keep].
  destruct (Keep (arm newScheduled) H) as (Fire & _ & Destroy).
  split; [exact H |]. split; [exact (Fire 1%nat) | exact Destroy].
Defined.

(** X25. When the pass started by the timer throws, no timer is armed
    afterwards: an unsupported network or a registry without active node
    ends the periodic probing for good. *)
Theorem failed_pass_stops_probing (BigNumber_toNumber : value -> number) (config : Config)
    (probes : RpcNodeType -> nat -> ProbeOutcome) (s : Scheduled) (h : nat) (e : Error) :
  tidy s ->
  h ∈ armed s ->
  fst (checkStatuses_scheduled BigNumber_toNumber config probes (fire h s)) = Throw e ->
  armed (snd (checkStatuses_scheduled BigNumber_toNumber config probes (fire h s))) = [].
Proof.
  intros Htidy Hh. unfold checkStatuses_scheduled.
  destruct (checkStatuses BigNumber_toNumber config probes (instance (fire h s)))
    as [[[]|e'] lb']; simpl.
  - destruct (negb (oneTimeLoadBalancing config)); discriminate.
  - intros _. destruct Htidy as [Hnone | (h0 & Harmed & _)].
    + rewrite Hnone in Hh. now apply elem_of_nil in Hh.
    + rewrite Harmed in *. apply list_elem_of_singleton in Hh as ->. apply filter_one.
Qed.

Lemma failed_pass_stops_probing_witness :
  tidy (arm newScheduled)
  /\ 1%nat ∈ armed (arm newScheduled)
  /\ fst (checkStatuses_scheduled (fun _ => NaN) example_config no_probe
            (fire 1 (arm newScheduled))) = Throw NoActiveNodeSetManually
  /\ armed (snd (checkStatuses_scheduled (fun _ => NaN) example_config no_probe
                   (fire 1 (arm newScheduled)))) = [].
Proof.
  assert (H : tidy (arm newScheduled)) by (right; exists 1%nat; split; reflexivity).
  assert (Hin : 1%nat ∈ armed (arm newScheduled)) by constructor.
  split; [exact H |]. split; [exact Hin |]. split; [reflexivity |].
  exact (failed_pass_stops_probing (fun _ => NaN) example_config no_probe
           (arm newScheduled) 1 NoActiveNodeSetManually H Hin eq_refl).
Defined.

(** X26. [destroy] does not stop a pass that is under way: in periodic mode a
    pass that completes after [destroy] arms a new timer, so the probing
    goes on. *)
Theorem destroy_during_pass_is_undone (BigNumber_toNumber : value -> number)
    (config : Config) (probes : RpcNodeType -> nat -> ProbeOutcome) (s : Scheduled) :
  oneTimeLoadBalancing config = false ->
  fst (checkStatuses_scheduled BigNumber_toNumber config probes (destroy s)) = Ok tt ->
  armed (snd (checkStatuses_scheduled BigNumber_toNumber config probes (destroy s)))
  <> [].
Proof.
  intros Hperiodic. unfold checkStatuses_scheduled. rewrite Hperiodic.
  destruct (checkStatuses BigNumber_toNumber config probes (instance (destroy s)))
    as [[[]|e] lb']; simpl; [| discriminate].
  intros _. discriminate.
Qed.

Lemma destroy_during_pass_is_undone_witness :
  oneTimeLoadBalancing example_config = false
  /\ fst (checkStatuses_scheduled (fun _ => NaN) example_config no_probe
            (destroy (fire 1 (arm (mkScheduled one_of_each None [] 0))))) = Ok tt
  /\ armed (snd (checkStatuses_scheduled (fun _ => NaN) example_config no_probe
                   (destroy (fire 1 (arm (mkScheduled one_of_each None [] 0))))))
     <> [].
Proof.
  split; [reflexivity |]. split; [reflexivity |].
  apply (destroy_during_pass_is_undone (fun _ => NaN) example_config no_probe
           (fire 1 (arm (mkScheduled one_of_each None [] 0)))); reflexivity.
Defined.

(** ** What a probe that fails leaves in the record *)

Lemma probe_failed_keeps_height toNumber config server o :
  failed (probe toNumber config server o) = true ->
  lastBlock (probe toNumber config server o) = lastBlock server.
Proof.
  unfold probe. destruct o as [|responseTime ok [response|]]; try reflexivity.
  destruct (ok && truthy (result response)); [| reflexivity].
  destruct (Utils.parseStatusPayload _ _ _); [discriminate | reflexivity].
Qed.

(** X27. An endpoint that a probe pass leaves failed keeps its url and the
    block height it had before the pass: a failure never overwrites the
    last known height, whatever else the probe recorded. *)
Theorem checkStatus_failed_keeps_height (BigNumber_toNumber : value -> number)
    (config : Config) (t : RpcNodeType) (probes : nat -> ProbeOutcome) (lb : LoadBalancer)
    (i : nat) (s s' : RpcStatus) :
  get (rpcUrls lb) t !! i = Some s ->
  get (rpcUrls (snd (checkStatus BigNumber_toNumber config t probes lb))) t !! i = Some s' ->
  failed s' = true ->
  node s' = node s /\ lastBlock s' = lastBlock s.
Proof.
  intros Hi.
  destruct (fst (checkStatus BigNumber_toNumber config t probes lb)) as [[]|e] eqn:Hfst.
  - rewrite (checkStatus_Ok _ _ _ _ _ Hfst). cbv zeta.
    assert (Hprobed : forall x,
      probed BigNumber_toNumber config probes lb t !! i = Some x ->
      x = probe BigNumber_toNumber config s (probes i)).
    { unfold probed. rewrite list_lookup_imap, Hi. simpl. congruence. }
    intros Hi' Hf.
    assert (Hx : s' = probe BigNumber_toNumber config s (probes i)).
    { apply Hprobed. destruct (negb _); simpl in Hi'; now rewrite get_set_same in Hi'. }
    subst s'. split; [apply probe_node | now apply probe_failed_keeps_height].
  - rewrite (checkStatus_Throw _ _ _ _ _ _ Hfst). intros Hi' _.
    assert (s' = s) as -> by congruence. auto.
Qed.

Lemma checkStatus_failed_keeps_height_witness :
  get (rpcUrls basic_failover) NORMAL !! 0%nat = Some (endpoint "A" 100 50 false)
  /\ get (rpcUrls (snd (checkStatus (fun _ => NaN) example_config NORMAL (no_probe NORMAL)
                          basic_failover))) NORMAL !! 0%nat
     = Some (endpoint "A" 100 50 true)
  /\ node (endpoint "A" 100 50 true) = node (endpoint "A" 100 50 false)
  /\ lastBlock (endpoint "A" 100 50 true) = lastBlock (endpoint "A" 100 50 false).
Proof.
  split; [reflexivity |]. split; [reflexivity |].
  apply (checkStatus_failed_keeps_height (fun _ => NaN) example_config NORMAL
           (no_probe NORMAL) basic_failover 0); reflexivity.
Defined.

Lemma checkStatus_on_tron_witness :
  let config := mkConfig TRON None false (Fin 0) in
  let probes := fun _ : nat => Fetched (Fin 40) true (Some (mkJsonRpcResponse (Str "0x10"))) in
  isTronNetwork (network config) = true
  /\ fst (checkStatus (fun _ => Fin 16) config NORMAL probes basic_failover) = Ok tt
  /\ (forall s,
        s ∈ get (rpcUrls (snd (checkStatus (fun _ => Fin 16) config NORMAL probes
                                 basic_failover))) NORMAL ->
        failed s = true)
  /\ activeUrl (snd (checkStatus (fun _ => Fin 16) config NORMAL probes basic_failover))
     = activeUrl basic_failover.
Proof.
  intros config probes. split; [reflexivity |].
  apply (checkStatus_on_tron (fun _ => Fin 16) config NORMAL probes basic_failover).
  reflexivity.
Defined.

(** X28. A call during which no probe pass lands on the instance returns or
    raises within [2 n + 2] retries, [n] being the number of registered
    endpoints of both kinds. *)
Theorem rawRpcCall_returns_or_raises (fuel : nat) (config : Config) (connector : Connector)
    (during : Interference) (rpcCall : JsonRpcCall) (archive : option bool)
    (lb : LoadBalancer) :
  quiet during ->
  (2 * (length (get (rpcUrls lb) NORMAL) + length (get (rpcUrls lb) ARCHIVE)) + 2 <= fuel)%nat ->
  (exists response,
      outcome (rawRpcCall_during fuel config connector during rpcCall archive lb)
      = Returned response)
  \/ (exists e,
        outcome (rawRpcCall_during fuel config connector during rpcCall archive lb)
        = Raised e).
Proof.
  intros Hq Hfuel. rewrite (rawRpcCall_during_quiet _ _ _ _ _ _ _ Hq).
  assert (Hbudget : (retry_budget lb <= fuel)%nat)
    by (pose proof (retry_budget_le lb); lia).
  pose proof (rawRpcCall_ends fuel config connector rpcCall archive lb Hbudget) as Hends.
  destruct (outcome (rawRpcCall fuel config connector rpcCall archive lb)) as [r | e |].
  - left. eauto.
  - right. eauto.
  - now contradiction Hends.
Qed.

Lemma rawRpcCall_returns_or_raises_witness :
  quiet no_pass
  /\ (2 * (length (get (rpcUrls two_archives) NORMAL)
           + length (get (rpcUrls two_archives) ARCHIVE)) + 2 <= 8)%nat
  /\ ((exists response,
         outcome (rawRpcCall_during 8 example_config (failing_on ["X"; "Y"; "N"]) no_pass
                    example_call (Some true) two_archives) = Returned response)
      \/ (exists e,
            outcome (rawRpcCall_during 8 example_config (failing_on ["X"; "Y"; "N"]) no_pass
                       example_call (Some true) two_archives) = Raised e)).
Proof.
  assert (Hq : quiet no_pass) by (intros n lb; reflexivity).
  assert (H : (2 * (length (get (rpcUrls two_archives) NORMAL)
                    + length (get (rpcUrls two_archives) ARCHIVE)) + 2 <= 8)%nat)
    by (simpl; lia).
  split; [exact Hq |]. split; [exact H |].
  exact (rawRpcCall_returns_or_raises 8 example_config (failing_on ["X"; "Y"; "N"]) no_pass
           example_call (Some true) two_archives Hq H).
Defined.

(** ** Retries while probe passes land *)

Lemma retries_with_passes fuel :
  rawRpcCall_during fuel tolerant_config always_down pass_during_each_request example_call
    None A_marked
  = mkRun Pending A_marked (repeat ("B", NORMAL) (S fuel)).
Proof.
  assert (Epass : pass_during_each_request 0%nat A_marked = basic_failover)
    by (vm_compute; reflexivity).
  assert (Ehandle : handleFailedRpcCall tolerant_config "timeout" NORMAL basic_failover
                    = (Ok tt, A_marked))
    by (vm_compute; reflexivity).
  induction fuel as [|fuel IH]; rewrite rawRpcCall_during_unfold;
    change (if flag None
            then getActiveArchiveUrlWithFallback A_marked
            else getActiveNormalUrlWithFallback A_marked) with (@Ok (string * RpcNodeType) ("B", NORMAL));
    cbv beta iota;
    change (always_down 0%nat "B" example_call)
      with (@inl TransportError JsonRpcResponse "timeout");
    cbv beta iota; rewrite Epass, Ehandle; [reflexivity |].
  change (later always_down) with always_down.
  change (fun n : nat => pass_during_each_request (S n)) with pass_during_each_request.
  rewrite IH. reflexivity.
Qed.

(** X30. When probe passes land during the requests of a call, the retries of
    [rawRpcCall] need not end.  With NORMAL [A; B], both healthy, a
    transport on which every request fails and a pass with good probes
    landing during every request, the call is still retrying after any
    number of requests: each pass clears the marks and selects [A] again,
    the failure of the request to [B] is then charged to [A], and [B] is
    tried once more.  Without the passes the same call raises the
    exhaustion error after its second request. *)
Theorem rawRpcCall_retries_without_end (fuel : nat) :
  outcome (rawRpcCall_during fuel tolerant_config always_down pass_during_each_request
             example_call None basic_failover) = Pending
  /\ sent (rawRpcCall_during fuel tolerant_config always_down pass_during_each_request
             example_call None basic_failover)
     = ("A", NORMAL) :: repeat ("B", NORMAL) fuel
  /\ final (rawRpcCall_during fuel tolerant_config always_down pass_during_each_request
              example_call None basic_failover) = A_marked
  /\ outcome (rawRpcCall_during fuel tolerant_config always_down no_pass example_call None
                basic_failover)
     = match fuel with
       | O => Pending
       | S _ => Raised (Rethrown AllNodesUnavailable "timeout")
       end.
Proof.
  assert (Epass : pass_during_each_request 0%nat basic_failover = basic_failover)
    by (vm_compute; reflexivity).
  assert (Ehandle : handleFailedRpcCall tolerant_config "timeout" NORMAL basic_failover
                    = (Ok tt, A_marked))
    by (vm_compute; reflexivity).
  assert (Erun : rawRpcCall_during fuel tolerant_config always_down pass_during_each_request
                   example_call None basic_failover
                 = mkRun Pending A_marked (("A", NORMAL) :: repeat ("B", NORMAL) fuel)).
  { rewrite rawRpcCall_during_unfold.
    change (if flag None
            then getActiveArchiveUrlWithFallback basic_failover
            else getActiveNormalUrlWithFallback basic_failover)
      with (@Ok (string * RpcNodeType) ("A", NORMAL)).
    cbv beta iota.
    change (always_down 0%nat "A" example_call)
      with (@inl TransportError JsonRpcResponse "timeout").
    cbv beta iota. rewrite Epass, Ehandle. destruct fuel as [|fuel]; [reflexivity |].
    change (later always_down) with always_down.
    change (fun n : nat => pass_during_each_request (S n)) with pass_during_each_request.
    rewrite retries_with_passes. reflexivity. }
  rewrite Erun. repeat split.
  destruct fuel as [|[|fuel]]; reflexivity.
Qed.

(** ** [post] and [rawRpcCall] resolve alike *)

(** X29. [post] sends its one request to the endpoint that a [rawRpcCall]
    without the [archive] flag would try first, and hands on what the
    transport gives, error or answer, without failover; it fails with the
    missing-active-node error, sending nothing, exactly when that call
    does. *)
Theorem post_follows_the_resolver {T : Type}
    (connector_post : string -> string -> value -> TransportError + T)
    (path : string) (body : value) (fuel : nat) (config : Config) (connector : Connector)
    (rpcCall : JsonRpcCall) (lb : LoadBalancer) :
  match fst (post connector_post path body lb) with
  | Some (u, p) =>
      p = path
      /\ (exists t,
            head (sent (rawRpcCall fuel config connector rpcCall None lb)) = Some (u, t))
      /\ snd (post connector_post path body lb)
         = match connector_post u path body with
           | inr response => PostReturned response
           | inl e => PostThrew e
           end
  | None =>
      snd (post connector_post path body lb) = PostRaised NoActiveNode
      /\ outcome (rawRpcCall fuel config connector rpcCall None lb) = Raised NoActiveNode
      /\ sent (rawRpcCall fuel config connector rpcCall None lb) = []
  end.
Proof.
  unfold post. rewrite rawRpcCall_unfold. cbn [flag].
  destruct (getActiveNormalUrlWithFallback lb) as [[u t]|err] eqn:Hresolve.
  - cbn [fst snd]. split; [reflexivity |]. split; [| reflexivity].
    exists t. reflexivity.
  - cbn [fst snd]. apply (resolve_throws None lb err) in Hresolve as ->.
    repeat split.
Qed.
